(** * Reporting and visualisation layer: aggregation and artifact writing

    A shallow embedding of the two scripts

    - [VisualizePrices.py] (order history, price analysis, dashboard,
      [save_plot], the menu of [main]);
    - [benchmark_virtual_nonvirtual_order_visualization.py] ([create_chart]).

    Numbers.  Python floats are modelled as exact rationals extended with
    the two infinities and NaN.  Rounding, overflow and the sign of zero
    are not modelled; what is modelled is which operations produce a
    number, an infinity or the missing-value marker NaN, because the
    shape of every pandas result below depends on exactly that.  A
    statement below gives a value as the expression the library
    evaluates, in the order it evaluates it; no statement relies on an
    identity of exact arithmetic that doubles do not share.

    Libraries.  The calls are modelled as pandas 2.x and matplotlib 3.x
    (up to 3.10) perform them.

    Tables.  A pandas [Series] is a list of floats; a [DataFrame] is an
    ordered list of named columns.

    Effects.  The scripts read and write files, read the clock, keep
    pyplot's registry of open figures and print; all of this is an
    explicit [world] threaded through a state-and-exception monad. *)

From Stdlib Require Import QArith Ascii String Lqa.
From stdpp Require Import gmap strings list fin_maps pretty sorting.

Open Scope string_scope.
Open Scope list_scope.

(** ** Floats *)

Inductive float : Type :=
| Finite (q : Q)
| PosInf
| NegInf
| NaN.

Definition isna (x : float) : bool :=
  match x with NaN => true | _ => false end.

Definition notna (x : float) : bool := negb (isna x).

Definition Qis_zero (q : Q) : bool := Qeq_bool q 0.

Definition Qis_neg (q : Q) : bool := negb (Qle_bool 0 q).

Definition fneg (x : float) : float :=
  match x with
  | Finite q => Finite (- q)
  | PosInf => NegInf
  | NegInf => PosInf
  | NaN => NaN
  end.

Definition fadd (x y : float) : float :=
  match x, y with
  | NaN, _ | _, NaN => NaN
  | Finite a, Finite b => Finite (a + b)
  | PosInf, NegInf | NegInf, PosInf => NaN
  | PosInf, _ | _, PosInf => PosInf
  | NegInf, _ | _, NegInf => NegInf
  end.

Definition fsub (x y : float) : float := fadd x (fneg y).

(** Sign of an infinity times the sign of a non-zero rational. *)
Definition inf_signed (negative : bool) : float :=
  if negative then NegInf else PosInf.

Definition fmul (x y : float) : float :=
  match x, y with
  | NaN, _ | _, NaN => NaN
  | Finite a, Finite b => Finite (a * b)
  | Finite a, PosInf | PosInf, Finite a =>
      if Qis_zero a then NaN else inf_signed (Qis_neg a)
  | Finite a, NegInf | NegInf, Finite a =>
      if Qis_zero a then NaN else inf_signed (negb (Qis_neg a))
  | PosInf, PosInf | NegInf, NegInf => PosInf
  | PosInf, NegInf | NegInf, PosInf => NegInf
  end.

(** Float division as numpy performs it on a Series: a non-zero number
    over zero is an infinity, zero over zero is NaN, nothing raises. *)
Definition fdiv (x y : float) : float :=
  match x, y with
  | NaN, _ | _, NaN => NaN
  | Finite a, Finite b =>
      if Qis_zero b
      then (if Qis_zero a then NaN else inf_signed (Qis_neg a))
      else Finite (a / b)
  | Finite _, _ => Finite 0
  | PosInf, Finite b => inf_signed (Qis_neg b)
  | NegInf, Finite b => inf_signed (negb (Qis_neg b))
  | _, _ => NaN
  end.

Definition of_nat (n : nat) : float := Finite (inject_Z (Z.of_nat n)).

(** Equality of floats up to the representation of a rational. *)
Definition feq (x y : float) : Prop :=
  match x, y with
  | Finite a, Finite b => a == b
  | PosInf, PosInf | NegInf, NegInf | NaN, NaN => True
  | _, _ => False
  end.

(** ** Series *)

Abbreviation Series := (list float).

Definition fsum (xs : Series) : float := foldr fadd (Finite 0) xs.

Definition dropna (xs : Series) : Series := List.filter notna xs.

Definition count_defined (xs : Series) : nat := length (dropna xs).

(** [Series.mean()]: missing values are skipped; the mean of nothing is
    NaN. *)
Definition mean (xs : Series) : float :=
  let obs := dropna xs in
  match obs with
  | [] => NaN
  | _ => fdiv (fsum obs) (of_nat (length obs))
  end.

(** [xs[lo:hi]] *)
Definition slice {A} (lo hi : nat) (xs : list A) : list A :=
  take (hi - lo) (drop lo xs).

Definition isinf (x : float) : bool :=
  match x with PosInf | NegInf => true | _ => false end.

(** What [rolling] does to its values before the window slides: an
    infinity becomes a missing value. *)
Definition prep_values (xs : Series) : Series :=
  map (fun x => if isinf x then NaN else x) xs.

(** [Series.rolling(window=w).mean()].  [min_periods] is left at its
    default, the window size: position [i] looks at the (at most [w])
    values ending at [i] and is NaN unless [w] of them are observations. *)
Definition rolling_mean_at (w : nat) (xs : Series) (i : nat) : float :=
  let obs := dropna (slice (i + 1 - w) (i + 1) (prep_values xs)) in
  if (w <=? length obs)%nat
  then fdiv (fsum obs) (of_nat (length obs))
  else NaN.

Definition rolling_mean (w : nat) (xs : Series) : Series :=
  map (rolling_mean_at w xs) (seq 0 (length xs)).

(** [Series.shift(1)] *)
Definition shift1 (xs : Series) : Series :=
  match xs with
  | [] => []
  | _ => NaN :: removelast xs
  end.

(** The change from [prev] to [x] as a fraction of [prev]. *)
Definition pct (x prev : float) : float := fsub (fdiv x prev) (Finite 1).

(** [Series.ffill()]: a missing value takes the last value before it
    that is not missing; missing values at the start stay. *)
Fixpoint ffill_from (last : float) (xs : Series) : Series :=
  match xs with
  | [] => []
  | x :: xs' => if isna x then last :: ffill_from last xs' else x :: ffill_from x xs'
  end.

Definition ffill (xs : Series) : Series := ffill_from NaN xs.

(** [Series.pct_change()]: the series is forward filled (the default
    [fill_method] of pandas 2.x), then [data / data.shift(1) - 1]. *)
Definition pct_change (xs : Series) : Series :=
  let data := ffill xs in
  zip_with pct data (shift1 data).



(** ** Aggregates of [create_price_analysis_plots] *)

Definition MA5 (price : Series) : Series := rolling_mean 5 price.
Definition MA10 (price : Series) : Series := rolling_mean 10 price.

(** [returns = df_prices['price'].pct_change().dropna()] *)
Definition price_returns (price : Series) : Series := dropna (pct_change price).

(** ** Sorting and order statistics *)

Section Sort.
Context {A : Type} (leb : A -> A -> bool).

Fixpoint insert_sorted (x : A) (l : list A) : list A :=
  match l with
  | [] => [x]
  | y :: l' => if leb x y then x :: l else y :: insert_sorted x l'
  end.

(** Stable: among equal keys the earlier element stays first. *)
Definition isort (l : list A) : list A := foldr insert_sorted [] l.

End Sort.

(** Order on floats that are not NaN. *)
Definition fleb (x y : float) : bool :=
  match x, y with
  | NaN, _ | _, NaN => false
  | NegInf, _ | _, PosInf => true
  | Finite a, Finite b => Qle_bool a b
  | _, _ => false
  end.

(** [Series.median()]: missing values are skipped; the middle value of
    the sorted observations, or the mean of the two middle ones. *)
Definition median (xs : Series) : float :=
  let obs := isort fleb (dropna xs) in
  let n := length obs in
  if (n =? 0)%nat then NaN
  else if Nat.odd n then nth (n / 2) obs NaN
  else fdiv (fadd (nth (n / 2 - 1) obs NaN) (nth (n / 2) obs NaN)) (Finite 2).

Definition series_min (xs : Series) : float :=
  match isort fleb (dropna xs) with
  | [] => NaN
  | x :: _ => x
  end.

Definition series_max (xs : Series) : float :=
  List.last (isort fleb (dropna xs)) NaN.

(** ** Labels, columns and data frames *)

(** A value used as a group key or an axis label. *)
Inductive label : Type :=
| LStr (s : string)
| LInt (z : Z)
| LNum (q : Q)
| LPosInf
| LNegInf
| LTime (ns : Z).

#[global] Instance Q_eq_dec : EqDecision Q.
Proof. solve_decision. Defined.

#[global] Instance float_eq_dec : EqDecision float.
Proof. solve_decision. Defined.

#[global] Instance label_eq_dec : EqDecision label.
Proof. solve_decision. Defined.

Definition label_rank (l : label) : nat :=
  match l with
  | LNegInf => 0 | LNum _ => 1 | LPosInf => 2
  | LInt _ => 3 | LTime _ => 4 | LStr _ => 5
  end.

(** Labels of one column have one kind; across kinds the order is only
    there to make the comparison total. *)
Definition label_leb (a b : label) : bool :=
  match a, b with
  | LStr s, LStr t => String.leb s t
  | LInt x, LInt y => (x <=? y)%Z
  | LTime x, LTime y => (x <=? y)%Z
  | LNum p, LNum q => Qle_bool p q
  | _, _ => (label_rank a <=? label_rank b)%nat
  end.

Definition sort_labels (ls : list label) : list label :=
  isort label_leb (remove_dups ls).

(** The dtype of a column as [read_csv] infers it, plus the datetime
    dtype that [to_datetime] produces.  String columns are taken without
    missing cells. *)
Inductive column : Type :=
| NumCol (xs : Series)
| IntCol (zs : list Z)
| StrCol (ss : list string)
| DatetimeCol (ns : list Z).

#[global] Instance column_eq_dec : EqDecision column.
Proof. solve_decision. Defined.

Definition col_length (c : column) : nat :=
  match c with
  | NumCol xs => length xs
  | IntCol zs => length zs
  | StrCol ss => length ss
  | DatetimeCol ns => length ns
  end.

(** An ordered list of named columns. *)
Abbreviation DataFrame := (list (string * column)).

Definition df_columns (df : DataFrame) : list string := map fst df.

(** [len(df)] *)
Definition df_len (df : DataFrame) : nat :=
  match df with
  | [] => 0
  | (_, c) :: _ => col_length c
  end.

Fixpoint df_get (df : DataFrame) (name : string) : option column :=
  match df with
  | [] => None
  | (n, c) :: rest => if decide (n = name) then Some c else df_get rest name
  end.

(** [df[name] = c]: an existing column is replaced where it stands, a
    new one is appended.  The frame object itself is updated. *)
Fixpoint df_set (df : DataFrame) (name : string) (c : column) : DataFrame :=
  match df with
  | [] => [(name, c)]
  | (n, c0) :: rest =>
      if decide (n = name) then (n, c) :: rest
      else (n, c0) :: df_set rest name c
  end.

(** Group keys of a column; [None] is a missing key. *)
Definition float_label (x : float) : option label :=
  match x with
  | Finite q => Some (LNum (Qred q))
  | PosInf => Some LPosInf
  | NegInf => Some LNegInf
  | NaN => None
  end.

Definition labels_of (c : column) : list (option label) :=
  match c with
  | NumCol xs => map float_label xs
  | IntCol zs => map (fun z => Some (LInt z)) zs
  | StrCol ss => map (fun s => Some (LStr s)) ss
  | DatetimeCol ns => map (fun n => Some (LTime n)) ns
  end.

Definition count_label (l : label) (ls : list label) : nat :=
  length (List.filter (fun x => bool_decide (x = l)) ls).

(** The distinct labels in the order of their first appearance. *)
Fixpoint unique (ls : list label) : list label :=
  match ls with
  | [] => []
  | l :: ls' => l :: List.filter (fun x => negb (bool_decide (x = l))) (unique ls')
  end.

(** [Series.value_counts()]: missing values dropped, most frequent
    first, labels with the same count in the order of their first
    appearance. *)
Definition value_counts (c : column) : list (label * nat) :=
  let ls := omap id (labels_of c) in
  isort (fun a b => (snd b <=? snd a)%nat)
        (map (fun k => (k, count_label k ls)) (unique ls)).

(** [.sort_index()] *)
Definition sort_index (vc : list (label * nat)) : list (label * nat) :=
  isort (fun a b => label_leb (fst a) (fst b)) vc.

(** [df.groupby(keys).size()]: one row per key, keys ascending. *)
Definition groupby_size (c : column) : list (label * nat) :=
  let ls := omap id (labels_of c) in
  map (fun k => (k, count_label k ls)) (sort_labels ls).

(** [.index.astype(str)] *)
Definition label_str (l : label) : label :=
  match l with
  | LInt z => LStr (pretty z)
  | _ => l
  end.

(** [(col == s).sum()], as used by [len(df[df['side'] == s])] *)
Definition count_equal_str (c : column) (s : string) : nat :=
  match c with
  | StrCol ss => length (List.filter (fun x => bool_decide (x = s)) ss)
  | _ => 0
  end.

(** [.dt.floor('S')] on nanosecond timestamps *)
Definition floor_seconds (ns : list Z) : list Z :=
  map (fun n => (n / 1000000000 * 1000000000)%Z) ns.

(** ** Grouped medians: [groupby([k1, k2])[v].median().unstack().reindex(rows)] *)

(** A two-level key is present only when both levels are. *)
Definition key_pairs (k1 k2 : list (option label)) : list (option (label * label)) :=
  zip_with (fun a b => match a, b with
                       | Some x, Some y => Some (x, y)
                       | _, _ => None
                       end) k1 k2.

(** The rows of one group: the values whose key is [k]. *)
Definition group_values (k : label * label)
    (keys : list (option (label * label))) (vals : Series) : Series :=
  omap (fun kv => if decide (fst kv = Some k) then Some (snd kv) else None)
       (zip keys vals).

Definition pair_leb (a b : label * label) : bool :=
  if decide (fst a = fst b) then label_leb (snd a) (snd b)
  else label_leb (fst a) (fst b).

(** The groups in key order, each with its median. *)
Definition groupby_median (keys : list (option (label * label))) (vals : Series)
  : list ((label * label) * float) :=
  map (fun k => (k, median (group_values k keys vals)))
      (isort pair_leb (remove_dups (omap id keys))).

(** A table with a row index and column labels. *)
Record Table : Type := {
  t_index : list label;
  t_columns : list label;
  t_data : list (list float)
}.

Fixpoint assoc {K V} `{EqDecision K} (k : K) (kvs : list (K * V)) : option V :=
  match kvs with
  | [] => None
  | (k', v) :: rest => if decide (k' = k) then Some v else assoc k rest
  end.

(** [.unstack()]: the inner key level becomes the columns; a key pair
    without a group is NaN. *)
Definition unstack (g : list ((label * label) * float)) : Table :=
  let idx := sort_labels (map (fun kv => fst (fst kv)) g) in
  let cols := sort_labels (map (fun kv => snd (fst kv)) g) in
  {| t_index := idx;
     t_columns := cols;
     t_data := map (fun r => map (fun c => default NaN (assoc (r, c) g)) cols) idx |}.

(** [.reindex(rows)]: exactly the requested rows in the requested
    order; a row that is not in the table is filled with NaN. *)
Definition reindex (rows : list label) (t : Table) : Table :=
  {| t_index := rows;
     t_columns := t_columns t;
     t_data := map (fun r => default (replicate (length (t_columns t)) NaN)
                                     (assoc r (zip (t_index t) (t_data t))))
                   rows |}.

(** Cell access by labels. *)
Definition cell (t : Table) (r c : label) : option float :=
  row ← assoc r (zip (t_index t) (t_data t));
  assoc c (zip (t_columns t) row).

Definition pattern_order : list label :=
  [LStr "homogeneous"; LStr "bursty"; LStr "mixed_random"].

(** ** Strings, paths and the clock *)

Definition chars (s : string) : list ascii := String.list_ascii_of_string s.
Definition text (l : list ascii) : string := String.string_of_list_ascii l.

Definition slash : ascii := "/"%char.
Definition dot : ascii := "."%char.

(** The characters before the first [c], and those after it. *)
Fixpoint split_at (c : ascii) (l : list ascii) : option (list ascii * list ascii) :=
  match l with
  | [] => None
  | x :: l' =>
      if decide (x = c) then Some ([], l')
      else match split_at c l' with
           | Some (b, a) => Some (x :: b, a)
           | None => None
           end
  end.

Fixpoint drop_leading (c : ascii) (l : list ascii) : list ascii :=
  match l with
  | [] => []
  | x :: l' => if decide (x = c) then drop_leading c l' else l
  end.

(** [os.path.join(a, b)] on POSIX *)
Definition path_join (a b : string) : string :=
  match chars b with
  | c :: _ => if decide (c = slash) then b
              else match rev (chars a) with
                   | [] => b
                   | d :: _ => if decide (d = slash) then a +:+ b
                               else a +:+ "/" +:+ b
                   end
  | [] => match rev (chars a) with
          | [] => b
          | d :: _ => if decide (d = slash) then a +:+ b
                      else a +:+ "/" +:+ b
          end
  end.

(** The directory a path lives in; [""] stands for the directory the
    path is relative to. *)
Definition parent_dir (path : string) : string :=
  match split_at slash (rev (chars path)) with
  | Some (_, before) => text (rev before)
  | None => ""
  end.

(** The last path component, reversed. *)
Definition rev_basename (path : string) : list ascii :=
  match split_at slash (rev (chars path)) with
  | Some (name, _) => name
  | None => rev (chars path)
  end.

(** [os.path.splitext(path)[1][1:]]: what follows the last dot of the
    last component, provided something other than dots precedes it. *)
Definition extension (path : string) : string :=
  match split_at dot (rev_basename path) with
  | Some (rext, rstem) =>
      if existsb (fun c => negb (bool_decide (c = dot))) rstem
      then text (rev rext) else ""
  | None => ""
  end.

(** [s.rstrip('.')] *)
Definition rstrip_dots (s : string) : string :=
  text (rev (drop_leading dot (rev (chars s)))).

Definition lower_ascii (c : ascii) : ascii :=
  let n := nat_of_ascii c in
  if ((65 <=? n) && (n <=? 90))%nat then ascii_of_nat (n + 32) else c.

(** [s.lower()] on ASCII *)
Definition lower (s : string) : string := text (map lower_ascii (chars s)).

(** White space as [str.isspace] has it.  A string is the sequence of
    its UTF-8 bytes: the ASCII white space is one byte, *)
Definition is_space (c : ascii) : bool :=
  let n := nat_of_ascii c in
  (((9 <=? n) && (n <=? 13)) || ((28 <=? n) && (n <=? 32)))%nat.

(** and the other white space of Unicode (U+0085, U+00A0, U+1680,
    U+2000 to U+200A, U+2028, U+2029, U+202F, U+205F, U+3000) is two or
    three bytes. *)
Definition wide_spaces : list (list ascii) :=
  map (map ascii_of_nat)
      [[194; 133]; [194; 160]; [225; 154; 128];
       [226; 128; 128]; [226; 128; 129]; [226; 128; 130]; [226; 128; 131];
       [226; 128; 132]; [226; 128; 133]; [226; 128; 134]; [226; 128; 135];
       [226; 128; 136]; [226; 128; 137]; [226; 128; 138];
       [226; 128; 168]; [226; 128; 169]; [226; 128; 175];
       [226; 129; 159]; [227; 128; 128]]%nat.

(** [l] without the prefix [p], when it starts with it. *)
Fixpoint without_prefix (p l : list ascii) : option (list ascii) :=
  match p, l with
  | [], _ => Some l
  | c :: p', x :: l' => if decide (c = x) then without_prefix p' l' else None
  | _ :: _, [] => None
  end.

(** [l] without the white space character it starts with. *)
Definition drop_space (wide : list (list ascii)) (l : list ascii) : option (list ascii) :=
  match l with
  | [] => None
  | x :: l' =>
      if is_space x then Some l'
      else list_find (fun r => is_Some r) (map (fun p => without_prefix p l) wide)
           ≫= snd
  end.

(** At most [n] white space characters taken from the front. *)
Fixpoint lstrip_chars (n : nat) (wide : list (list ascii)) (l : list ascii) : list ascii :=
  match n with
  | O => l
  | S n' =>
      match drop_space wide l with
      | Some l' => lstrip_chars n' wide l'
      | None => l
      end
  end.

(** [s.strip()]: white space is taken from both ends; from the end the
    bytes of a character come last byte first. *)
Definition strip (s : string) : string :=
  let front := lstrip_chars (length (chars s)) wide_spaces (chars s) in
  text (rev (lstrip_chars (length front) (map (@rev ascii) wide_spaces) (rev front))).

Definition is_digit (c : ascii) : bool :=
  ((48 <=? nat_of_ascii c) && (nat_of_ascii c <=? 57))%nat.

Definition digit (n : Z) : ascii := ascii_of_nat (48 + Z.to_nat (n mod 10)).

Definition pad2 (n : Z) : string :=
  String (digit (n / 10)) (String (digit n) "").

Definition pad4 (n : Z) : string :=
  String (digit (n / 1000)) (String (digit (n / 100)) (pad2 n)).

(** A reading of [datetime.now()]. *)
Record datetime : Type := {
  year : Z; month : Z; day : Z;
  hour : Z; minute : Z; second : Z
}.

(** The readings a present-day clock can give.  Years before 1000,
    where platforms disagree on how [%Y] is padded, are left out. *)
Definition valid_datetime (t : datetime) : Prop :=
  (1000 <= year t <= 9999 /\ 1 <= month t <= 12 /\ 1 <= day t <= 31 /\
   0 <= hour t <= 23 /\ 0 <= minute t <= 59 /\ 0 <= second t <= 59)%Z.

(** [strftime("%Y%m%d")] and [strftime("%H%M%S")] *)
Definition date_token (t : datetime) : string :=
  pad4 (year t) +:+ pad2 (month t) +:+ pad2 (day t).

Definition time_token (t : datetime) : string :=
  pad2 (hour t) +:+ pad2 (minute t) +:+ pad2 (second t).

(** [strftime("%Y%m%d_%H%M%S")] *)
Definition strftime_stamp (t : datetime) : string :=
  date_token t +:+ "_" +:+ time_token t.

(** ** Figures *)

(** What a plotting call puts on an axes.  Axis labels, ticks, grids,
    colours and layout are not recorded; a legend that formats a value
    is its format template. *)
Inductive artist : Type :=
| Plot (x y : list (option label)) (legend : string)
| Bar (x : list label) (height : Series) (legend : string)
| Pie (sizes : list nat) (labels : list label)
| Hist (x : list (option label)) (bins : nat)
| AxHLine (y : float) (legend : string)
| AxText (s : string).

Record axes : Type := {
  ax_title : string;
  ax_artists : list artist
}.

Record figure : Type := {
  fig_suptitle : string;
  fig_axes : list axes;
  fig_texts : list string
}.

Definition empty_axes : axes := {| ax_title := ""; ax_artists := [] |}.

Definition empty_figure (n : nat) : figure :=
  {| fig_suptitle := ""; fig_axes := replicate n empty_axes; fig_texts := [] |}.

(** ** The world the scripts run in *)

Inductive exn : Type :=
| FileNotFoundError
| FileExistsError
| IsADirectoryError
| ParserError
| KeyError (key : label)
| TypeError
| ValueError
| OutOfBoundsDatetime
| NotADirectoryError
| EOFError.

(** [except FileNotFoundError] *)
Definition is_FileNotFoundError (e : exn) : bool :=
  match e with FileNotFoundError => true | _ => false end.

(** What a file holds. *)
Inductive content : Type :=
| Csv (df : DataFrame)
| Image (fig : figure) (fmt : string) (dpi : option nat) (tight : bool)
| Other.

(** A line on standard output.  The formatting of floats and of
    exception messages is not modelled: a line that formats floats is
    its format template and the values, a line that formats a caught
    exception is the text before it and the exception. *)
Inductive line : Type :=
| Text (s : string)
| Stat (template : string) (vs : list float)
| Failure (s : string) (e : exn).

Record world : Type := {
  files : gmap string content;
  dirs : gset string;
  cwd : string;
  clock : datetime;
  figures : list figure;
  stdout : list line;
  stdin : list string
}.

Definition set_files (f : gmap string content -> gmap string content) (w : world) : world :=
  {| files := f (files w); dirs := dirs w; cwd := cwd w; clock := clock w;
     figures := figures w; stdout := stdout w; stdin := stdin w |}.

Definition set_dirs (f : gset string -> gset string) (w : world) : world :=
  {| files := files w; dirs := f (dirs w); cwd := cwd w; clock := clock w;
     figures := figures w; stdout := stdout w; stdin := stdin w |}.

Definition set_figures (f : list figure -> list figure) (w : world) : world :=
  {| files := files w; dirs := dirs w; cwd := cwd w; clock := clock w;
     figures := f (figures w); stdout := stdout w; stdin := stdin w |}.

Definition set_stdout (f : list line -> list line) (w : world) : world :=
  {| files := files w; dirs := dirs w; cwd := cwd w; clock := clock w;
     figures := figures w; stdout := f (stdout w); stdin := stdin w |}.

Definition set_stdin (f : list string -> list string) (w : world) : world :=
  {| files := files w; dirs := dirs w; cwd := cwd w; clock := clock w;
     figures := figures w; stdout := stdout w; stdin := f (stdin w) |}.

(** ** State and exceptions *)

Inductive outcome (A : Type) : Type :=
| Ok (a : A)
| Raise (e : exn).

Arguments Ok {A} a.
Arguments Raise {A} e.

(** A computation changes the world and returns or raises; what it did
    to the world before raising stays done. *)
Definition M (A : Type) : Type := world -> outcome A * world.

#[global] Instance M_ret : MRet M := fun A a w => (Ok a, w).

#[global] Instance M_bind : MBind M := fun A B k m w =>
  match m w with
  | (Ok a, w') => k a w'
  | (Raise e, w') => (Raise e, w')
  end.

Definition raise {A} (e : exn) : M A := fun w => (Raise e, w).

(** [try: body  except ...: handler] *)
Definition try_except {A} (body : M A) (handler : exn -> M A) : M A := fun w =>
  match body w with
  | (Ok a, w') => (Ok a, w')
  | (Raise e, w') => handler e w'
  end.

(** [for x in l: body] *)
Fixpoint for_each {A} (l : list A) (body : A -> M unit) : M unit :=
  match l with
  | [] => mret tt
  | x :: l' => body x ;; for_each l' body
  end.

Definition print (l : line) : M unit := fun w =>
  (Ok tt, set_stdout (fun out => out ++ [l]) w).

(** [input()] *)
Definition input : M string := fun w =>
  match stdin w with
  | [] => (Raise EOFError, w)
  | s :: rest => (Ok s, set_stdin (fun _ => rest) w)
  end.

(** [datetime.now()] *)
Definition now : M datetime := fun w => (Ok (clock w), w).

(** ** Files *)

(** [os.makedirs(d, exist_ok=True)] for a directory name of one
    component. *)
Definition makedirs_exist_ok (d : string) : M unit := fun w =>
  if decide (d ∈ dirs w) then (Ok tt, w)
  else if decide (is_Some (files w !! d)) then (Raise FileExistsError, w)
  else (Ok tt, set_dirs (fun ds => {[d]} ∪ ds) w).

(** Opening [path] for writing and storing [c]: the directory of the
    path has to exist and the path must not be a directory.  The file
    is replaced if it is there. *)
Definition write_file (path : string) (c : content) : M unit := fun w =>
  if decide (parent_dir path <> "" /\ parent_dir path ∉ dirs w)
  then (Raise FileNotFoundError, w)
  else if decide (path ∈ dirs w) then (Raise IsADirectoryError, w)
  else (Ok tt, set_files (fun fs => <[path := c]> fs) w).

(** [pd.read_csv(path)] *)
Definition read_csv (path : string) : M DataFrame := fun w =>
  if decide (path ∈ dirs w) then (Raise IsADirectoryError, w)
  else match files w !! path with
       | None => (Raise FileNotFoundError, w)
       | Some (Csv df) => (Ok df, w)
       | Some _ => (Raise ParserError, w)
       end.

(** [df[name]] *)
Definition getitem (df : DataFrame) (name : string) : M column :=
  match df_get df name with
  | Some c => mret c
  | None => raise (KeyError (LStr name))
  end.

(** The values of a column as floats; a string or datetime column is
    not numeric. *)
Definition numeric (c : column) : M Series :=
  match c with
  | NumCol xs => mret xs
  | IntCol zs => mret (map (fun z => Finite (inject_Z z)) zs)
  | _ => raise TypeError
  end.

(** [pd.to_datetime(col, unit='ns')] on an integer column.  What pandas
    reads as "not a time" (the least 64-bit integer, a missing cell of
    a float column) and the other dtypes do not occur as timestamps in
    the files of the scripts and are modelled as rejected: a run over
    such a column is not one the statements about completed runs
    speak of. *)
Definition to_datetime_ns (c : column) : M column :=
  match c with
  | IntCol zs =>
      if forallb (fun z => (- 2 ^ 63 <? z)%Z && (z <? 2 ^ 63)%Z) zs
      then mret (DatetimeCol zs)
      else raise OutOfBoundsDatetime
  | DatetimeCol ns => mret (DatetimeCol ns)
  | _ => raise ValueError
  end.

(** [col.dt.floor('S')] *)
Definition dt_floor_seconds (c : column) : M column :=
  match c with
  | DatetimeCol ns => mret (DatetimeCol (floor_seconds ns))
  | _ => raise TypeError
  end.

(** ** Pyplot's registry of figures

    A figure is a shared object: the plotting calls change it and
    [savefig] reads it later.  Figures live in the world; the scripts
    hold their position in the registry. *)

Definition new_figure (n : nat) : M nat := fun w =>
  (Ok (length (figures w)), set_figures (fun fs => fs ++ [empty_figure n]) w).

Definition update_figure (fig : nat) (f : figure -> figure) : M unit := fun w =>
  (Ok tt, set_figures (alter f fig) w).

Definition update_axes (fig ax : nat) (f : axes -> axes) : M unit :=
  update_figure fig (fun g =>
    {| fig_suptitle := fig_suptitle g;
       fig_axes := alter f ax (fig_axes g);
       fig_texts := fig_texts g |}).

(** [plt.subplot2grid(...)]: one more axes on the figure. *)
Definition add_axes (fig : nat) : M nat := fun w =>
  let n := match figures w !! fig with
           | Some g => length (fig_axes g)
           | None => 0
           end in
  (Ok n, set_figures (alter (fun g =>
    {| fig_suptitle := fig_suptitle g;
       fig_axes := fig_axes g ++ [empty_axes];
       fig_texts := fig_texts g |}) fig) w).

Definition suptitle (fig : nat) (s : string) : M unit :=
  update_figure fig (fun g =>
    {| fig_suptitle := s; fig_axes := fig_axes g; fig_texts := fig_texts g |}).

Definition figtext (fig : nat) (s : string) : M unit :=
  update_figure fig (fun g =>
    {| fig_suptitle := fig_suptitle g; fig_axes := fig_axes g;
       fig_texts := fig_texts g ++ [s] |}).

Definition set_title (fig ax : nat) (s : string) : M unit :=
  update_axes fig ax (fun a => {| ax_title := s; ax_artists := ax_artists a |}).

(** The formats the default matplotlib backends can encode, as
    [FigureCanvasBase.get_supported_filetypes] lists them from
    matplotlib 3.6 to 3.10. *)
Definition supported_formats : list string :=
  ["eps"; "jpeg"; "jpg"; "pdf"; "pgf"; "png"; "ps"; "raw"; "rgba"; "svg";
   "svgz"; "tif"; "tiff"; "webp"].

(** Where [savefig] writes and in which format.  With an explicit
    format the name is used as it is.  Without one the format is the
    extension of the name; a name without extension is saved as png and
    gets [.png] appended. *)
Definition savefig_target (fname : string) (format : option string) : string * string :=
  match format with
  | Some f => (fname, lower f)
  | None =>
      if decide (extension fname = "")
      then (rstrip_dots fname +:+ ".png", "png")
      else (fname, lower (extension fname))
  end.

(** [fig.savefig(fname, dpi=..., bbox_inches=..., format=...)].  An
    unknown format is rejected before any file is opened. *)
Definition savefig (fig : nat) (fname : string) (dpi : option nat)
    (tight : bool) (format : option string) : M unit := fun w =>
  let '(path, fmt) := savefig_target fname format in
  match figures w !! fig with
  | None => (Raise ValueError, w)
  | Some g =>
      if decide (fmt ∈ supported_formats)
      then write_file path (Image g fmt dpi tight) w
      else (Raise ValueError, w)
  end.

(** ** [save_plot] *)

Definition plots_dir : string := "saved_plots".

(** [os.getcwd()] *)
Definition getcwd : M string := fun w => (Ok (cwd w), w).

(** [os.path.abspath(p)], without normalisation *)
Definition abspath (p : string) : M string := fun w => (Ok (path_join (cwd w) p), w).

(** [os.path.exists(p)] *)
Definition path_exists (p : string) : M bool := fun w =>
  (Ok (bool_decide (p ∈ dirs w \/ is_Some (files w !! p))), w).

Definition plot_filename (base_name fmt : string) : string :=
  path_join plots_dir (base_name +:+ "." +:+ fmt).

Definition save_plot (fig : nat) (plot_name : string) (formats : list string) : M string :=
  makedirs_exist_ok plots_dir ;;
  t ← now;
  let timestamp := strftime_stamp t in
  let base_name := plot_name +:+ "_" +:+ timestamp in
  for_each formats (fun fmt =>
    let filename := plot_filename base_name fmt in
    savefig fig filename (Some 300%nat) true (Some fmt) ;;
    print (Text ("💾 Saved PDF: " +:+ filename)) ;;
    loc ← abspath filename;
    print (Text ("📁 Location: " +:+ loc))) ;;
  mret base_name.

(** The default of the [formats] argument. *)
Definition default_formats : list string := ["pdf"].

(** ** The scripts, over the unknowns of the numeric and drawing
       libraries *)

Section Scripts.

(** The square root of a non-negative rational, as [np.sqrt] and
    [Series.std] use it. *)
Variable Qsqrt : Q -> Q.

(** Whether matplotlib draws an artist or rejects its data (a histogram
    over non-finite values, say). *)
Variable accepts : artist -> bool.

(** The number of bytes a file takes on disk, which for a rendered
    figure is up to the encoder; [None] stands for a directory. *)
Variable byte_size : option content -> N.

Definition fsqrt (x : float) : float :=
  match x with
  | Finite q => if Qis_neg q then NaN else Finite (Qsqrt q)
  | PosInf => PosInf
  | _ => NaN
  end.

(** [Series.var()] with [ddof=1], missing values skipped *)
Definition var (xs : Series) : float :=
  let obs := dropna xs in
  let n := length obs in
  if (n <=? 1)%nat then NaN
  else
    let avg := fdiv (fsum obs) (of_nat n) in
    fdiv (fsum (map (fun x => fmul (fsub avg x) (fsub avg x)) obs)) (of_nat (n - 1)).

(** [Series.std()] *)
Definition std (xs : Series) : float := fsqrt (var xs).

(** [returns.std() * np.sqrt(252)] *)
Definition annualized_volatility (returns : Series) : float :=
  fmul (std returns) (fsqrt (Finite 252)).

(** The entries of [Series.describe()] the script reads, with the count
    and the deviation; the quartiles are left out. *)
Record summary : Type := {
  s_count : nat;
  s_mean : float;
  s_std : float;
  s_min : float;
  s_max : float
}.

Definition describe (xs : Series) : summary :=
  {| s_count := count_defined xs;
     s_mean := mean xs;
     s_std := std xs;
     s_min := series_min xs;
     s_max := series_max xs |}.

(** [ax.plot], [ax.bar], [ax.hist], ... on axes [ax] of figure [fig] *)
Definition draw (fig ax : nat) (a : artist) : M unit :=
  if accepts a
  then update_axes fig ax (fun x =>
         {| ax_title := ax_title x; ax_artists := ax_artists x ++ [a] |})
  else raise ValueError.

(** [plt.show()]: displays, changes nothing that is modelled. *)
Definition show : M unit := mret tt.

Definition nl : string := String (ascii_of_nat 10) "".

(** *** [create_order_history_plots] *)

(** [df_orders['timestamp'] = pd.to_datetime(df_orders['timestamp_ns'], unit='ns')] *)
Definition assign_timestamp (df : DataFrame) : M DataFrame :=
  ts ← getitem df "timestamp_ns";
  dt ← to_datetime_ns ts;
  mret (df_set df "timestamp" dt).

Definition order_history_body (csv_file : string) : M (option nat) :=
  df_orders ← read_csv csv_file;
  print (Text ("✅ Loaded " +:+ pretty (df_len df_orders) +:+ " orders")) ;;
  df_orders ← assign_timestamp df_orders;
  fig ← new_figure 4;
  suptitle fig "Trading Order Analysis" ;;
  instrument_id ← getitem df_orders "instrument_id";
  let instrument_counts := sort_index (value_counts instrument_id) in
  draw fig 0 (Bar (map (fun kv => label_str (fst kv)) instrument_counts)
                  (map (fun kv => of_nat (snd kv)) instrument_counts) "") ;;
  set_title fig 0 "Orders per Instrument" ;;
  side ← getitem df_orders "side";
  let side_counts := value_counts side in
  draw fig 1 (Pie (map snd side_counts) (map fst side_counts)) ;;
  set_title fig 1 "Buy vs Sell Orders" ;;
  price ← getitem df_orders "price";
  draw fig 2 (Hist (labels_of price) 30) ;;
  set_title fig 2 "Order Price Distribution" ;;
  timestamp ← getitem df_orders "timestamp";
  floored ← dt_floor_seconds timestamp;
  let time_grouped := groupby_size floored in
  draw fig 3 (Plot (map (fun kv => Some (fst kv)) time_grouped)
                   (map (fun kv => Some (LInt (Z.of_nat (snd kv)))) time_grouped) "") ;;
  set_title fig 3 "Orders Over Time" ;;
  print (Text (nl +:+ "📈 Order Statistics:")) ;;
  print (Text ("Total Orders: " +:+ pretty (df_len df_orders))) ;;
  side ← getitem df_orders "side";
  print (Text ("Buy Orders: " +:+ pretty (count_equal_str side "BUY"))) ;;
  side ← getitem df_orders "side";
  print (Text ("Sell Orders: " +:+ pretty (count_equal_str side "SELL"))) ;;
  price ← getitem df_orders "price";
  prices ← numeric price;
  print (Stat "Average Price: ${:.2f}" [mean prices]) ;;
  print (Stat "Price Range: ${:.2f} - ${:.2f}" [series_min prices; series_max prices]) ;;
  mret (Some fig).

Definition create_order_history_plots (csv_file : string) : M (option nat) :=
  print (Text "📊 Loading order history...") ;;
  try_except (order_history_body csv_file) (fun e =>
    if is_FileNotFoundError e
    then print (Text ("❌ File " +:+ csv_file +:+
                      " not found. Run C++ program first to generate data.")) ;;
         mret None
    else print (Failure "❌ Error loading order history: " e) ;;
         mret None).

(** *** [create_price_analysis_plots] *)

(** [df_prices['MA5'] = df_prices['price'].rolling(window=5).mean()]
    [df_prices['MA10'] = df_prices['price'].rolling(window=10).mean()] *)
Definition assign_moving_averages (df : DataFrame) : M DataFrame :=
  price ← getitem df "price";
  xs ← numeric price;
  let df := df_set df "MA5" (NumCol (MA5 xs)) in
  price ← getitem df "price";
  xs ← numeric price;
  mret (df_set df "MA10" (NumCol (MA10 xs))).

(** The index labels that [dropna] keeps: the positions of the values
    that are not missing. *)
Definition dropna_index (xs : Series) : list (option label) :=
  omap (fun ix => if notna (snd ix) then Some (Some (LInt (Z.of_nat (fst ix)))) else None)
       (imap (fun i x => (i, x)) xs).

Definition price_analysis_body (csv_file : string) (instrument_id : Z) : M (option nat) :=
  df_prices ← read_csv csv_file;
  print (Text ("✅ Loaded " +:+ pretty (df_len df_prices) +:+ " price points")) ;;
  fig ← new_figure 4;
  suptitle fig ("Price Analysis - Instrument " +:+ pretty instrument_id) ;;
  timestamp_ns ← getitem df_prices "timestamp_ns";
  price ← getitem df_prices "price";
  draw fig 0 (Plot (labels_of timestamp_ns) (labels_of price) "") ;;
  set_title fig 0 "Price Movement" ;;
  price ← getitem df_prices "price";
  draw fig 1 (Hist (labels_of price) 20) ;;
  set_title fig 1 "Price Distribution" ;;
  df_prices ← assign_moving_averages df_prices;
  timestamp_ns ← getitem df_prices "timestamp_ns";
  price ← getitem df_prices "price";
  draw fig 2 (Plot (labels_of timestamp_ns) (labels_of price) "Price") ;;
  timestamp_ns ← getitem df_prices "timestamp_ns";
  ma5 ← getitem df_prices "MA5";
  draw fig 2 (Plot (labels_of timestamp_ns) (labels_of ma5) "5-Point MA") ;;
  timestamp_ns ← getitem df_prices "timestamp_ns";
  ma10 ← getitem df_prices "MA10";
  draw fig 2 (Plot (labels_of timestamp_ns) (labels_of ma10) "10-Point MA") ;;
  set_title fig 2 "Price with Moving Averages" ;;
  price ← getitem df_prices "price";
  xs ← numeric price;
  let returns := price_returns xs in
  draw fig 3 (Plot (dropna_index (pct_change xs)) (map float_label returns) "") ;;
  draw fig 3 (AxHLine (mean returns) "Mean: {:.4f}") ;;
  draw fig 3 (AxHLine (std returns) "Std Dev: {:.4f}") ;;
  draw fig 3 (AxHLine (fneg (std returns)) "") ;;
  set_title fig 3 "Price Returns (%)" ;;
  price ← getitem df_prices "price";
  xs ← numeric price;
  let price_stats := describe xs in
  let volatility := annualized_volatility returns in
  print (Text (nl +:+ "📊 Price Statistics for Instrument " +:+ pretty instrument_id +:+ ":")) ;;
  print (Text ("Total Price Points: " +:+ pretty (df_len df_prices))) ;;
  print (Stat "Average Price: ${:.2f}" [s_mean price_stats]) ;;
  print (Stat "Minimum Price: ${:.2f}" [s_min price_stats]) ;;
  print (Stat "Maximum Price: ${:.2f}" [s_max price_stats]) ;;
  print (Stat "Price Volatility: {:.2%} (annualized)" [volatility]) ;;
  print (Stat "Price Range: ${:.2f}" [fsub (s_max price_stats) (s_min price_stats)]) ;;
  mret (Some fig).

Definition create_price_analysis_plots (csv_file : string) (instrument_id : Z)
  : M (option nat) :=
  print (Text ("📈 Loading price data for instrument " +:+ pretty instrument_id +:+ "...")) ;;
  try_except (price_analysis_body csv_file instrument_id) (fun e =>
    if is_FileNotFoundError e
    then print (Text ("❌ File " +:+ csv_file +:+
                      " not found. Run C++ program first to generate data.")) ;;
         mret None
    else print (Failure "❌ Error loading price data: " e) ;;
         mret None).

(** *** [create_comprehensive_dashboard] *)

Definition dashboard_body : M (option nat) :=
  df_orders ← read_csv "order_history.csv";
  df_prices ← read_csv "price_data_instrument_0.csv";
  fig ← new_figure 0;
  ax1 ← add_axes fig;
  side ← getitem df_orders "side";
  let side_counts := value_counts side in
  draw fig ax1 (Pie (map snd side_counts) (map fst side_counts)) ;;
  set_title fig ax1 "Order Side Distribution" ;;
  ax2 ← add_axes fig;
  timestamp_ns ← getitem df_prices "timestamp_ns";
  price ← getitem df_prices "price";
  draw fig ax2 (Plot (labels_of timestamp_ns) (labels_of price) "") ;;
  set_title fig ax2 "Price Movement - Instrument 0" ;;
  ax3 ← add_axes fig;
  instrument_id ← getitem df_orders "instrument_id";
  let instrument_counts := sort_index (value_counts instrument_id) in
  draw fig ax3 (Bar (map (fun kv => label_str (fst kv)) instrument_counts)
                    (map (fun kv => of_nat (snd kv)) instrument_counts) "") ;;
  set_title fig ax3 "Orders per Instrument" ;;
  ax4 ← add_axes fig;
  order_price ← getitem df_orders "price";
  draw fig ax4 (Hist (labels_of order_price) 25) ;;
  set_title fig ax4 "Order Price Distribution" ;;
  ax5 ← add_axes fig;
  price ← getitem df_prices "price";
  xs ← numeric price;
  let returns := price_returns xs in
  draw fig ax5 (Hist (map float_label returns) 20) ;;
  set_title fig ax5 "Price Returns Distribution" ;;
  ax6 ← add_axes fig;
  draw fig ax6 (AxText ("Correlation Analysis Area" +:+ nl +:+
                        "(Expand with more instruments)")) ;;
  set_title fig ax6 "Market Correlation Analysis" ;;
  mret (Some fig).

Definition create_comprehensive_dashboard : M (option nat) :=
  try_except dashboard_body (fun e =>
    if is_FileNotFoundError e
    then print (Text "❌ Required CSV files not found. Run C++ program first.") ;;
         mret None
    else print (Failure "❌ Error creating dashboard: " e) ;;
         mret None).

(** *** [main]: the menu *)

(** [if fig: save_plot(fig, name); plt.show()] *)
Definition save_and_show (fig : option nat) (plot_name : string) : M unit :=
  match fig with
  | Some f => save_plot f plot_name default_formats ;; show
  | None => mret tt
  end.

(** The names in directory [d]. *)
Definition listdir (d : string) : M (list string) := fun w =>
  if decide (is_Some (files w !! d)) then (Raise NotADirectoryError, w)
  else if decide (d = "" \/ d ∈ dirs w)
  then (Ok (omap (fun p => if decide (parent_dir p = d)
                           then Some (text (rev (rev_basename p))) else None)
                 (map fst (map_to_list (files w)) ++ elements (dirs w))), w)
  else (Raise FileNotFoundError, w).

Definition ends_with_pdf (name : string) : bool :=
  bool_decide (take 4 (rev (chars name)) = rev (chars ".pdf")).

(** [os.path.getsize(p)] *)
Definition getsize (p : string) : M N := fun w =>
  if decide (p ∈ dirs w) then (Ok (byte_size None), w)
  else match files w !! p with
       | Some c => (Ok (byte_size (Some c)), w)
       | None => (Raise FileNotFoundError, w)
       end.

(** Reads and prints only.  The script is taken to lie in the working
    directory. *)
Definition debug_file_locations : M unit :=
  print (Text (nl +:+ "🔍 Debug File Locations:")) ;;
  here ← getcwd;
  print (Text ("Current working directory: " +:+ here)) ;;
  print (Text ("Script directory: " +:+ here)) ;;
  there ← path_exists plots_dir;
  if (there : bool)
  then loc ← abspath plots_dir;
       print (Text ("📁 Plots directory exists: " +:+ loc)) ;;
       names ← listdir plots_dir;
       let pdf_files := List.filter ends_with_pdf names in
       match pdf_files with
       | [] => print (Text "❌ No PDF files in plots directory")
       | _ => print (Text "📄 PDF files found:") ;;
              for_each pdf_files (fun pdf =>
                let full_path := path_join plots_dir pdf in
                size ← getsize full_path;
                print (Text ("   - " +:+ pdf +:+ " (" +:+ pretty size +:+ " bytes)")))
       end
  else print (Text "❌ Plots directory does not exist yet").

(** Opening the folder in the file manager is left to the operating
    system; the script only prints. *)
Definition open_plots_folder : M unit :=
  plots_path ← abspath plots_dir;
  print (Text ("📂 Opened folder: " +:+ plots_path)).

(** One branch of the menu; [true] when the loop is left. *)
Definition handle_choice (choice : string) : M bool :=
  if decide (choice = "1") then
    fig ← create_order_history_plots "order_history.csv";
    save_and_show fig "order_history_analysis" ;;
    mret false
  else if decide (choice = "2") then
    fig ← create_price_analysis_plots "price_data_instrument_0.csv" 0;
    save_and_show fig "price_analysis_instrument_0" ;;
    mret false
  else if decide (choice = "3") then
    fig ← create_comprehensive_dashboard;
    save_and_show fig "trading_dashboard" ;;
    mret false
  else if decide (choice = "4") then
    debug_file_locations ;; mret false
  else if decide (choice = "5") then
    open_plots_folder ;; mret false
  else if decide (choice = "6") then
    print (Text "👋 Goodbye!") ;; mret true
  else
    print (Text "❌ Invalid choice. Please try again.") ;; mret false.

Definition menu_lines : list string :=
  [nl +:+ "📋 Menu Options:";
   "1. Visualize Order History (with save)";
   "2. Visualize Price Data (Instrument 0, with save)";
   "3. Comprehensive Dashboard (with save)";
   "4. Debug file locations";
   "5. Open PDFs folder";
   "6. Exit"].

(** One turn of [while True]; [true] on [break]. *)
Definition menu_turn : M bool :=
  for_each menu_lines (fun l => print (Text l)) ;;
  print (Text (nl +:+ "Enter your choice (1-6): ")) ;;
  answer ← input;
  stop ← handle_choice (strip answer);
  if (stop : bool) then mret true
  else print (Text (nl +:+ "Press Enter to continue...")) ;;
       input ;;
       mret false.

Fixpoint menu_loop (fuel : nat) : M unit :=
  match fuel with
  | O => mret tt
  | S fuel' => stop ← menu_turn; if (stop : bool) then mret tt else menu_loop fuel'
  end.

(** The lines of standard input that are still unread. *)
Definition pending_input : M nat := fun w => (Ok (length (stdin w)), w).

(** Every turn that does not leave the loop reads from standard input,
    so one more turn than there are lines of input is enough. *)
Definition main : M unit :=
  here ← getcwd;
  print (Text ("Current working directory: " +:+ here)) ;;
  names ← listdir "";
  print (Text ("Files in directory: [" +:+
               String.concat ", " (map (fun n => "'" +:+ n +:+ "'") names) +:+ "]")) ;;
  print (Text "🎯 Trading Data Visualization Tool") ;;
  print (Text "==================================================") ;;
  makedirs_exist_ok plots_dir ;;
  loc ← abspath plots_dir;
  print (Text ("📁 PDFs will be saved in: " +:+ loc)) ;;
  n ← pending_input;
  menu_loop (S n).

(** *** [create_chart] *)

(** How [groupby] reads a list of keys that is as long as the frame
    has rows: as column names when every key is one, and otherwise as
    one array holding a label for each row. *)
Definition keys_are_row_labels (df : DataFrame) (keys : list string) : bool :=
  bool_decide (length keys = df_len df) &&
  negb (forallb (fun k => bool_decide (is_Some (df_get df k))) keys).

(** [df.groupby(['pattern', 'impl'])['ops_per_sec'].median().unstack()]
    followed by [.reindex(['homogeneous', 'bursty', 'mixed_random'])].
    With the keys read as row labels the medians have a one-level
    index, which [unstack] rejects. *)
Definition median_throughput (df : DataFrame) : M Table :=
  if keys_are_row_labels df ["pattern"; "impl"]
  then ops_per_sec ← getitem df "ops_per_sec";
       numeric ops_per_sec ;;
       raise ValueError
  else
    pattern ← getitem df "pattern";
    impl ← getitem df "impl";
    ops_per_sec ← getitem df "ops_per_sec";
    vals ← numeric ops_per_sec;
    let keys := key_pairs (labels_of pattern) (labels_of impl) in
    mret (reindex pattern_order (unstack (groupby_median keys vals))).

Definition fillna0 (xs : Series) : Series :=
  map (fun x => if isna x then Finite 0 else x) xs.

(** The values of column [j] of a table. *)
Definition table_column (t : Table) (j : nat) : Series :=
  map (fun row => nth j row NaN) (t_data t).

(** [table.plot(kind='bar', color={'virtual': ..., 'non-virtual': ...})]:
    a new figure with one group of bars per column, a missing cell
    drawn with height zero.  A table without columns has nothing to
    plot, and every column needs its colour in the dictionary.  The
    legend, the axis formatter and the layout are not recorded. *)
Definition plot_bar (t : Table) : M nat :=
  match t_columns t with
  | [] => raise TypeError
  | _ =>
      fig ← new_figure 1;
      for_each (imap (fun j c => (j, c)) (t_columns t)) (fun jc =>
        match snd jc with
        | LStr name =>
            if decide (name = "virtual" \/ name = "non-virtual")
            then draw fig 0 (Bar (t_index t) (fillna0 (table_column t (fst jc))) name)
            else raise (KeyError (LStr name))
        | other => raise (KeyError other)
        end) ;;
      mret fig
  end.

Definition caption : string :=
  "Chart shows the median throughput of 10 runs per configuration (N=2,000,000 orders)."
  +:+ nl +:+
  "Non-virtual dispatch consistently outperforms virtual dispatch, with the largest gap"
  +:+ nl +:+
  "in the predictable 'homogeneous' pattern due to inlining and branch prediction.".

Definition create_chart (csv_file output_image : string) : M unit :=
  loaded ← try_except (df ← read_csv csv_file; mret (Some df)) (fun e =>
    if is_FileNotFoundError e
    then print (Text ("Error: The file '" +:+ csv_file +:+ "' was not found.")) ;;
         mret None
    else raise e);
  match loaded with
  | None => mret tt
  | Some df =>
      table ← median_throughput df;
      fig ← plot_bar table;
      set_title fig 0 "HFT Order Processing: Virtual vs. Non-Virtual Dispatch Throughput" ;;
      figtext fig caption ;;
      savefig fig output_image None false None ;;
      print (Text ("Chart saved to '" +:+ output_image +:+ "'"))
  end.

(** [create_chart()] with its default arguments *)
Definition create_chart_default : M unit :=
  create_chart "results.csv" "throughput_chart.png".

End Scripts.

(** ** The benchmark script as a program *)

(** ["-" * 50] *)
Definition rule : string := text (replicate 50 "-"%char).

(** The diagnostic lines at the top of
    [benchmark_virtual_nonvirtual_order_visualization.py], run when the
    module is loaded. *)
Definition diagnostics : M unit :=
  print (Text rule) ;;
  here ← getcwd;
  print (Text ("🐍 Python's Current Working Directory is: " +:+ here)) ;;
  print (Text (nl +:+ "Files I can see in this directory:")) ;;
  try_except
    (names ← listdir "";
     for_each names (fun f => print (Text ("  - " +:+ f))))
    (fun e =>
       if is_FileNotFoundError e
       then print (Text "  [Could not list files, directory may not exist]")
       else raise e) ;;
  print (Text rule).

(** The script run as a program: the diagnostics, then
    [create_chart()]. *)
Definition benchmark_script (accepts : artist -> bool) : M unit :=
  diagnostics ;; create_chart_default accepts.

(** * Vocabulary of the properties *)

(** A row of the throughput results file. *)
Record BenchmarkRecord : Type := {
  pattern : string;
  impl : string;
  ops_per_sec : float
}.

(** The values of one (pattern, impl) group. *)
Definition group_ops (p i : string) (recs : list BenchmarkRecord) : Series :=
  map ops_per_sec
      (List.filter (fun r => bool_decide (pattern r = p /\ impl r = i)) recs).

(** The values of a column of numbers, floats or integers. *)
Definition column_values (c : column) : option Series :=
  match c with
  | NumCol xs => Some xs
  | IntCol zs => Some (map (fun z => Finite (inject_Z z)) zs)
  | _ => None
  end.

(** A frame holds the records when its three columns do, in any column
    order and next to any other column; the throughputs are a column
    of floats or, when every one of them is integral, of integers. *)
Definition holds_records (df : DataFrame) (recs : list BenchmarkRecord) : Prop :=
  df_get df "pattern" = Some (StrCol (map pattern recs)) /\
  df_get df "impl" = Some (StrCol (map impl recs)) /\
  exists c, df_get df "ops_per_sec" = Some c /\
            column_values c = Some (map ops_per_sec recs).

(** The group key of a record. *)
Definition record_key (r : BenchmarkRecord) : label * label :=
  (LStr (pattern r), LStr (impl r)).

(** ** Numbers in a series *)

(** A float that is a number: not missing, not infinite. *)
Definition is_finite (x : float) : bool :=
  match x with Finite _ => true | _ => false end.

(** The number zero. *)
Definition is_zero (x : float) : bool :=
  match x with Finite q => Qis_zero q | _ => false end.






(** No two consecutive prices are both zero. *)
Definition no_zero_pair (xs : Series) : Prop :=
  forall i a b, xs !! i = Some a -> xs !! S i = Some b ->
    ~ (is_zero a = true /\ is_zero b = true).

(** ** The median, as a property *)

(** The order of the numbers and the infinities. *)
Definition float_le (x y : float) : Prop :=
  match x, y with
  | NaN, _ | _, NaN => False
  | NegInf, _ | _, PosInf => True
  | Finite a, Finite b => (a <= b)%Q
  | _, _ => False
  end.

(** [m] is the median of the values of [xs] that are not missing: with
    these put in ascending order, the middle one when their number is
    odd, half the sum of the two middle ones when it is even, and the
    no-data marker when there is none. *)
Definition is_median (m : float) (xs : Series) : Prop :=
  exists ascending,
    ascending ≡ₚ filter (fun x => x <> NaN) xs /\
    StronglySorted float_le ascending /\
    let n := length ascending in
    if (n =? 0)%nat then m = NaN
    else if Nat.odd n then ascending !! (n / 2)%nat = Some m
    else exists a b, ascending !! (n / 2 - 1)%nat = Some a /\
                     ascending !! (n / 2)%nat = Some b /\
                     m = fdiv (fadd a b) (Finite 2).

(** ** The sample deviation, as a property *)







(** A path that [read_csv] can load: a regular file that parses. *)
Definition loadable (w : world) (path : string) : Prop :=
  (path ∉ dirs w) /\ (exists df, files w !! path = Some (Csv df)).

(** What a failed report leaves behind: the same files, directories
    and figures, and at least one more line of output. *)
Definition reported (w w' : world) : Prop :=
  files w' = files w /\ dirs w' = dirs w /\ figures w' = figures w /\
  exists lines, lines <> [] /\ stdout w' = stdout w ++ lines.

(** A computation that creates, changes or removes no file and no
    directory, whether it returns or raises. *)
Definition keeps_files {A} (m : M A) : Prop :=
  forall w, files (m w).2 = files w /\ dirs (m w).2 = dirs w.

(** A computation that always returns. *)
Definition never_raises {A} (m : M A) : Prop :=
  forall w, exists a, (m w).1 = Ok a.

(** A file can be opened for writing when its directory is there and
    its name is not taken by a directory. *)
Definition can_write (ds : gset string) (path : string) : Prop :=
  (parent_dir path = "" \/ parent_dir path ∈ ds) /\ path ∉ ds.

(** A format that [save_plot] can write for the base name [base]. *)
Definition format_ok (w : world) (base fmt : string) : Prop :=
  lower fmt ∈ supported_formats /\
  can_write ({[plots_dir]} ∪ dirs w) (plot_filename base fmt).

(** What [save_plot] stores for a format. *)
Definition rendered (g : figure) (fmt : string) : content :=
  Image g (lower fmt) (Some 300%nat) true.

(** The files after the formats have been written one after another. *)
Fixpoint write_all (g : figure) (base : string) (fmts : list string)
    (fs : gmap string content) : gmap string content :=
  match fmts with
  | [] => fs
  | fmt :: rest => write_all g base rest (<[plot_filename base fmt := rendered g fmt]> fs)
  end.

(** The body of the loop of [save_plot]. *)
Definition save_one (fig : nat) (base_name fmt : string) : M unit :=
  let filename := plot_filename base_name fmt in
  savefig fig filename (Some 300%nat) true (Some fmt) ;;
  print (Text ("💾 Saved PDF: " +:+ filename)) ;;
  loc ← abspath filename;
  print (Text ("📁 Location: " +:+ loc)).

(** The number a string of decimal digits denotes. *)
Definition decimal_value (s : string) : Z :=
  foldl (fun acc c => (10 * acc + (Z.of_nat (nat_of_ascii c) - 48))%Z) 0%Z (chars s).

(** ** Vocabulary of the further properties *)


(** A float with its rational in lowest terms: two floats are equal up
    to representation exactly when their normal forms coincide. *)
Definition canon (x : float) : float :=
  match x with
  | Finite q => Finite (Qred q)
  | _ => x
  end.

(** A table of counts that accounts for every label of [ls] exactly
    once: one row per distinct label, holding its number of
    occurrences. *)
Definition counts_rows (ls : list label) (vc : list (label * nat)) : Prop :=
  NoDup (map fst vc) /\
  (forall k, k ∈ map fst vc <-> k ∈ ls) /\
  (forall k n, (k, n) ∈ vc -> n = count_label k ls /\ (1 <= n)%nat) /\
  sum_list (map snd vc) = length ls.

(** ** Frames: what a computation leaves as it is

    [preserves R m]: whatever [m] returns or raises, the world it
    leaves is related by [R] to the world it started in. *)
Definition preserves (R : relation world) {A} (m : M A) : Prop :=
  forall w, R w (m w).2.

(** The worlds that agree on one observation. *)
Definition same {X} (proj : world -> X) : relation world :=
  fun w w' => proj w' = proj w.

(** A computation that leaves the whole world as it is. *)
Definition pure_step {A} (m : M A) : Prop := forall w, (m w).2 = w.

(** Relations that do not look at the figures or at the input. *)
Definition ignores_figures (R : relation world) : Prop :=
  forall f w, R w (set_figures f w).

Definition ignores_stdin (R : relation world) : Prop :=
  forall f w, R w (set_stdin f w).

(** The disk: files and directories. *)
Definition disk (w : world) : gmap string content * gset string := (files w, dirs w).

Definition goodbye : line := Text "👋 Goodbye!".

(** Between two worlds only files whose path satisfies [P] were
    written, no file was removed, and only directories of [D] were
    created. *)
Definition writes_within (P : string -> Prop) (D : gset string) : relation world :=
  fun w w' =>
    (forall p, ~ P p -> files w' !! p = files w !! p) /\
    (forall p, is_Some (files w !! p) -> is_Some (files w' !! p)) /\
    (dirs w ⊆ dirs w') /\ (dirs w' ⊆ D ∪ dirs w).

(** The paths directly inside the plots directory. *)
Definition in_plots (p : string) : Prop := parent_dir p = plots_dir.

(** [yields P m]: whenever [m] returns, the value satisfies [P]. *)
Definition yields {A} (P : A -> Prop) (m : M A) : Prop :=
  forall w a w', m w = (Ok a, w') -> P a.

(** The registry below position [n], and its size. *)
Definition registry_below (n : nat) (w : world) : list figure * nat :=
  (take n (figures w), length (figures w)).

(** What a report does to pyplot's registry [fs0]: the figures that
    were open stay as they are, at most one figure is added, and a
    report that returns has added one and returns its position. *)
Definition opens_figure (fs0 : list figure) (r : outcome (option nat) * world) : Prop :=
  take (length fs0) (figures r.2) = fs0 /\
  (length (figures r.2) <= S (length fs0))%nat /\
  (forall x, r.1 = Ok x -> x = Some (length fs0) /\ length (figures r.2) = S (length fs0)).

(** The outcome of a report that announces a failure with [message]. *)
Definition report_outcome (message : exn -> line) (w : world)
    (r : outcome (option nat) * world) : Prop :=
  take (length (figures w)) (figures r.2) = figures w /\
  match r.1 with
  | Ok (Some fig) => fig = length (figures w) /\ length (figures r.2) = S fig
  | Ok None => (exists e, last (stdout r.2) = Some (message e)) /\
               (length (figures r.2) <= S (length (figures w)))%nat
  | Raise _ => False
  end.

(** The messages of the three reports. *)
Definition order_history_message (csv_file : string) (e : exn) : line :=
  if is_FileNotFoundError e
  then Text ("❌ File " +:+ csv_file +:+ " not found. Run C++ program first to generate data.")
  else Failure "❌ Error loading order history: " e.

Definition price_analysis_message (csv_file : string) (e : exn) : line :=
  if is_FileNotFoundError e
  then Text ("❌ File " +:+ csv_file +:+ " not found. Run C++ program first to generate data.")
  else Failure "❌ Error loading price data: " e.

Definition dashboard_message (e : exn) : line :=
  if is_FileNotFoundError e
  then Text "❌ Required CSV files not found. Run C++ program first."
  else Failure "❌ Error creating dashboard: " e.

(** The choices of the menu that build a report: the choice, the
    report, and the name its figure is saved under. *)
Definition menu_reports (Qsqrt : Q -> Q) (accepts : artist -> bool)
  : list (string * M (option nat) * string) :=
  [("1", create_order_history_plots accepts "order_history.csv", "order_history_analysis");
   ("2", create_price_analysis_plots Qsqrt accepts "price_data_instrument_0.csv" 0,
    "price_analysis_instrument_0");
   ("3", create_comprehensive_dashboard accepts, "trading_dashboard")].

(** Output is only ever added at the end. *)
Definition appends_output : relation world :=
  fun w w' => stdout w `prefix_of` stdout w'.

(** The size [os.path.getsize] reports for a path that is there. *)
Definition stored_size (byte_size : option content -> N) (w : world) (p : string) : N :=
  if decide (p ∈ dirs w) then byte_size None else byte_size (files w !! p).

(** The line of the debug listing for a name in the plots directory. *)
Definition listing_line (byte_size : option content -> N) (w : world) (name : string) : line :=
  Text ("   - " +:+ name +:+ " ("
        +:+ pretty (stored_size byte_size w (path_join plots_dir name)) +:+ " bytes)").

(** The height of a bar: a missing value is drawn as zero. *)
Definition bar_height (x : float) : float := if isna x then Finite 0 else x.

(** The patterns on the x axis of the throughput chart. *)
Definition chart_patterns : list string := ["homogeneous"; "bursty"; "mixed_random"].

(** The chart [create_chart] composes when the implementations, in
    column order, are [impls] and the median of the group of pattern
    [p] and implementation [i] is [med p i]: one axes with the title,
    one series of three bars per implementation, and the caption. *)
Definition throughput_chart (med : string -> string -> float) (impls : list string)
  : figure :=
  {| fig_suptitle := "";
     fig_axes :=
       [ {| ax_title := "HFT Order Processing: Virtual vs. Non-Virtual Dispatch Throughput";
            ax_artists :=
              map (fun i => Bar pattern_order
                                (map (fun p => bar_height (med p i)) chart_patterns)
                                i)
                  impls |} ];
     fig_texts := [caption] |}.

(** A figure with one axes. *)
Definition single_axes (title : string) (arts : list artist) (texts : list string) : figure :=
  {| fig_suptitle := "";
     fig_axes := [ {| ax_title := title; ax_artists := arts |} ];
     fig_texts := texts |}.

(** ** Sample inputs *)

(** Thursday 7 March 2024, 09:05:00. *)
Definition sample_clock : datetime :=
  {| year := 2024; month := 3; day := 7; hour := 9; minute := 5; second := 0 |}.

(** A world with the given files and open figures, no directory and
    nothing printed yet. *)
Definition world_of (fs : list (string * content)) (figs : list figure) : world :=
  {| files := list_to_map fs; dirs := ∅; cwd := "/home/user"; clock := sample_clock;
     figures := figs; stdout := []; stdin := [] |}.

(** The frame [read_csv] gives for a throughput file with these rows. *)
Definition throughput_frame (recs : list BenchmarkRecord) : DataFrame :=
  [("pattern", StrCol (map pattern recs));
   ("impl", StrCol (map impl recs));
   ("ops_per_sec", NumCol (map ops_per_sec recs))].

Definition sample_records : list BenchmarkRecord :=
  [ {| pattern := "bursty"; impl := "virtual"; ops_per_sec := Finite 3 |};
    {| pattern := "bursty"; impl := "virtual"; ops_per_sec := Finite 5 |};
    {| pattern := "homogeneous"; impl := "non-virtual"; ops_per_sec := Finite 7 |};
    {| pattern := "bursty"; impl := "non-virtual"; ops_per_sec := Finite 1 |} ].

Definition sample_prices : DataFrame :=
  [("timestamp_ns", IntCol [1000; 2000; 3000]%Z);
   ("price", NumCol [Finite 100; Finite 110; Finite 99])].

(** A throughput file without the [impl] column. *)
Definition frame_without_impl : DataFrame :=
  [("pattern", StrCol ["bursty"; "homogeneous"; "bursty"]);
   ("ops_per_sec", NumCol [Finite 3; Finite 7; Finite 5])].

(** The same with two rows, as many as [groupby] is given keys. *)
Definition short_frame_without_impl : DataFrame :=
  [("pattern", StrCol ["bursty"; "homogeneous"]);
   ("ops_per_sec", NumCol [Finite 3; Finite 7])].

(** An order history file without the [side] column. *)
Definition orders_without_side : DataFrame :=
  [("timestamp_ns", IntCol [1000; 2000]%Z);
   ("instrument_id", IntCol [0; 1]%Z);
   ("price", NumCol [Finite 100; Finite 101])].

(** A square root of a fraction [n/d], rounded down to a multiple of
    [1 / (d * 2^60)]. *)
Definition sample_sqrt (q : Q) : Q :=
  Z.sqrt (Qnum q * Z.pos (Qden q) * 4 ^ 60) # (Qden q * 2 ^ 60).

(** A disk on which a rendered figure takes 5027 bytes, any other file
    120 and a directory 4096. *)
Definition sample_size (c : option content) : N :=
  match c with
  | Some (Image _ _ _ _) => 5027
  | Some _ => 120
  | None => 4096
  end%N.

(** A drawing library that rejects nothing. *)
Definition draws_all (a : artist) : bool := true.

(** * Properties *)

(** ** Floats and series of numbers *)













Lemma lookup_map {A B} (f : A -> B) (l : list A) (i : nat) :
  map f l !! i = f <$> l !! i.
Proof. revert i. induction l as [|x l IH]; intros [|i]; simpl; auto. Qed.



Lemma filter_none {A} (p : A -> bool) (l : list A) :
  (forall x, In x l -> p x = false) -> List.filter p l = [].
Proof.
  induction l as [|x l IH]; simpl; intros H; [done|].
  rewrite (H x) by auto. apply IH. auto.
Qed.




Lemma finite_series (xs : Series) :
  forallb is_finite xs = true -> exists qs, xs = map Finite qs.
Proof.
  induction xs as [|x xs IH]; intros H; [by exists []|].
  simpl in H. apply andb_true_iff in H as [Hx Hxs].
  destruct (IH Hxs) as [qs ->]. destruct x as [q| | |]; try done. by exists (q :: qs).
Qed.






Example MA5_of_twelve_points :
  MA5 (map (fun z => Finite (inject_Z z)) [1; 2; 3; 4; 5; 6; 7; 8; 9; 10; 11; 12]%Z)
  = [NaN; NaN; NaN; NaN; Finite (15 # 5); Finite (20 # 5); Finite (25 # 5);
     Finite (30 # 5); Finite (35 # 5); Finite (40 # 5); Finite (45 # 5);
     Finite (50 # 5)].
Proof. reflexivity. Qed.

Example MA5_with_a_missing_and_an_infinite_price :
  MA5 [Finite 1; Finite 2; Finite 3; Finite 4; Finite 5; Finite 6; NaN;
       Finite 8; Finite 9; Finite 10; Finite 11; Finite 12; PosInf]
  = [NaN; NaN; NaN; NaN; Finite (15 # 5); Finite (20 # 5); NaN; NaN; NaN; NaN;
     NaN; Finite (50 # 5); NaN].
Proof. reflexivity. Qed.

(** ** Period returns *)

Lemma ffill_from_finite (last : float) (qs : list Q) :
  ffill_from last (map Finite qs) = map Finite qs.
Proof.
  revert last. induction qs as [|q qs IH]; intros last; [done|].
  cbn [map ffill_from isna]. by rewrite IH.
Qed.

Lemma ffill_finite (qs : list Q) : ffill (map Finite qs) = map Finite qs.
Proof. apply ffill_from_finite. Qed.

Lemma ffill_from_length (last : float) (xs : Series) :
  length (ffill_from last xs) = length xs.
Proof.
  revert last. induction xs as [|x xs IH]; intros last; [done|].
  cbn [ffill_from]. destruct (isna x); cbn [length]; by rewrite IH.
Qed.

Lemma pct_change_lagged (xs : Series) :
  pct_change xs = zip_with pct (ffill xs) (NaN :: removelast (ffill xs)).
Proof. unfold pct_change, shift1. by destruct (ffill xs). Qed.

Lemma lagged_cons (x prev : float) (l : Series) :
  zip_with pct (x :: l) (prev :: removelast (x :: l))
  = pct x prev :: zip_with pct l (x :: removelast l).
Proof. destruct l; done. Qed.

(** One period return is missing only when both prices are zero. *)
Lemma pct_defined (a b : Q) :
  ~ (Qis_zero a = true /\ Qis_zero b = true) ->
  notna (pct (Finite b) (Finite a)) = true.
Proof.
  intros Hab. unfold pct, fsub, fdiv, fneg, fadd.
  destruct (Qis_zero a) eqn:Ha; [|done].
  destruct (Qis_zero b) eqn:Hb; [tauto|].
  by destruct (Qis_neg b).
Qed.

Lemma lagged_finite (a : Q) (qs : list Q) :
  no_zero_pair (map Finite (a :: qs)) ->
  dropna (zip_with pct (map Finite qs) (Finite a :: removelast (map Finite qs)))
  = zip_with pct (map Finite qs) (map Finite (a :: removelast qs)).
Proof.
  revert a. induction qs as [|b qs IH]; intros a Hnz; [done|].
  change (map Finite (b :: qs)) with (Finite b :: map Finite qs).
  rewrite lagged_cons. simpl dropna.
  rewrite pct_defined by (by apply (Hnz 0%nat (Finite a) (Finite b))).
  rewrite IH; [by destruct qs|].
  intros i x y Hx Hy. by apply (Hnz (S i)).
Qed.

Lemma price_returns_finite (a : Q) (qs : list Q) :
  no_zero_pair (map Finite (a :: qs)) ->
  price_returns (map Finite (a :: qs))
  = zip_with pct (map Finite qs) (map Finite (a :: removelast qs)).
Proof.
  intros Hnz. unfold price_returns. rewrite pct_change_lagged, ffill_finite.
  change (map Finite (a :: qs)) with (Finite a :: map Finite qs).
  rewrite lagged_cons. simpl dropna. by apply lagged_finite.
Qed.

Lemma lagged_lookup (a : Q) (qs : list Q) (i : nat) (x y : Q) :
  (a :: qs) !! i = Some x -> (a :: qs) !! S i = Some y ->
  zip_with pct (map Finite qs) (map Finite (a :: removelast qs)) !! i
  = Some (pct (Finite y) (Finite x)).
Proof.
  revert a i. induction qs as [|b qs IH]; intros a i Hx Hy; [by destruct i|].
  destruct i as [|i]; simpl in *.
  - by simplify_eq.
  - destruct qs as [|c qs]; [by destruct i|].
    apply (IH b i); done.
Qed.

Lemma removelast_length {A} (l : list A) :
  length (removelast l) = (length l - 1)%nat.
Proof.
  induction l as [|x l IH]; [done|].
  destruct l; [done|]. simpl in *. rewrite IH. lia.
Qed.

(** C2, as the code has it.  For a price sequence of length [n] whose
    prices are all numbers and in which no two consecutive prices are
    both zero, the period returns have length [n - 1] and element [i]
    is [price[i+1] / price[i] - 1], the quotient taken first (an
    infinity when [price[i]] is zero); the first price has no return
    and is dropped. *)
Theorem period_returns_spec (xs : Series) :
  forallb is_finite xs = true ->
  no_zero_pair xs ->
  length (price_returns xs) = (length xs - 1)%nat /\
  (forall i a b, xs !! i = Some a -> xs !! S i = Some b ->
     price_returns xs !! i = Some (fsub (fdiv b a) (Finite 1))).
Proof.
  intros [qs ->]%finite_series Hnz.
  destruct qs as [|a qs]; [split; [done | by intros []]|].
  rewrite price_returns_finite by done. split.
  - rewrite length_zip_with, !length_map. simpl.
    rewrite removelast_length. lia.
  - intros i x y Hx Hy. rewrite lookup_map in Hx, Hy.
    destruct ((a :: qs) !! i) as [p|] eqn:Hp; [|done].
    destruct ((a :: qs) !! S i) as [q|] eqn:Hq; [|done].
    injection Hx as <-. injection Hy as <-.
    by rewrite (lagged_lookup a qs i p q).
Qed.

Lemma period_returns_spec_witness :
  let xs := [Finite 100; Finite 110; Finite 99] in
  length (price_returns xs) = 2%nat /\
  price_returns xs !! 0%nat = Some (fsub (fdiv (Finite 110) (Finite 100)) (Finite 1)).
Proof.
  intros xs.
  assert (Hnz : no_zero_pair xs).
  { intros [|[|[|i]]] a b Ha Hb [Hza Hzb]; simpl in Ha, Hb; simplify_eq;
      vm_compute in Hza; discriminate Hza. }
  destruct (period_returns_spec xs eq_refl Hnz) as [Hlen Hat].
  split; [exact Hlen | apply (Hat 0%nat); reflexivity].
Defined.

(** C2, as stated, fails: two consecutive zero prices give a missing
    return, which [dropna] removes together with the first one. *)
Lemma period_returns_zero_prices :
  ~ (forall ps : list Q, (1 <= length ps)%nat ->
       length (price_returns (map Finite ps)) = (length ps - 1)%nat).
Proof. intros H. specialize (H [0; 0]%Q ltac:(simpl; lia)). discriminate H. Qed.

Example returns_of_three_prices :
  price_returns (map Finite [100; 110; 99]%Q)
  = [Finite (110 / 100 + - (1)); Finite (99 / 110 + - (1))].
Proof. reflexivity. Qed.

(** A zero price followed by a zero price gives no return at all; a
    zero price followed by another price gives an infinite one, which
    [dropna] keeps. *)
Example returns_after_zero_prices :
  price_returns (map Finite [0; 0; 1; 2]%Q) = [PosInf; Finite (2 / 1 + - (1))].
Proof. reflexivity. Qed.

(** A price that is missing at the start gives one return less; a
    price that is missing further on is filled with the price before
    it, and infinite prices next to each other give no return. *)
Example returns_of_missing_and_infinite_prices :
  length (price_returns [NaN; Finite 1; Finite 2]) = 1%nat /\
  length (price_returns [Finite 1; NaN; Finite 2]) = 2%nat /\
  length (price_returns [PosInf; PosInf; Finite 1]) = 1%nat.
Proof. repeat split; reflexivity. Qed.

(** ** Sorting *)

Lemma insert_sorted_perm {A} (leb : A -> A -> bool) (x : A) (l : list A) :
  insert_sorted leb x l ≡ₚ x :: l.
Proof.
  induction l as [|y l IH]; simpl; [done|].
  destruct (leb x y); [done|]. rewrite IH. apply Permutation_swap.
Qed.

Lemma isort_perm {A} (leb : A -> A -> bool) (l : list A) : isort leb l ≡ₚ l.
Proof.
  induction l as [|x l IH]; simpl; [done|].
  rewrite insert_sorted_perm. by rewrite IH.
Qed.

Lemma isort_elem_of {A} (leb : A -> A -> bool) (l : list A) (x : A) :
  x ∈ isort leb l <-> x ∈ l.
Proof. by rewrite isort_perm. Qed.

Lemma sort_labels_elem_of (ls : list label) (x : label) :
  x ∈ sort_labels ls <-> x ∈ ls.
Proof. unfold sort_labels. by rewrite isort_elem_of, elem_of_remove_dups. Qed.

Lemma sort_labels_NoDup (ls : list label) : NoDup (sort_labels ls).
Proof. unfold sort_labels. rewrite isort_perm. apply NoDup_remove_dups. Qed.

(** Sorting with a comparison that is total and transitive on the
    values at hand. *)

Section SortFacts.
Context {A : Type} (leb : A -> A -> bool) (P : A -> Prop).
Hypothesis leb_total : forall x y, P x -> P y -> leb x y = false -> leb y x = true.
Hypothesis leb_trans :
  forall x y z, P x -> P y -> P z -> leb x y = true -> leb y z = true -> leb x z = true.

Lemma insert_sorted_sorted (x : A) (l : list A) :
  P x -> Forall P l ->
  StronglySorted (fun a b => leb a b = true) l ->
  StronglySorted (fun a b => leb a b = true) (insert_sorted leb x l).
Proof.
  intros Hx HP Hs. induction l as [|y l IH]; simpl.
  - repeat constructor.
  - apply Forall_cons in HP as [Hy HP].
    apply StronglySorted_inv in Hs as [Hs Hall].
    destruct (leb x y) eqn:Hxy.
    + constructor; [by constructor|]. constructor; [done|].
      apply Forall_forall. intros z Hz.
      apply (leb_trans x y z); try done.
      * eapply Forall_forall in HP; [exact HP | done].
      * eapply Forall_forall in Hall; [exact Hall | done].
    + constructor; [by apply IH|].
      rewrite insert_sorted_perm. constructor; [by apply leb_total | done].
Qed.

Lemma isort_sorted (l : list A) :
  Forall P l -> StronglySorted (fun a b => leb a b = true) (isort leb l).
Proof.
  induction 1 as [|x l Hx HP IH]; simpl; [constructor|].
  apply insert_sorted_sorted; [done | by rewrite isort_perm | done].
Qed.

End SortFacts.

Lemma isort_map {A B} (f : A -> B) (leb : A -> A -> bool) (leb' : B -> B -> bool)
    (l : list A) :
  (forall x y, leb' (f x) (f y) = leb x y) ->
  isort leb' (map f l) = map f (isort leb l).
Proof.
  intros Hf. induction l as [|x l IH]; simpl; [done|]. rewrite IH.
  generalize (isort leb l). intros s. induction s as [|y s IHs]; simpl; [done|].
  rewrite Hf. destruct (leb x y); simpl; [done | by rewrite IHs].
Qed.

Lemma Qle_bool_total (x y : Q) : Qle_bool x y = false -> Qle_bool y x = true.
Proof.
  intros H. apply Qle_bool_iff. destruct (Qlt_le_dec y x) as [Hlt|Hle].
  - by apply Qlt_le_weak.
  - apply Qle_bool_iff in Hle. congruence.
Qed.

Lemma Qle_bool_trans (x y z : Q) :
  Qle_bool x y = true -> Qle_bool y z = true -> Qle_bool x z = true.
Proof. rewrite !Qle_bool_iff. apply Qle_trans. Qed.

Lemma fleb_total (x y : float) :
  notna x = true -> notna y = true -> fleb x y = false -> fleb y x = true.
Proof.
  destruct x as [p| | |], y as [q| | |]; simpl; try done.
  intros _ _. apply Qle_bool_total.
Qed.

Lemma fleb_trans (x y z : float) :
  notna x = true -> notna y = true -> notna z = true ->
  fleb x y = true -> fleb y z = true -> fleb x z = true.
Proof.
  destruct x as [p| | |], y as [q| | |], z as [r| | |]; simpl; try done.
  intros _ _ _. apply Qle_bool_trans.
Qed.

Lemma dropna_observed (xs : Series) : Forall (fun x => notna x = true) (dropna xs).
Proof.
  apply Forall_forall. intros x Hx%list_elem_of_In. unfold dropna in Hx.
  by apply filter_In in Hx as [_ Hx].
Qed.

(** ** Association lists *)

Lemma assoc_zip_map {K V} `{EqDecision K} (f : K -> V) (l : list K) (k : K) :
  k ∈ l -> assoc k (zip l (map f l)) = Some (f k).
Proof.
  induction l as [|x l IH]; intros Hk; [by apply elem_of_nil in Hk|].
  simpl. destruct (decide (x = k)) as [->|Hne]; [done|].
  apply IH. apply elem_of_cons in Hk as [->|]; done.
Qed.

Lemma assoc_zip_None {K V} `{EqDecision K} (l : list K) (vs : list V) (k : K) :
  k ∉ l -> assoc k (zip l vs) = None.
Proof.
  revert vs. induction l as [|x l IH]; intros vs Hk; [done|].
  destruct vs as [|v vs]; [done|]. simpl.
  destruct (decide (x = k)) as [->|Hne].
  - exfalso. apply Hk. by left.
  - apply IH. intros H. apply Hk. by right.
Qed.

Lemma assoc_zip_replicate {K V} `{EqDecision K} (l : list K) (v : V) (k : K) :
  k ∈ l -> assoc k (zip l (replicate (length l) v)) = Some v.
Proof.
  induction l as [|x l IH]; intros Hk; [by apply elem_of_nil in Hk|].
  simpl. destruct (decide (x = k)) as [->|Hne]; [done|].
  apply IH. apply elem_of_cons in Hk as [->|]; done.
Qed.

Lemma assoc_graph {K V} `{EqDecision K} (g : K -> V) (l : list K) (k : K) :
  assoc k (map (fun x => (x, g x)) l) = if decide (k ∈ l) then Some (g k) else None.
Proof.
  induction l as [|x l IH]; simpl; [done|].
  destruct (decide (x = k)) as [->|Hne].
  - rewrite decide_True; [done | by left].
  - rewrite IH. destruct (decide (k ∈ l)) as [Hin|Hnin].
    + rewrite decide_True; [done | by right].
    + rewrite decide_False; [done|].
      intros [->|]%elem_of_cons; done.
Qed.

(** ** Grouped medians *)

(** Reading a cell of an unstacked and reindexed table: the value of
    the group if there is one, NaN otherwise. *)
Lemma cell_reindex_unstack (g : list ((label * label) * float)) (rows : list label)
    (r c : label) :
  r ∈ rows ->
  c ∈ t_columns (unstack g) ->
  cell (reindex rows (unstack g)) r c = Some (default NaN (assoc (r, c) g)).
Proof.
  intros Hr Hc. unfold cell, reindex. simpl t_index. simpl t_data. simpl t_columns.
  rewrite (assoc_zip_map _ rows r Hr). simpl.
  set (idx := sort_labels (map (fun kv => fst (fst kv)) g)).
  set (cols := sort_labels (map (fun kv => snd (fst kv)) g)) in *.
  destruct (decide (r ∈ idx)) as [Hin|Hnin].
  - rewrite (assoc_zip_map _ idx r Hin). simpl.
    by rewrite (assoc_zip_map _ cols c Hc).
  - rewrite (assoc_zip_None idx _ r Hnin). simpl.
    rewrite (assoc_zip_replicate cols NaN c Hc).
    f_equal. subst idx. rewrite sort_labels_elem_of in Hnin.
    clear -Hnin. induction g as [|[[r' c'] v] g IH]; [done|].
    simpl. destruct (decide ((r', c') = (r, c))) as [E|_].
    + exfalso. apply Hnin. simpl. simplify_eq. by left.
    + apply IH. intros H. apply Hnin. simpl. by right.
Qed.

Lemma unstack_data_shape (g : list ((label * label) * float)) (rows : list label) :
  length (t_data (reindex rows (unstack g))) = length rows /\
  Forall (fun row => length row = length (t_columns (reindex rows (unstack g))))
         (t_data (reindex rows (unstack g))).
Proof.
  unfold reindex. simpl. split; [by rewrite length_map|].
  apply Forall_forall. intros row [r [<- _]]%list_elem_of_In%in_map_iff.
  set (idx := sort_labels (map (fun kv => fst (fst kv)) g)).
  set (cols := sort_labels (map (fun kv => snd (fst kv)) g)).
  destruct (decide (r ∈ idx)) as [Hin|Hnin].
  - rewrite (assoc_zip_map _ idx r Hin). simpl. by rewrite !length_map.
  - rewrite (assoc_zip_None idx _ r Hnin). simpl. by rewrite length_replicate.
Qed.

Lemma key_pairs_records (recs : list BenchmarkRecord) :
  key_pairs (labels_of (StrCol (map pattern recs))) (labels_of (StrCol (map impl recs)))
  = map (fun r => Some (record_key r)) recs.
Proof. induction recs as [|r recs IH]; simpl in *; [done | by rewrite IH]. Qed.

Lemma omap_id_map_Some {A B} (f : A -> B) (l : list A) :
  omap id (map (fun x => Some (f x)) l) = map f l.
Proof. induction l as [|x l IH]; simpl; [done | by f_equal]. Qed.

Lemma group_values_records (p i : string) (recs : list BenchmarkRecord) :
  group_values (LStr p, LStr i) (map (fun r => Some (record_key r)) recs)
               (map ops_per_sec recs)
  = group_ops p i recs.
Proof.
  unfold group_values, group_ops.
  induction recs as [|r recs IH]; simpl; [done|].
  unfold record_key at 1. simpl.
  destruct (decide (pattern r = p /\ impl r = i)) as [[Ep Ei]|N].
  - rewrite bool_decide_eq_true_2 by done.
    case_decide as Hd; [|exfalso; apply Hd; by rewrite Ep, Ei].
    simpl. f_equal. exact IH.
  - rewrite bool_decide_eq_false_2 by done.
    case_decide as Hd; [|exact IH]. exfalso. apply N. by inversion Hd.
Qed.

Lemma group_ops_absent (p i : string) (recs : list BenchmarkRecord) :
  (forall r, r ∈ recs -> ~ (pattern r = p /\ impl r = i)) -> group_ops p i recs = [].
Proof.
  intros H. unfold group_ops. rewrite filter_none; [done|].
  intros r Hr%list_elem_of_In. apply bool_decide_eq_false_2. by apply H.
Qed.

Lemma group_ops_filter (p i : string) (recs : list BenchmarkRecord) :
  group_ops p i recs
  = map ops_per_sec (filter (fun r => pattern r = p /\ impl r = i) recs).
Proof.
  unfold group_ops. f_equal. induction recs as [|r recs IH]; [done|].
  rewrite filter_cons. cbn [List.filter]. rewrite IH.
  destruct (decide (pattern r = p /\ impl r = i)).
  - by rewrite bool_decide_eq_true_2.
  - by rewrite bool_decide_eq_false_2.
Qed.

Lemma median_nil : median [] = NaN.
Proof. reflexivity. Qed.

Example median_skips_missing_values :
  median [Finite 3; NaN; Finite 1; Finite 2; Finite 10] = Finite (5 # 2).
Proof. reflexivity. Qed.

(** The median that is computed is the median. *)
Lemma dropna_filter (xs : Series) : dropna xs = filter (fun x => x <> NaN) xs.
Proof.
  unfold dropna. induction xs as [|x xs IH]; [done|].
  rewrite filter_cons. cbn [List.filter]. rewrite IH.
  destruct (decide (x <> NaN)) as [Hx|Hx]; destruct x; try done; by destruct Hx.
Qed.

Lemma fleb_float_le (x y : float) : fleb x y = true -> float_le x y.
Proof. destruct x, y; simpl; try done. apply Qle_bool_iff. Qed.

Lemma sorted_observations (xs : Series) :
  StronglySorted float_le (isort fleb (dropna xs)).
Proof.
  assert (H : StronglySorted (fun a b => fleb a b = true) (isort fleb (dropna xs))).
  { apply (isort_sorted fleb (fun x => notna x = true) fleb_total fleb_trans),
      dropna_observed. }
  induction H as [|x l _ IH Hall]; constructor; [done|].
  eapply Forall_impl; [exact Hall|]. intros y. apply fleb_float_le.
Qed.

Lemma lookup_nth {A} (l : list A) (k : nat) (d : A) :
  (k < length l)%nat -> l !! k = Some (nth k l d).
Proof.
  intros Hk. destruct (lookup_lt_is_Some_2 l k Hk) as [x Hx].
  rewrite Hx. f_equal. symmetry. by apply nth_lookup_Some.
Qed.

Lemma median_is_median (xs : Series) : is_median (median xs) xs.
Proof.
  exists (isort fleb (dropna xs)).
  split; [by rewrite isort_perm, dropna_filter|].
  split; [apply sorted_observations|].
  cbv zeta. unfold median.
  set (obs := isort fleb (dropna xs)).
  destruct (length obs =? 0)%nat eqn:E; [done|]. apply Nat.eqb_neq in E.
  assert (H1 : (length obs / 2 < length obs)%nat) by (apply Nat.div_lt; lia).
  assert (H2 : (length obs / 2 - 1 < length obs)%nat) by lia.
  destruct (Nat.odd (length obs)).
  - by apply lookup_nth.
  - eexists _, _. split; [by apply lookup_nth|]. split; [by apply lookup_nth | done].
Qed.

(** The property tells medians apart: a group of two values has no
    missing median, and its median is half their sum. *)
Example median_of_two_values :
  ~ is_median NaN [Finite 5; Finite 3] /\
  is_median (fdiv (fadd (Finite 3) (Finite 5)) (Finite 2)) [Finite 5; Finite 3].
Proof.
  split; [|apply (median_is_median [Finite 5; Finite 3])].
  intros (l & Hperm & _ & H). cbv zeta in H.
  apply Permutation_length in Hperm as Hlen.
  change (length l = 2%nat) in Hlen. rewrite Hlen in H. cbn in H.
  destruct H as (a & b & Ha & Hb & H).
  destruct l as [|x [|y [|]]]; try done. cbn in Ha, Hb.
  injection Ha as <-. injection Hb as <-.
  assert (Hx : x ∈ [Finite 5; Finite 3]) by (rewrite <- Hperm; by left).
  assert (Hy : y ∈ [Finite 5; Finite 3]) by (rewrite <- Hperm; right; by left).
  apply elem_of_cons in Hx as [->|Hx%elem_of_cons]; [|destruct Hx as [->|[]%elem_of_nil]];
  (apply elem_of_cons in Hy as [->|Hy%elem_of_cons]; [|destruct Hy as [->|[]%elem_of_nil]]);
  discriminate H.
Qed.

Lemma keys_are_columns (df : DataFrame) (c1 c2 : column) :
  df_get df "pattern" = Some c1 -> df_get df "impl" = Some c2 ->
  keys_are_row_labels df ["pattern"; "impl"] = false.
Proof.
  intros H1 H2. unfold keys_are_row_labels. cbn [forallb]. rewrite H1, H2.
  rewrite (bool_decide_eq_true_2 (is_Some (Some c1))) by (by eexists).
  rewrite (bool_decide_eq_true_2 (is_Some (Some c2))) by (by eexists).
  apply andb_false_r.
Qed.

Lemma numeric_values (c : column) (xs : Series) (w : world) :
  column_values c = Some xs -> numeric c w = (Ok xs, w).
Proof. destruct c; simpl; intros H; by simplify_eq. Qed.

Lemma throughput_frame_holds (recs : list BenchmarkRecord) :
  holds_records (throughput_frame recs) recs.
Proof. split; [done|]. split; [done|]. by eexists. Qed.

(** The table of grouped medians for a frame that holds records. *)
Lemma median_throughput_table (df : DataFrame) (recs : list BenchmarkRecord) (w : world) :
  holds_records df recs ->
  exists t,
    median_throughput df w = (Ok t, w) /\
    t_index t = [LStr "homogeneous"; LStr "bursty"; LStr "mixed_random"] /\
    length (t_data t) = 3%nat /\
    Forall (fun row => length row = length (t_columns t)) (t_data t) /\
    NoDup (t_columns t) /\
    (forall c, c ∈ t_columns t <-> exists r, r ∈ recs /\ c = LStr (impl r)) /\
    (forall p i, LStr p ∈ t_index t -> LStr i ∈ t_columns t ->
       cell t (LStr p) (LStr i) = Some (median (group_ops p i recs))).
Proof.
  intros (Hp & Hi & c & Hc & Hvals).
  set (keys := map (fun r => Some (record_key r)) recs).
  set (vals := map ops_per_sec recs).
  set (g := groupby_median keys vals).
  exists (reindex pattern_order (unstack g)).
  assert (Hrun : median_throughput df w = (Ok (reindex pattern_order (unstack g)), w)).
  { unfold g, keys. rewrite <- key_pairs_records.
    unfold median_throughput. rewrite (keys_are_columns df _ _ Hp Hi).
    unfold getitem. rewrite Hp, Hi, Hc.
    cbv beta iota delta [mbind M_bind mret M_ret].
    by rewrite (numeric_values c _ w Hvals). }
  assert (Hks : forall k, k ∈ isort pair_leb (remove_dups (omap id keys))
                          <-> exists r, r ∈ recs /\ k = record_key r).
  { intros k. rewrite isort_elem_of, elem_of_remove_dups.
    unfold keys. rewrite omap_id_map_Some. rewrite list_elem_of_In, in_map_iff.
    split; intros (r & H1 & H2); exists r; rewrite ?list_elem_of_In in *; done. }
  assert (Hcols : forall c, c ∈ t_columns (unstack g)
                            <-> exists r, r ∈ recs /\ c = LStr (impl r)).
  { intros l. simpl. rewrite sort_labels_elem_of. unfold g, groupby_median.
    rewrite map_map. simpl. rewrite list_elem_of_In, in_map_iff. split.
    - intros (k & <- & Hk%list_elem_of_In). apply Hks in Hk as (r & Hr & ->).
      by exists r.
    - intros (r & Hr & ->). exists (record_key r). split; [done|].
      apply list_elem_of_In, Hks. by exists r. }
  split; [exact Hrun|]. split; [done|].
  destruct (unstack_data_shape g pattern_order) as [Hlen Hrows].
  split; [exact Hlen|]. split; [exact Hrows|].
  split; [apply sort_labels_NoDup|].
  split; [exact Hcols|].
  intros p i Hpin Hiin. rewrite cell_reindex_unstack by done. f_equal.
  unfold g, groupby_median. rewrite assoc_graph.
  destruct (decide _) as [Hin|Hnin]; simpl.
  - unfold keys, vals. by rewrite group_values_records.
  - rewrite group_ops_absent; [done|].
    intros r Hr [<- <-]. apply Hnin, Hks. by exists r.
Qed.

(** C3. For a throughput table holding well-formed records, the grouped
    medians are computed without error and form a table with exactly
    the rows homogeneous, bursty, mixed_random, in that order, and
    exactly one column per implementation present in the input; each
    cell holds the median of [ops_per_sec] over the records of its
    (pattern, impl) group, and the no-data marker NaN when the pattern
    does not occur in the input. *)
Theorem grouped_median_spec (df : DataFrame) (recs : list BenchmarkRecord) (w : world) :
  holds_records df recs ->
  exists t,
    median_throughput df w = (Ok t, w) /\
    t_index t = [LStr "homogeneous"; LStr "bursty"; LStr "mixed_random"] /\
    length (t_data t) = 3%nat /\
    Forall (fun row => length row = length (t_columns t)) (t_data t) /\
    NoDup (t_columns t) /\
    (forall c, c ∈ t_columns t <-> exists r, r ∈ recs /\ c = LStr (impl r)) /\
    (forall p i, LStr p ∈ t_index t -> LStr i ∈ t_columns t ->
       exists m, cell t (LStr p) (LStr i) = Some m /\
                 is_median m (map ops_per_sec
                                (filter (fun r => pattern r = p /\ impl r = i) recs))) /\
    (forall p i, LStr p ∈ t_index t -> LStr i ∈ t_columns t ->
       (forall r, r ∈ recs -> pattern r <> p) ->
       cell t (LStr p) (LStr i) = Some NaN).
Proof.
  intros Hrecs.
  destruct (median_throughput_table df recs w Hrecs)
    as (t & Hrun & Hidx & Hlen & Hrows & Hnd & Hcols & Hcell).
  exists t. do 6 (split; [done|]). split.
  - intros p i Hp Hi. exists (median (group_ops p i recs)).
    split; [by apply Hcell|]. rewrite <- group_ops_filter. apply median_is_median.
  - intros p i Hp Hi Habs. rewrite Hcell by done.
    rewrite group_ops_absent; [done|]. intros r Hr [E _]. by apply (Habs r).
Qed.

Lemma grouped_median_spec_witness :
  exists t,
    median_throughput (throughput_frame sample_records) (world_of [] []) = (Ok t, world_of [] []) /\
    t_index t = [LStr "homogeneous"; LStr "bursty"; LStr "mixed_random"] /\
    length (t_data t) = 3%nat /\
    Forall (fun row => length row = length (t_columns t)) (t_data t) /\
    NoDup (t_columns t) /\
    (forall c, c ∈ t_columns t <-> exists r, r ∈ sample_records /\ c = LStr (impl r)) /\
    (forall p i, LStr p ∈ t_index t -> LStr i ∈ t_columns t ->
       exists m, cell t (LStr p) (LStr i) = Some m /\
                 is_median m (map ops_per_sec
                                (filter (fun r => pattern r = p /\ impl r = i)
                                        sample_records))) /\
    (forall p i, LStr p ∈ t_index t -> LStr i ∈ t_columns t ->
       (forall r, r ∈ sample_records -> pattern r <> p) ->
       cell t (LStr p) (LStr i) = Some NaN).
Proof.
  apply (grouped_median_spec (throughput_frame sample_records) sample_records).
  apply throughput_frame_holds.
Defined.

Example sample_median_table :
  (median_throughput (throughput_frame sample_records) (world_of [] [])).1
  = Ok {| t_index := [LStr "homogeneous"; LStr "bursty"; LStr "mixed_random"];
          t_columns := [LStr "non-virtual"; LStr "virtual"];
          t_data := [[Finite 7; NaN]; [Finite 1; Finite (8 # 2)]; [NaN; NaN]] |}.
Proof. vm_compute. reflexivity. Qed.

(** Throughputs that are all integral are read as a column of
    integers; the medians are the same floats. *)
Example integer_median_table :
  (median_throughput [("pattern", StrCol ["bursty"; "bursty"; "homogeneous"]);
                      ("impl", StrCol ["virtual"; "virtual"; "virtual"]);
                      ("ops_per_sec", IntCol [3; 4; 7]%Z)] (world_of [] [])).1
  = Ok {| t_index := [LStr "homogeneous"; LStr "bursty"; LStr "mixed_random"];
          t_columns := [LStr "virtual"];
          t_data := [[Finite 7]; [Finite (7 # 2)]; [NaN]] |}.
Proof. vm_compute. reflexivity. Qed.

(** ** Running computations *)

Lemma bind_Ok {A B} (m : M A) (k : A -> M B) (w w1 : world) (a : A) :
  m w = (Ok a, w1) -> (m ≫= k) w = k a w1.
Proof. intros H. unfold mbind, M_bind. by rewrite H. Qed.

Lemma bind_Raise {A B} (m : M A) (k : A -> M B) (w w1 : world) (e : exn) :
  m w = (Raise e, w1) -> (m ≫= k) w = (Raise e, w1).
Proof. intros H. unfold mbind, M_bind. by rewrite H. Qed.

Lemma bind_Ok_inv {A B} (m : M A) (k : A -> M B) (w w' : world) (b : B) :
  (m ≫= k) w = (Ok b, w') ->
  exists a w1, m w = (Ok a, w1) /\ k a w1 = (Ok b, w').
Proof.
  unfold mbind, M_bind. destruct (m w) as [[a|e] w1]; intros H; [eauto | done].
Qed.

Lemma try_except_Ok {A} (body : M A) (h : exn -> M A) (w w1 : world) (a : A) :
  body w = (Ok a, w1) -> try_except body h w = (Ok a, w1).
Proof. intros H. unfold try_except. by rewrite H. Qed.

Lemma try_except_Raise {A} (body : M A) (h : exn -> M A) (w w1 : world) (e : exn) :
  body w = (Raise e, w1) -> try_except body h w = h e w1.
Proof. intros H. unfold try_except. by rewrite H. Qed.

Lemma for_each_app {A} (l1 l2 : list A) (body : A -> M unit) (w : world) :
  for_each (l1 ++ l2) body w = (for_each l1 body ;; for_each l2 body) w.
Proof.
  revert w. induction l1 as [|x l1 IH]; intros w; simpl; [done|].
  unfold mbind, M_bind in *. destruct (body x w) as [[[]|e] w1]; [apply IH | done].
Qed.

Lemma keeps_files_ret {A} (a : A) : keeps_files (mret a : M A).
Proof. by intros w. Qed.

Lemma keeps_files_raise {A} (e : exn) : keeps_files (raise e : M A).
Proof. by intros w. Qed.

Lemma keeps_files_bind {A B} (m : M A) (k : A -> M B) :
  keeps_files m -> (forall a, keeps_files (k a)) -> keeps_files (m ≫= k).
Proof.
  intros Hm Hk w. unfold mbind, M_bind. specialize (Hm w).
  destruct (m w) as [[a|e] w1]; simpl in *; [|done].
  destruct (Hk a w1) as [H1 H2]. destruct Hm as [H3 H4]. split; congruence.
Qed.

Lemma keeps_files_try {A} (body : M A) (h : exn -> M A) :
  keeps_files body -> (forall e, keeps_files (h e)) -> keeps_files (try_except body h).
Proof.
  intros Hm Hk w. unfold try_except. specialize (Hm w).
  destruct (body w) as [[a|e] w1]; simpl in *; [done|].
  destruct (Hk e w1) as [H1 H2]. destruct Hm as [H3 H4]. split; congruence.
Qed.

Lemma keeps_files_if {A} (b : bool) (m1 m2 : M A) :
  keeps_files m1 -> keeps_files m2 -> keeps_files (if b then m1 else m2).
Proof. by destruct b. Qed.

Lemma keeps_files_for_each {A} (l : list A) (body : A -> M unit) :
  (forall x, keeps_files (body x)) -> keeps_files (for_each l body).
Proof.
  intros Hb. induction l as [|x l IH]; simpl; [by intros w|].
  apply keeps_files_bind; auto.
Qed.

Lemma keeps_files_print (l : line) : keeps_files (print l).
Proof. by intros w. Qed.

Lemma keeps_files_read_csv (path : string) : keeps_files (read_csv path).
Proof.
  intros w. unfold read_csv.
  destruct (decide _); [done|]. destruct (files w !! path) as [[]|]; done.
Qed.

Lemma keeps_files_getitem (df : DataFrame) (name : string) : keeps_files (getitem df name).
Proof. intros w. unfold getitem. by destruct (df_get df name). Qed.

Lemma keeps_files_numeric (c : column) : keeps_files (numeric c).
Proof. intros w. by destruct c. Qed.

Lemma keeps_files_to_datetime_ns (c : column) : keeps_files (to_datetime_ns c).
Proof. intros w. destruct c; simpl; try done. by destruct (forallb _ _). Qed.

Lemma keeps_files_dt_floor_seconds (c : column) : keeps_files (dt_floor_seconds c).
Proof. intros w. by destruct c. Qed.

Lemma keeps_files_new_figure (n : nat) : keeps_files (new_figure n).
Proof. by intros w. Qed.

Lemma keeps_files_update_figure (fig : nat) (f : figure -> figure) :
  keeps_files (update_figure fig f).
Proof. by intros w. Qed.

Lemma keeps_files_add_axes (fig : nat) : keeps_files (add_axes fig).
Proof. by intros w. Qed.

Lemma keeps_files_draw (accepts : artist -> bool) (fig ax : nat) (a : artist) :
  keeps_files (draw accepts fig ax a).
Proof. intros w. unfold draw. by destruct (accepts a). Qed.

Lemma keeps_files_abspath (p : string) : keeps_files (abspath p).
Proof. by intros w. Qed.

Create HintDb keeps.

#[export] Hint Resolve keeps_files_ret keeps_files_raise keeps_files_print
  keeps_files_read_csv keeps_files_getitem keeps_files_numeric
  keeps_files_to_datetime_ns keeps_files_dt_floor_seconds keeps_files_new_figure
  keeps_files_update_figure keeps_files_add_axes keeps_files_draw
  keeps_files_abspath : keeps.

#[export] Hint Extern 1 (keeps_files (_ ≫= _)) =>
  apply keeps_files_bind; [|intros ?] : keeps.
#[export] Hint Extern 1 (keeps_files (try_except _ _)) =>
  apply keeps_files_try; [|intros ?] : keeps.
#[export] Hint Extern 1 (keeps_files (if _ then _ else _)) =>
  apply keeps_files_if : keeps.
#[export] Hint Extern 1 (keeps_files (for_each _ _)) =>
  apply keeps_files_for_each; intros ? : keeps.

Ltac keeps := cbv zeta; auto 200 with keeps.

Lemma keeps_files_assign_timestamp (df : DataFrame) : keeps_files (assign_timestamp df).
Proof. unfold assign_timestamp. keeps. Qed.

Lemma keeps_files_assign_moving_averages (df : DataFrame) :
  keeps_files (assign_moving_averages df).
Proof. unfold assign_moving_averages. keeps. Qed.

#[export] Hint Resolve keeps_files_assign_timestamp keeps_files_assign_moving_averages : keeps.

Lemma keeps_files_order_history (accepts : artist -> bool) (csv_file : string) :
  keeps_files (create_order_history_plots accepts csv_file).
Proof.
  unfold create_order_history_plots, order_history_body, set_title, suptitle, update_axes.
  keeps.
Qed.

Lemma keeps_files_price_analysis (Qsqrt : Q -> Q) (accepts : artist -> bool)
    (csv_file : string) (instrument_id : Z) :
  keeps_files (create_price_analysis_plots Qsqrt accepts csv_file instrument_id).
Proof.
  unfold create_price_analysis_plots, price_analysis_body, set_title, suptitle, update_axes.
  keeps.
Qed.

Lemma keeps_files_dashboard (accepts : artist -> bool) :
  keeps_files (create_comprehensive_dashboard accepts).
Proof.
  unfold create_comprehensive_dashboard, dashboard_body, set_title, suptitle, update_axes.
  keeps.
Qed.

(** ** Loading *)

Lemma read_csv_loadable (w : world) (path : string) (df : DataFrame) :
  path ∉ dirs w -> files w !! path = Some (Csv df) -> read_csv path w = (Ok df, w).
Proof. intros Hd Hf. unfold read_csv. rewrite decide_False by done. by rewrite Hf. Qed.

Lemma read_csv_fails (w : world) (path : string) :
  ~ loadable w path -> exists e, read_csv path w = (Raise e, w).
Proof.
  intros Hn. unfold read_csv. destruct (decide (path ∈ dirs w)); [eauto|].
  destruct (files w !! path) as [[df| |]|] eqn:Hf; eauto.
  exfalso. apply Hn. split; eauto.
Qed.

Lemma read_csv_absent (w : world) (path : string) :
  path ∉ dirs w -> files w !! path = None -> read_csv path w = (Raise FileNotFoundError, w).
Proof. intros Hd Hf. unfold read_csv. rewrite decide_False by done. by rewrite Hf. Qed.

Lemma read_csv_world (w w' : world) (path : string) (r : outcome DataFrame) :
  read_csv path w = (r, w') -> w' = w.
Proof.
  unfold read_csv. destruct (decide _); [congruence|].
  destruct (files w !! path) as [[]|]; congruence.
Qed.

Lemma absent_not_loadable (w : world) (path : string) :
  files w !! path = None -> ~ loadable w path.
Proof. intros Hf [_ [df Hdf]]. congruence. Qed.

Lemma getitem_inv (df : DataFrame) (name : string) (w w' : world) (c : column) :
  getitem df name w = (Ok c, w') -> df_get df name = Some c /\ w' = w.
Proof.
  unfold getitem. destruct (df_get df name); intros H; [|done].
  unfold mret, M_ret in H. by simplify_eq.
Qed.

Lemma getitem_Some (df : DataFrame) (name : string) (c : column) (w : world) :
  df_get df name = Some c -> getitem df name w = (Ok c, w).
Proof. intros H. unfold getitem. by rewrite H. Qed.

(** ** The reports never raise, and a failed load leaves no trace but
       the message *)

Lemma order_history_never_raises (accepts : artist -> bool) (csv_file : string) :
  never_raises (create_order_history_plots accepts csv_file).
Proof.
  intros w. unfold create_order_history_plots, mbind, M_bind, print, try_except.
  destruct (order_history_body _ _ _) as [[a|e] w1]; [by eexists|].
  destruct (is_FileNotFoundError e); by eexists.
Qed.

Lemma price_analysis_never_raises (Qsqrt : Q -> Q) (accepts : artist -> bool)
    (csv_file : string) (instrument_id : Z) :
  never_raises (create_price_analysis_plots Qsqrt accepts csv_file instrument_id).
Proof.
  intros w. unfold create_price_analysis_plots, mbind, M_bind, print, try_except.
  destruct (price_analysis_body _ _ _ _ _) as [[a|e] w1]; [by eexists|].
  destruct (is_FileNotFoundError e); by eexists.
Qed.

Lemma dashboard_never_raises (accepts : artist -> bool) :
  never_raises (create_comprehensive_dashboard accepts).
Proof.
  intros w. unfold create_comprehensive_dashboard, mbind, M_bind, print, try_except.
  destruct (dashboard_body _ _) as [[a|e] w1]; [by eexists|].
  destruct (is_FileNotFoundError e); by eexists.
Qed.

(** The missing column in general: whatever else the file holds, a
    throughput file with a [pattern] column and no [impl] column makes
    [create_chart] raise.  Unless the file has exactly two rows, as
    many as [groupby] is given keys, the exception is the [KeyError]
    of the missing key. *)
Lemma keys_not_row_labels (df : DataFrame) :
  df_len df <> 2%nat -> keys_are_row_labels df ["pattern"; "impl"] = false.
Proof.
  intros H. unfold keys_are_row_labels.
  rewrite bool_decide_eq_false_2; [done|]. intros E. by apply H.
Qed.

Lemma create_chart_missing_impl (accepts : artist -> bool) (csv_file output_image : string)
    (w : world) (df : DataFrame) (c : column) :
  csv_file ∉ dirs w -> files w !! csv_file = Some (Csv df) ->
  df_len df <> 2%nat ->
  df_get df "pattern" = Some c -> df_get df "impl" = None ->
  create_chart accepts csv_file output_image w = (Raise (KeyError (LStr "impl")), w).
Proof.
  intros Hd Hf Hrows Hp Hi. unfold create_chart.
  erewrite bind_Ok; cycle 1.
  { apply try_except_Ok. erewrite bind_Ok by (by apply read_csv_loadable). reflexivity. }
  simpl. apply bind_Raise. unfold median_throughput.
  rewrite keys_not_row_labels by done.
  erewrite bind_Ok by (by apply getitem_Some).
  apply bind_Raise. unfold getitem. by rewrite Hi.
Qed.

(** With exactly two rows the two keys are read as the labels of the
    rows; the medians are computed and [unstack] raises. *)
Lemma create_chart_missing_impl_two_rows (accepts : artist -> bool)
    (csv_file output_image : string) (w : world) (df : DataFrame) (c : column) (xs : Series) :
  csv_file ∉ dirs w -> files w !! csv_file = Some (Csv df) ->
  df_len df = 2%nat ->
  df_get df "impl" = None ->
  df_get df "ops_per_sec" = Some c -> column_values c = Some xs ->
  create_chart accepts csv_file output_image w = (Raise ValueError, w).
Proof.
  intros Hd Hf Hrows Hi Hc Hxs. unfold create_chart.
  erewrite bind_Ok; cycle 1.
  { apply try_except_Ok. erewrite bind_Ok by (by apply read_csv_loadable). reflexivity. }
  simpl. apply bind_Raise. unfold median_throughput.
  assert (Hkeys : keys_are_row_labels df ["pattern"; "impl"] = true).
  { unfold keys_are_row_labels. cbn [forallb]. rewrite Hi.
    rewrite bool_decide_eq_true_2 by (by rewrite Hrows).
    rewrite (bool_decide_eq_false_2 (is_Some None)) by (by intros [? ?]).
    by rewrite andb_false_r. }
  rewrite Hkeys.
  erewrite bind_Ok by (by apply getitem_Some).
  by erewrite bind_Ok by (by apply numeric_values).
Qed.

(** C5: the failing input.  A throughput file that exists but has no
    [impl] column makes [create_chart] raise [KeyError]; nothing
    catches it, so the script ends with the exception instead of
    reporting a failure. *)
Theorem create_chart_missing_column_raises (accepts : artist -> bool) :
  let w := world_of [("results.csv", Csv frame_without_impl)] [] in
  create_chart_default accepts w = (Raise (KeyError (LStr "impl")), w).
Proof. vm_compute. reflexivity. Qed.

(** The same file cut to two rows: [ValueError] instead. *)
Example create_chart_two_rows_missing_column (accepts : artist -> bool) :
  let w := world_of [("results.csv", Csv short_frame_without_impl)] [] in
  create_chart_default accepts w = (Raise ValueError, w).
Proof. vm_compute. reflexivity. Qed.

(** In the menu the writer runs outside every [try]: when the plots
    directory cannot be created the exception leaves [handle_choice]. *)
Example menu_write_error_escapes :
  let w := world_of [("price_data_instrument_0.csv", Csv sample_prices);
                     ("saved_plots", Other)] [] in
  (handle_choice sample_sqrt draws_all sample_size "2" w).1 = Raise FileExistsError.
Proof. vm_compute. reflexivity. Qed.

Lemma order_history_load_fails (accepts : artist -> bool) (csv_file : string) (w : world) :
  ~ loadable w csv_file ->
  exists w', create_order_history_plots accepts csv_file w = (Ok None, w') /\ reported w w'.
Proof.
  intros Hn. unfold create_order_history_plots, order_history_body.
  erewrite bind_Ok by reflexivity.
  match goal with |- context [try_except _ _ ?w1] =>
    destruct (read_csv_fails w1 csv_file Hn) as [e He] end.
  erewrite try_except_Raise by (apply bind_Raise; exact He).
  destruct (is_FileNotFoundError e); eexists; (split; [reflexivity|]);
    repeat split; simpl; eexists; (split; [|by rewrite <- app_assoc]); done.
Qed.

Lemma price_analysis_load_fails (Qsqrt : Q -> Q) (accepts : artist -> bool)
    (csv_file : string) (instrument_id : Z) (w : world) :
  ~ loadable w csv_file ->
  exists w', create_price_analysis_plots Qsqrt accepts csv_file instrument_id w = (Ok None, w')
             /\ reported w w'.
Proof.
  intros Hn. unfold create_price_analysis_plots, price_analysis_body.
  erewrite bind_Ok by reflexivity.
  match goal with |- context [try_except _ _ ?w1] =>
    destruct (read_csv_fails w1 csv_file Hn) as [e He] end.
  erewrite try_except_Raise by (apply bind_Raise; exact He).
  destruct (is_FileNotFoundError e); eexists; (split; [reflexivity|]);
    repeat split; simpl; eexists; (split; [|by rewrite <- app_assoc]); done.
Qed.

Lemma dashboard_load_fails (accepts : artist -> bool) (w : world) :
  ~ loadable w "order_history.csv" \/ ~ loadable w "price_data_instrument_0.csv" ->
  exists w', create_comprehensive_dashboard accepts w = (Ok None, w') /\ reported w w'.
Proof.
  intros Hn.
  assert (He : exists e, dashboard_body accepts w = (Raise e, w)).
  { unfold dashboard_body.
    destruct (read_csv "order_history.csv" w) as [[df|e] w1] eqn:H1.
    - pose proof (read_csv_world _ _ _ _ H1) as ->.
      destruct Hn as [Hn|Hn].
      + apply read_csv_fails in Hn as [e He]. congruence.
      + apply read_csv_fails in Hn as [e He]. exists e.
        erewrite bind_Ok by exact H1. by apply bind_Raise.
    - pose proof (read_csv_world _ _ _ _ H1) as ->. exists e. by apply bind_Raise. }
  destruct He as [e He]. unfold create_comprehensive_dashboard.
  erewrite try_except_Raise by exact He.
  destruct (is_FileNotFoundError e); eexists; (split; [reflexivity|]);
    repeat split; simpl; eexists; (split; [|reflexivity]); done.
Qed.

Lemma handle_choice_1 (Qsqrt : Q -> Q) (accepts : artist -> bool)
    (byte_size : option content -> N) (w w' : world) :
  create_order_history_plots accepts "order_history.csv" w = (Ok None, w') ->
  handle_choice Qsqrt accepts byte_size "1" w = (Ok false, w').
Proof.
  intros H. change (handle_choice Qsqrt accepts byte_size "1" w) with
    ((fig ← create_order_history_plots accepts "order_history.csv";
      save_and_show fig "order_history_analysis" ;; mret false) w).
  by erewrite bind_Ok by exact H.
Qed.

Lemma handle_choice_2 (Qsqrt : Q -> Q) (accepts : artist -> bool)
    (byte_size : option content -> N) (w w' : world) :
  create_price_analysis_plots Qsqrt accepts "price_data_instrument_0.csv" 0 w = (Ok None, w') ->
  handle_choice Qsqrt accepts byte_size "2" w = (Ok false, w').
Proof.
  intros H. change (handle_choice Qsqrt accepts byte_size "2" w) with
    ((fig ← create_price_analysis_plots Qsqrt accepts "price_data_instrument_0.csv" 0;
      save_and_show fig "price_analysis_instrument_0" ;; mret false) w).
  by erewrite bind_Ok by exact H.
Qed.

Lemma handle_choice_3 (Qsqrt : Q -> Q) (accepts : artist -> bool)
    (byte_size : option content -> N) (w w' : world) :
  create_comprehensive_dashboard accepts w = (Ok None, w') ->
  handle_choice Qsqrt accepts byte_size "3" w = (Ok false, w').
Proof.
  intros H. change (handle_choice Qsqrt accepts byte_size "3" w) with
    ((fig ← create_comprehensive_dashboard accepts;
      save_and_show fig "trading_dashboard" ;; mret false) w).
  by erewrite bind_Ok by exact H.
Qed.

Lemma create_chart_load_fails (accepts : artist -> bool) (csv_file output_image : string)
    (w : world) :
  ~ loadable w csv_file ->
  exists r w', create_chart accepts csv_file output_image w = (r, w') /\
               files w' = files w /\ dirs w' = dirs w /\ figures w' = figures w.
Proof.
  intros [e He]%read_csv_fails. unfold create_chart.
  destruct (is_FileNotFoundError e) eqn:Hfnf.
  - eexists _, _. split.
    + eapply eq_trans; [|reflexivity]. eapply eq_trans.
      { apply bind_Ok.
        erewrite try_except_Raise by (apply bind_Raise; exact He).
        rewrite Hfnf. reflexivity. }
      reflexivity.
    + done.
  - eexists _, _. split.
    + apply bind_Raise.
      erewrite try_except_Raise by (apply bind_Raise; exact He).
      rewrite Hfnf. reflexivity.
    + done.
Qed.

(** A failure after the figure has been opened: the report gives up,
    the menu saves nothing, and the figure begun so far is still in
    pyplot's registry. *)
Example order_history_missing_column :
  let w := world_of [("order_history.csv", Csv orders_without_side)] [] in
  let r := handle_choice sample_sqrt draws_all sample_size "1" w in
  r.1 = Ok false /\
  files r.2 = files w /\
  length (figures r.2) = 1%nat /\
  last (stdout r.2) = Some (Failure "❌ Error loading order history: " (KeyError (LStr "side"))).
Proof. repeat split; vm_compute; reflexivity. Qed.

(** ** Strings and the timestamp token *)

Lemma append_cons (x : ascii) (a b : string) : String x a +:+ b = String x (a +:+ b).
Proof. reflexivity. Qed.

Lemma append_assoc (a b c : string) : (a +:+ b) +:+ c = a +:+ (b +:+ c).
Proof. induction a as [|x a IH]; [done|]. by rewrite !append_cons, IH. Qed.

Lemma chars_append (a b : string) : chars (a +:+ b) = chars a ++ chars b.
Proof.
  induction a as [|x a IH]; [done|].
  rewrite append_cons. unfold chars in *. simpl. by rewrite IH.
Qed.

Lemma digit_is_digit (n : Z) : is_digit (digit n) = true.
Proof.
  unfold digit.
  assert (H : (Z.to_nat (n mod 10) < 10)%nat)
    by (pose proof (Z.mod_pos_bound n 10); lia).
  destruct (Z.to_nat (n mod 10)) as [|k]; [reflexivity|].
  do 9 (destruct k as [|k]; [reflexivity|]). lia.
Qed.

Lemma digit_value (n : Z) : (Z.of_nat (nat_of_ascii (digit n)) - 48 = n mod 10)%Z.
Proof.
  unfold digit. pose proof (Z.mod_pos_bound n 10).
  rewrite nat_ascii_embedding by lia. lia.
Qed.

Lemma mod10_small (n : Z) : (0 <= n <= 9)%Z -> (n mod 10 = n)%Z.
Proof. intros Hn. apply Z.mod_small. lia. Qed.

Lemma pad2_value (n : Z) : (0 <= n <= 99)%Z -> decimal_value (pad2 n) = n.
Proof.
  intros Hn. unfold decimal_value, pad2, chars.
  cbn [String.list_ascii_of_string foldl]. rewrite !digit_value.
  assert (Ha : (0 <= n / 10 <= 9)%Z).
  { split; [apply Z.div_pos; lia|].
    assert (n / 10 < 10)%Z by (apply Z.div_lt_upper_bound; lia). lia. }
  rewrite (mod10_small (n / 10)) by done.
  pose proof (Z.div_mod n 10 ltac:(lia)). lia.
Qed.

Lemma pad4_value (n : Z) : (0 <= n <= 9999)%Z -> decimal_value (pad4 n) = n.
Proof.
  intros Hn. unfold decimal_value, pad4, pad2, chars.
  cbn [String.list_ascii_of_string foldl]. rewrite !digit_value.
  assert (Ha : (0 <= n / 1000 <= 9)%Z).
  { split; [apply Z.div_pos; lia|].
    assert (n / 1000 < 10)%Z by (apply Z.div_lt_upper_bound; lia). lia. }
  rewrite (mod10_small (n / 1000)) by done.
  replace (n / 1000)%Z with (n / 10 / 10 / 10)%Z in * by (rewrite !Z.div_div by lia; done).
  replace (n / 100)%Z with (n / 10 / 10)%Z by (rewrite !Z.div_div by lia; done).
  pose proof (Z.div_mod n 10 ltac:(lia)).
  pose proof (Z.div_mod (n / 10) 10 ltac:(lia)).
  pose proof (Z.div_mod (n / 10 / 10) 10 ltac:(lia)).
  generalize dependent (n / 10 / 10 / 10)%Z. intros c Hc ?.
  generalize dependent (n / 10 / 10 mod 10)%Z. intros b0 ?.
  generalize dependent (n / 10 / 10)%Z. intros b ? ?.
  generalize dependent (n / 10 mod 10)%Z. intros a0 ?.
  generalize dependent (n / 10)%Z. intros a ? ?.
  generalize dependent (n mod 10)%Z. intros n0 ?. lia.
Qed.

Lemma pad2_digits (n : Z) : Forall (fun c => is_digit c = true) (chars (pad2 n)).
Proof. unfold pad2. simpl. repeat constructor; apply digit_is_digit. Qed.

Lemma pad4_digits (n : Z) : Forall (fun c => is_digit c = true) (chars (pad4 n)).
Proof. unfold pad4, pad2. simpl. repeat constructor; apply digit_is_digit. Qed.

Lemma date_token_shape (t : datetime) :
  String.length (date_token t) = 8%nat /\
  Forall (fun c => is_digit c = true) (chars (date_token t)).
Proof.
  split; [reflexivity|]. unfold date_token. rewrite !chars_append.
  rewrite !Forall_app. auto using pad2_digits, pad4_digits.
Qed.

Lemma time_token_shape (t : datetime) :
  String.length (time_token t) = 6%nat /\
  Forall (fun c => is_digit c = true) (chars (time_token t)).
Proof.
  split; [reflexivity|]. unfold time_token. rewrite !chars_append.
  rewrite !Forall_app. auto using pad2_digits.
Qed.


Example sample_timestamp : strftime_stamp sample_clock = "20240307_090500".
Proof. reflexivity. Qed.

Lemma path_join_plots_dir (x : string) :
  path_join plots_dir x
  = match x with
    | String c _ => if decide (c = slash) then x else plots_dir +:+ "/" +:+ x
    | EmptyString => plots_dir +:+ "/" +:+ x
    end.
Proof.
  destruct x as [|c x]; [reflexivity|].
  unfold path_join. change (chars (String c x)) with (c :: chars x). cbv iota beta.
  destruct (decide (c = slash)); reflexivity.
Qed.

Lemma plot_filename_inj (base f1 f2 : string) :
  plot_filename base f1 = plot_filename base f2 -> f1 = f2.
Proof.
  unfold plot_filename. rewrite !path_join_plots_dir.
  destruct base as [|c base].
  - change ("" +:+ "." +:+ f1) with (String dot f1).
    change ("" +:+ "." +:+ f2) with (String dot f2). cbv iota beta.
    destruct (decide (dot = slash)); [done|]. intros H. by simplify_eq.
  - rewrite !append_cons. destruct (decide (c = slash)); intros H; simplify_eq;
      by eapply (String.app_inj "."), (String.app_inj base).
Qed.

Lemma split_at_app (c : ascii) (l1 l2 : list ascii) :
  c ∉ l1 -> split_at c (l1 ++ c :: l2) = Some (l1, l2).
Proof.
  induction l1 as [|x l1 IH]; intros Hc; simpl.
  - by rewrite decide_True.
  - rewrite decide_False by (intros ->; apply Hc; by left).
    rewrite IH; [done|]. intros H. apply Hc. by right.
Qed.

Lemma append_length (a b : string) :
  String.length (a +:+ b) = (String.length a + String.length b)%nat.
Proof.
  induction a as [|x a IH]; [done|].
  rewrite append_cons. simpl. by rewrite IH.
Qed.

(** With a plot name and a format free of [/] the file lies directly in
    the plots directory. *)
Lemma plot_filename_plain (base fmt : string) :
  slash ∉ chars base -> slash ∉ chars fmt ->
  plot_filename base fmt = plots_dir +:+ "/" +:+ base +:+ "." +:+ fmt /\
  parent_dir (plot_filename base fmt) = plots_dir.
Proof.
  intros Hb Hf.
  assert (Hx : slash ∉ chars (base +:+ "." +:+ fmt)).
  { rewrite !chars_append. intros [H|[H|H]%elem_of_app]%elem_of_app; [done| |done].
    apply list_elem_of_In in H. simpl in H. destruct H as [H|[]]. discriminate H. }
  assert (Hjoin : plot_filename base fmt = plots_dir +:+ "/" +:+ base +:+ "." +:+ fmt).
  { unfold plot_filename. rewrite path_join_plots_dir.
    destruct (base +:+ "." +:+ fmt) as [|c x] eqn:E; [done|].
    rewrite decide_False; [done|]. intros ->. apply Hx. unfold chars. simpl. by left. }
  split; [exact Hjoin|]. rewrite Hjoin. unfold parent_dir.
  rewrite chars_append.
  change (chars ("/" +:+ base +:+ "." +:+ fmt)) with (slash :: chars (base +:+ "." +:+ fmt)).
  rewrite rev_app_distr. simpl rev at 1. rewrite <- app_assoc. simpl app at 2.
  rewrite split_at_app.
  - reflexivity.
  - intros H. apply Hx. apply list_elem_of_In, in_rev, list_elem_of_In. exact H.
Qed.

(** ** [save_plot] *)

Lemma save_plot_unfold (fig : nat) (plot_name : string) (formats : list string) (w : world) :
  save_plot fig plot_name formats w
  = (makedirs_exist_ok plots_dir ;;
     for_each formats (save_one fig (plot_name +:+ "_" +:+ strftime_stamp (clock w))) ;;
     mret (plot_name +:+ "_" +:+ strftime_stamp (clock w))) w.
Proof.
  unfold save_plot, mbind, M_bind.
  destruct (makedirs_exist_ok plots_dir w) as [[[]|e] w1] eqn:Hmk; [|done].
  assert (clock w1 = clock w) as Hclk.
  { unfold makedirs_exist_ok in Hmk. repeat case_decide; by simplify_eq. }
  unfold now. by rewrite Hclk.
Qed.

Lemma write_file_ok (path : string) (c : content) (w : world) :
  can_write (dirs w) path ->
  write_file path c w = (Ok tt, set_files (fun fs => <[path := c]> fs) w).
Proof.
  intros [Hp Hd]. unfold write_file.
  rewrite decide_False by (intros [? ?]; destruct Hp; done).
  by rewrite decide_False.
Qed.

Lemma save_one_ok (fig : nat) (g : figure) (base fmt : string) (w : world) :
  figures w !! fig = Some g ->
  lower fmt ∈ supported_formats ->
  can_write (dirs w) (plot_filename base fmt) ->
  exists w', save_one fig base fmt w = (Ok tt, w') /\
             files w' = <[plot_filename base fmt := rendered g fmt]> (files w) /\
             dirs w' = dirs w /\ figures w' = figures w.
Proof.
  intros Hg Hs Hc. unfold save_one.
  eexists. split.
  - erewrite bind_Ok; [reflexivity|].
    unfold savefig, savefig_target. rewrite Hg, decide_True by done.
    by apply write_file_ok.
  - done.
Qed.

Lemma save_one_unsupported (fig : nat) (g : figure) (base fmt : string) (w : world) :
  figures w !! fig = Some g ->
  lower fmt ∉ supported_formats ->
  save_one fig base fmt w = (Raise ValueError, w).
Proof.
  intros Hg Hs. unfold save_one. apply bind_Raise.
  unfold savefig, savefig_target. by rewrite Hg, decide_False.
Qed.

Lemma save_loop_ok (fig : nat) (g : figure) (base : string) (fmts : list string)
    (w : world) :
  figures w !! fig = Some g ->
  (forall fmt, fmt ∈ fmts ->
     lower fmt ∈ supported_formats /\ can_write (dirs w) (plot_filename base fmt)) ->
  exists w', for_each fmts (save_one fig base) w = (Ok tt, w') /\
             files w' = write_all g base fmts (files w) /\
             dirs w' = dirs w /\ figures w' = figures w.
Proof.
  revert w. induction fmts as [|fmt fmts IH]; intros w Hg Hok; [by eexists|].
  destruct (Hok fmt ltac:(by left)) as [Hs Hc].
  destruct (save_one_ok fig g base fmt w Hg Hs Hc) as (w1 & Hrun & Hf & Hd & Hfig).
  destruct (IH w1) as (w2 & Hrun2 & Hf2 & Hd2 & Hfig2).
  - by rewrite Hfig.
  - intros f Hin. rewrite Hd. apply Hok. by right.
  - exists w2. split; [|split; [|split]].
    + simpl. by erewrite bind_Ok by exact Hrun.
    + simpl. by rewrite Hf2, Hf.
    + congruence.
    + congruence.
Qed.

Lemma write_all_other (g : figure) (base : string) (fmts : list string)
    (fs : gmap string content) (p : string) :
  (forall fmt, fmt ∈ fmts -> p <> plot_filename base fmt) ->
  write_all g base fmts fs !! p = fs !! p.
Proof.
  revert fs. induction fmts as [|fmt fmts IH]; intros fs Hp; [done|].
  simpl. rewrite IH by (intros f Hf; apply Hp; by right).
  apply lookup_insert_ne. intros E. by apply (Hp fmt); [left|].
Qed.

Lemma write_all_written (g : figure) (base : string) (fmts : list string)
    (fs : gmap string content) (fmt : string) :
  fmt ∈ fmts ->
  write_all g base fmts fs !! plot_filename base fmt = Some (rendered g fmt).
Proof.
  revert fs. induction fmts as [|f fmts IH]; intros fs Hin; [by apply elem_of_nil in Hin|].
  simpl. destruct (decide (fmt ∈ fmts)) as [Hrest|Hrest]; [by apply IH|].
  apply elem_of_cons in Hin as [->|]; [|done].
  rewrite write_all_other; [apply lookup_insert_eq|].
  intros f' Hf' E. apply plot_filename_inj in E. by subst.
Qed.

Lemma makedirs_ok (d : string) (w : world) :
  d ∈ dirs w \/ files w !! d = None ->
  exists w', makedirs_exist_ok d w = (Ok tt, w') /\
             dirs w' = {[d]} ∪ dirs w /\ files w' = files w /\
             figures w' = figures w /\ clock w' = clock w.
Proof.
  intros H. unfold makedirs_exist_ok.
  destruct (decide (d ∈ dirs w)) as [Hin|Hnin].
  - exists w. split; [done|]. split; [|done].
    symmetry. apply subseteq_union_1_L. by apply singleton_subseteq_l.
  - destruct H as [?|Hf]; [done|].
    rewrite decide_False by (rewrite Hf; by intros [? ?]). by eexists.
Qed.

(** Creating the directory is idempotent. *)
Lemma makedirs_idempotent (d : string) (w w' : world) :
  makedirs_exist_ok d w = (Ok tt, w') -> makedirs_exist_ok d w' = (Ok tt, w').
Proof.
  unfold makedirs_exist_ok. intros H.
  destruct (decide (d ∈ dirs w)); [by simplify_eq; rewrite decide_True|].
  destruct (decide (is_Some (files w !! d))); [done|]. simplify_eq.
  rewrite decide_True; [done|]. simpl. apply elem_of_union_l. by apply elem_of_singleton.
Qed.

(** A supported format, names free of [/] and no directory in the way
    are enough for [save_plot] to write a format. *)
Lemma format_ok_plain (w : world) (base fmt : string) :
  lower fmt ∈ supported_formats ->
  slash ∉ chars base -> slash ∉ chars fmt ->
  plot_filename base fmt ∉ dirs w ->
  format_ok w base fmt.
Proof.
  intros Hs Hb Hf Hd. destruct (plot_filename_plain base fmt Hb Hf) as [Hname Hparent].
  split; [done|]. split.
  - right. rewrite Hparent. apply elem_of_union_l. by apply elem_of_singleton.
  - intros [Heq%elem_of_singleton|H]%elem_of_union; [|done].
    rewrite Hname in Heq.
    apply (f_equal String.length) in Heq.
    rewrite !append_length in Heq. simpl in Heq. lia.
Qed.




(** ** Failure in the middle of [save_plot] *)

Lemma save_one_inv (fig : nat) (base fmt : string) (w w' : world) :
  save_one fig base fmt w = (Ok tt, w') ->
  exists c, files w' = <[plot_filename base fmt := c]> (files w).
Proof.
  unfold save_one. intros ([] & w1 & Hsave & Hrest)%bind_Ok_inv.
  assert (files w' = files w1) as ->.
  { unfold mbind, M_bind, print, abspath in Hrest. by simplify_eq. }
  unfold savefig, savefig_target in Hsave.
  destruct (figures w !! fig) as [g|]; [|done].
  destruct (decide _); [|done]. unfold write_file in Hsave.
  repeat case_decide; simplify_eq. by eexists.
Qed.

Lemma save_loop_inv (fig : nat) (base : string) (fmts : list string) (w w' : world) :
  for_each fmts (save_one fig base) w = (Ok tt, w') ->
  (forall p, is_Some (files w !! p) -> is_Some (files w' !! p)) /\
  (forall fmt, fmt ∈ fmts -> is_Some (files w' !! plot_filename base fmt)).
Proof.
  revert w. induction fmts as [|fmt fmts IH]; intros w Hrun.
  - simpl in Hrun. unfold mret, M_ret in Hrun. simplify_eq.
    split; [done|]. by intros ? ?%elem_of_nil.
  - simpl in Hrun. apply bind_Ok_inv in Hrun as ([] & w1 & Hone & Hrest).
    apply save_one_inv in Hone as [c Hc].
    destruct (IH w1 Hrest) as [Hmono Hall]. split.
    + intros p Hp. apply Hmono. rewrite Hc.
      destruct (decide (plot_filename base fmt = p)) as [->|Hne].
      * rewrite lookup_insert_eq. by eexists.
      * by rewrite lookup_insert_ne.
    + intros f [->|Hin]%elem_of_cons; [|by apply Hall].
      apply Hmono. rewrite Hc, lookup_insert_eq. by eexists.
Qed.

(** C8, as the code has it.  The formats are written one after another.
    When a format cannot be encoded the call fails at that format: the
    files of the formats before it stay written, nothing else is
    written.  When the call succeeds a file exists for every requested
    format. *)
Theorem save_plot_stops_at_failure (w : world) (fig : nat) (g : figure)
    (plot_name : string) (before after : list string) (bad : string) :
  let base_name := plot_name +:+ "_" +:+ strftime_stamp (clock w) in
  figures w !! fig = Some g ->
  plots_dir ∈ dirs w \/ files w !! plots_dir = None ->
  (forall fmt, fmt ∈ before -> format_ok w base_name fmt) ->
  lower bad ∉ supported_formats ->
  (exists w',
     save_plot fig plot_name (before ++ bad :: after) w = (Raise ValueError, w') /\
     (forall fmt, fmt ∈ before ->
        files w' !! plot_filename base_name fmt = Some (rendered g fmt)) /\
     (forall p, (forall fmt, fmt ∈ before -> p <> plot_filename base_name fmt) ->
        files w' !! p = files w !! p)) /\
  (forall formats w',
     save_plot fig plot_name formats w = (Ok base_name, w') ->
     forall fmt, fmt ∈ formats -> is_Some (files w' !! plot_filename base_name fmt)).
Proof.
  intros base_name Hg Hdir Hok Hbad. split.
  - destruct (makedirs_ok plots_dir w Hdir) as (w1 & Hmk & Hd1 & Hf1 & Hfig1 & Hclk1).
    destruct (save_loop_ok fig g base_name before w1) as (w2 & Hloop & Hf2 & Hd2 & Hfig2).
    { by rewrite Hfig1. }
    { intros fmt Hin. rewrite Hd1. apply (Hok fmt Hin). }
    exists w2. split; [|split].
    + rewrite save_plot_unfold.
      erewrite bind_Ok by exact Hmk.
      apply bind_Raise. rewrite for_each_app.
      erewrite bind_Ok by exact Hloop. simpl. apply bind_Raise.
      apply (save_one_unsupported fig g); [congruence | done].
    + intros fmt Hin. rewrite Hf2, Hf1. by apply write_all_written.
    + intros p Hp. rewrite Hf2, Hf1. by apply write_all_other.
  - intros formats w' Hrun fmt Hin. rewrite save_plot_unfold in Hrun.
    apply bind_Ok_inv in Hrun as ([] & w1 & _ & Hrun).
    apply bind_Ok_inv in Hrun as ([] & w2 & Hloop & Hret).
    unfold mret, M_ret in Hret. simplify_eq.
    by apply (save_loop_inv fig base_name formats w1).
Qed.

Lemma sample_before_ok (fmt : string) :
  fmt ∈ ["pdf"] ->
  format_ok (world_of [] [empty_figure 1])
            ("plot" +:+ "_" +:+ strftime_stamp sample_clock) fmt.
Proof.
  intros Hin. apply list_elem_of_In in Hin. simpl in Hin.
  destruct Hin as [<-|[]]; unfold format_ok, can_write;
    apply (bool_decide_unpack _); vm_compute; exact I.
Defined.

Lemma save_plot_stops_at_failure_witness :
  let w := world_of [] [empty_figure 1] in
  exists w',
    save_plot 0 "plot" (["pdf"] ++ "xyz" :: ["png"]) w = (Raise ValueError, w') /\
    (forall fmt, fmt ∈ ["pdf"] ->
       files w' !! plot_filename ("plot" +:+ "_" +:+ strftime_stamp sample_clock) fmt
       = Some (rendered (empty_figure 1) fmt)) /\
    (forall p, (forall fmt, fmt ∈ ["pdf"] ->
                  p <> plot_filename ("plot" +:+ "_" +:+ strftime_stamp sample_clock) fmt) ->
       files w' !! p = files w !! p).
Proof.
  intros w.
  destruct (save_plot_stops_at_failure w 0 (empty_figure 1) "plot" ["pdf"] ["png"] "xyz")
    as [H _].
  - reflexivity.
  - right. reflexivity.
  - apply sample_before_ok.
  - intros Hin. apply list_elem_of_In in Hin. vm_compute in Hin.
    repeat (destruct Hin as [Hin|Hin]; [discriminate Hin|]). exact Hin.
  - exact H.
Defined.

(** C8, as stated, fails: with the formats pdf and xyz the call fails
    at xyz, and the pdf written before it is still there. *)
Lemma save_plot_leaves_earlier_files :
  ~ (forall (w w' : world) (fig : nat) (plot_name : string) (formats : list string) (e : exn),
       save_plot fig plot_name formats w = (Raise e, w') -> files w' = files w).
Proof.
  intros H.
  specialize (H (world_of [] [empty_figure 1])
                (save_plot 0 "plot" ["pdf"; "xyz"] (world_of [] [empty_figure 1])).2
                0%nat "plot" ["pdf"; "xyz"] ValueError).
  assert (Hrun : save_plot 0 "plot" ["pdf"; "xyz"] (world_of [] [empty_figure 1])
                 = (Raise ValueError,
                    (save_plot 0 "plot" ["pdf"; "xyz"] (world_of [] [empty_figure 1])).2))
    by (vm_compute; reflexivity).
  apply H in Hrun.
  apply (f_equal (fun fs => fs !! "saved_plots/plot_20240307_090500.pdf")) in Hrun.
  vm_compute in Hrun. discriminate Hrun.
Qed.

(** ** Column assignment *)

Lemma df_get_set_eq (df : DataFrame) (name : string) (c : column) :
  df_get (df_set df name c) name = Some c.
Proof.
  induction df as [|[n c0] df IH]; cbn [df_get df_set].
  - by case_decide.
  - case_decide; cbn [df_get]; by case_decide.
Qed.

Lemma df_get_set_ne (df : DataFrame) (name other : string) (c : column) :
  name <> other -> df_get (df_set df name c) other = df_get df other.
Proof.
  intros Hne. induction df as [|[n c0] df IH]; cbn [df_get df_set].
  - by case_decide.
  - case_decide; cbn [df_get]; case_decide; congruence.
Qed.

Lemma df_set_same (df : DataFrame) (name : string) (c : column) :
  df_get df name = Some c -> df_set df name c = df.
Proof.
  induction df as [|[n c0] df IH]; cbn [df_get df_set]; [done|].
  case_decide; intros Hget; [by simplify_eq|]. by rewrite IH.
Qed.

Lemma numeric_inv (c : column) (w w' : world) (vals : Series) :
  numeric c w = (Ok vals, w') -> w' = w /\ forall w0, numeric c w0 = (Ok vals, w0).
Proof.
  destruct c as [xs|zs|ss|ns]; simpl; intros H; try done;
    unfold mret, M_ret in H; simplify_eq; done.
Qed.

Lemma assign_moving_averages_inv (df df' : DataFrame) (w w' : world) :
  assign_moving_averages df w = (Ok df', w') ->
  w' = w /\
  exists c xs, df_get df "price" = Some c /\
    (forall w0, numeric c w0 = (Ok xs, w0)) /\
    df' = df_set (df_set df "MA5" (NumCol (MA5 xs))) "MA10" (NumCol (MA10 xs)).
Proof.
  unfold assign_moving_averages. cbv zeta. intros H.
  apply bind_Ok_inv in H as (c & w1 & [Hc ->]%getitem_inv & H).
  apply bind_Ok_inv in H as (xs & w2 & [-> Hxs]%numeric_inv & H).
  apply bind_Ok_inv in H as (c2 & w3 & [Hc2 ->]%getitem_inv & H).
  rewrite df_get_set_ne in Hc2 by done. simplify_eq.
  apply bind_Ok_inv in H as (xs2 & w4 & Hn2 & H).
  rewrite Hxs in Hn2. injection Hn2 as <- <-.
  unfold mret, M_ret in H. injection H as <- <-.
  split; [done|]. by exists c, xs.
Qed.

Lemma to_datetime_ns_inv (c : column) (w w' : world) (dt : column) :
  to_datetime_ns c w = (Ok dt, w') ->
  w' = w /\ forall w0, to_datetime_ns c w0 = (Ok dt, w0).
Proof.
  destruct c as [xs|zs|ss|ns]; simpl; try done.
  - destruct (forallb _ _); [|done].
    unfold mret, M_ret. intros H. by injection H as <- <-.
  - unfold mret, M_ret. intros H. by injection H as <- <-.
Qed.

Lemma assign_timestamp_inv (df df' : DataFrame) (w w' : world) :
  assign_timestamp df w = (Ok df', w') ->
  w' = w /\
  exists c dt, df_get df "timestamp_ns" = Some c /\
    (forall w0, to_datetime_ns c w0 = (Ok dt, w0)) /\
    df' = df_set df "timestamp" dt.
Proof.
  unfold assign_timestamp. intros H.
  apply bind_Ok_inv in H as (c & w1 & [Hc ->]%getitem_inv & H).
  apply bind_Ok_inv in H as (dt & w2 & [-> Hdt]%to_datetime_ns_inv & H).
  unfold mret, M_ret in H. injection H as <- <-.
  split; [done|]. by exists c, dt.
Qed.

(** C9, as the code has it.  The aggregation steps change nothing in
    the world (files included) and give the same result whenever they
    are run on the same table, but they do update the loaded table:
    the moving averages are stored in it as columns [MA5] and [MA10],
    the converted timestamps as column [timestamp].  Every other column
    is left as it was, and running the step again on the updated table
    changes nothing further. *)
Theorem aggregation_updates_table (df df' : DataFrame) (w w' : world) :
  (assign_moving_averages df w = (Ok df', w') ->
     w' = w /\
     (forall w0, assign_moving_averages df w0 = (Ok df', w0)) /\
     (exists c xs, df_get df "price" = Some c /\ numeric c w = (Ok xs, w) /\
        df_get df' "MA5" = Some (NumCol (rolling_mean 5 xs)) /\
        df_get df' "MA10" = Some (NumCol (rolling_mean 10 xs))) /\
     (forall name, name <> "MA5" -> name <> "MA10" -> df_get df' name = df_get df name) /\
     assign_moving_averages df' w = (Ok df', w)) /\
  (assign_timestamp df w = (Ok df', w') ->
     w' = w /\
     (forall w0, assign_timestamp df w0 = (Ok df', w0)) /\
     (exists c dt, df_get df "timestamp_ns" = Some c /\ to_datetime_ns c w = (Ok dt, w) /\
        df_get df' "timestamp" = Some dt) /\
     (forall name, name <> "timestamp" -> df_get df' name = df_get df name) /\
     assign_timestamp df' w = (Ok df', w)).
Proof.
  split.
  - intros (-> & c & xs & Hc & Hxs & ->)%assign_moving_averages_inv.
    assert (Hrun : forall d w0, df_get d "price" = Some c ->
              assign_moving_averages d w0
              = (Ok (df_set (df_set d "MA5" (NumCol (MA5 xs))) "MA10" (NumCol (MA10 xs))), w0)).
    { intros d w0 Hd. unfold assign_moving_averages. cbv zeta.
      erewrite bind_Ok by (by apply getitem_Some).
      erewrite bind_Ok by apply Hxs.
      erewrite bind_Ok by (apply getitem_Some; by rewrite df_get_set_ne).
      erewrite bind_Ok by apply Hxs. reflexivity. }
    split; [done|]. split; [intros w0; by apply Hrun|].
    split; [|split].
    + exists c, xs. split; [done|]. split; [apply Hxs|]. split.
      * rewrite df_get_set_ne by done. apply df_get_set_eq.
      * apply df_get_set_eq.
    + intros name H5 H10. by rewrite !df_get_set_ne.
    + rewrite Hrun by (by rewrite !df_get_set_ne).
      rewrite (df_set_same _ "MA5").
      * by rewrite (df_set_same _ "MA10") by apply df_get_set_eq.
      * rewrite df_get_set_ne by done. apply df_get_set_eq.
  - intros (-> & c & dt & Hc & Hdt & ->)%assign_timestamp_inv.
    assert (Hrun : forall d w0, df_get d "timestamp_ns" = Some c ->
              assign_timestamp d w0 = (Ok (df_set d "timestamp" dt), w0)).
    { intros d w0 Hd. unfold assign_timestamp.
      erewrite bind_Ok by (by apply getitem_Some).
      erewrite bind_Ok by apply Hdt. reflexivity. }
    split; [done|]. split; [intros w0; by apply Hrun|].
    split; [|split].
    + exists c, dt. split; [done|]. split; [apply Hdt|]. apply df_get_set_eq.
    + intros name Hn. by rewrite df_get_set_ne.
    + rewrite Hrun by (by rewrite df_get_set_ne).
      by rewrite df_set_same by apply df_get_set_eq.
Qed.

Lemma aggregation_updates_table_witness :
  let df' := sample_prices
             ++ [("MA5", NumCol [NaN; NaN; NaN]); ("MA10", NumCol [NaN; NaN; NaN])] in
  let w := world_of [] [] in
  (forall w0, assign_moving_averages sample_prices w0 = (Ok df', w0)) /\
  (forall name, name <> "MA5" -> name <> "MA10" ->
     df_get df' name = df_get sample_prices name) /\
  assign_moving_averages df' w = (Ok df', w).
Proof.
  intros df' w.
  destruct (aggregation_updates_table sample_prices df' w w) as [H _].
  destruct H as (_ & Hdet & _ & Hframe & Hagain); [reflexivity|].
  exact (conj Hdet (conj Hframe Hagain)).
Defined.

(** C9, as stated, fails: after the moving averages have been computed
    the loaded price table has two more columns. *)
Lemma aggregation_mutates_table :
  ~ (forall (df df' : DataFrame) (w w' : world),
       assign_moving_averages df w = (Ok df', w') -> df' = df).
Proof.
  intros H.
  specialize (H sample_prices
                (sample_prices
                 ++ [("MA5", NumCol [NaN; NaN; NaN]); ("MA10", NumCol [NaN; NaN; NaN])])
                (world_of [] []) (world_of [] []) eq_refl).
  discriminate H.
Qed.

(** ** [create_chart] *)

Lemma keeps_files_median_throughput (df : DataFrame) : keeps_files (median_throughput df).
Proof. unfold median_throughput. keeps. Qed.

Lemma keeps_files_plot_bar (accepts : artist -> bool) (t : Table) :
  keeps_files (plot_bar accepts t).
Proof.
  unfold plot_bar. destruct (t_columns t) as [|c cols]; [keeps|].
  apply keeps_files_bind; [keeps|]. intros fig.
  apply keeps_files_bind; [|keeps].
  apply keeps_files_for_each. intros [j l]. simpl.
  destruct l; try keeps. case_decide; keeps.
Qed.

Lemma savefig_inv (fig : nat) (fname : string) (dpi : option nat) (tight : bool)
    (format : option string) (w w' : world) :
  savefig fig fname dpi tight format w = (Ok tt, w') ->
  exists g, figures w !! fig = Some g /\
    w' = set_files (fun fs => <[(savefig_target fname format).1 :=
                                 Image g (savefig_target fname format).2 dpi tight]> fs) w.
Proof.
  unfold savefig. destruct (savefig_target fname format) as [path fmt].
  destruct (figures w !! fig) as [g|]; [|done].
  destruct (decide _); [|done]. unfold write_file.
  repeat case_decide; intros Hw; simplify_eq. by exists g.
Qed.

Example savefig_targets :
  savefig_target "throughput_chart.png" None = ("throughput_chart.png", "png") /\
  savefig_target "plots/x.PDF" None = ("plots/x.PDF", "pdf") /\
  savefig_target "chart" None = ("chart.png", "png") /\
  savefig_target "a.b/chart." None = ("a.b/chart.png", "png") /\
  savefig_target "saved_plots/p.pdf" (Some "pdf") = ("saved_plots/p.pdf", "pdf").
Proof. repeat split; reflexivity. Qed.

Lemma create_chart_inv (accepts : artist -> bool) (csv_file output_image : string)
    (w w' : world) :
  loadable w csv_file ->
  create_chart accepts csv_file output_image w = (Ok tt, w') ->
  dirs w' = dirs w /\
  exists img, files w' = <[(savefig_target output_image None).1 := img]> (files w).
Proof.
  intros [Hd [df Hdf]] Hrun. unfold create_chart in Hrun.
  erewrite bind_Ok in Hrun; cycle 1.
  { apply try_except_Ok. erewrite bind_Ok by (by apply read_csv_loadable). reflexivity. }
  simpl in Hrun.
  apply bind_Ok_inv in Hrun as (table & w1 & H1 & Hrun).
  apply bind_Ok_inv in Hrun as (fig & w2 & H2 & Hrun).
  apply bind_Ok_inv in Hrun as ([] & w3 & H3 & Hrun).
  apply bind_Ok_inv in Hrun as ([] & w4 & H4 & Hrun).
  apply bind_Ok_inv in Hrun as ([] & w5 & H5 & Hrun).
  pose proof (keeps_files_median_throughput df w) as K1. rewrite H1 in K1.
  pose proof (keeps_files_plot_bar accepts table w1) as K2. rewrite H2 in K2.
  apply savefig_inv in H5 as (g & Hg & ->).
  unfold set_title, update_axes, update_figure in H3. unfold figtext, update_figure in H4.
  unfold print in Hrun. simplify_eq. simpl in *.
  destruct K1 as [K1 K1'], K2 as [K2 K2']. split; [congruence|].
  eexists. by rewrite K2, K1.
Qed.

(** C10, as the code has it.  A run of [create_chart] that loads its
    input and returns has written exactly one file, and no directory:
    the file is the caller's path when that path has an extension (as
    the default [throughput_chart.png] has), and the path with [.png]
    appended when it has none.  The name does not depend on the clock.
    A second successful run writes the same path and replaces the file
    of the first. *)
Theorem create_chart_output (accepts : artist -> bool) (csv_file output_image : string)
    (w w' : world) :
  loadable w csv_file ->
  create_chart accepts csv_file output_image w = (Ok tt, w') ->
  let target := if decide (extension output_image = "")
                then rstrip_dots output_image +:+ ".png" else output_image in
  (exists img, files w' = <[target := img]> (files w)) /\
  dirs w' = dirs w /\
  (savefig_target "throughput_chart.png" None).1 = "throughput_chart.png" /\
  (forall w'', loadable w' csv_file ->
     create_chart accepts csv_file output_image w' = (Ok tt, w'') ->
     (exists img', files w'' = <[target := img']> (files w)) /\
     dom (files w'') = dom (files w')).
Proof.
  intros Hload Hrun target.
  assert (Ht : (savefig_target output_image None).1 = target).
  { unfold savefig_target, target. by destruct (decide _). }
  destruct (create_chart_inv _ _ _ _ _ Hload Hrun) as [Hd [img Hf]]. rewrite Ht in Hf.
  split; [by exists img|]. split; [done|]. split; [reflexivity|].
  intros w'' Hload' Hrun'.
  destruct (create_chart_inv _ _ _ _ _ Hload' Hrun') as [Hd' [img' Hf']]. rewrite Ht in Hf'.
  split.
  - exists img'. by rewrite Hf', Hf, insert_insert_eq.
  - rewrite Hf', Hf, !dom_insert_L. by rewrite (assoc_L (∪)), (idemp_L (∪)).
Qed.

Lemma create_chart_output_witness :
  let w := world_of [("results.csv", Csv (throughput_frame sample_records))] [] in
  let w' := (create_chart_default draws_all w).2 in
  (exists img, files w' = <["throughput_chart.png" := img]> (files w)) /\
  dirs w' = dirs w.
Proof.
  intros w w'.
  destruct (create_chart_output draws_all "results.csv" "throughput_chart.png" w w')
    as (Hfile & Hdirs & _).
  - split; [apply (bool_decide_unpack _); vm_compute; exact I|].
    eexists. reflexivity.
  - vm_compute. reflexivity.
  - exact (conj Hfile Hdirs).
Defined.

(** C10, as stated, fails: for an output path without an extension the
    chart is not written to that path but to the path with [.png]
    appended. *)
Lemma create_chart_appends_extension :
  ~ (forall (accepts : artist -> bool) (csv_file output_image : string) (w w' : world),
       loadable w csv_file ->
       create_chart accepts csv_file output_image w = (Ok tt, w') ->
       is_Some (files w' !! output_image)).
Proof.
  intros H.
  set (w := world_of [("results.csv", Csv (throughput_frame sample_records))] []).
  specialize (H draws_all "results.csv" "chart" w (create_chart draws_all "results.csv" "chart" w).2).
  destruct H as [img Himg].
  - split; [apply (bool_decide_unpack _); vm_compute; exact I|].
    eexists. reflexivity.
  - vm_compute. reflexivity.
  - vm_compute in Himg. discriminate Himg.
Qed.

Example create_chart_extension_appended :
  let w := world_of [("results.csv", Csv (throughput_frame sample_records))] [] in
  let r := create_chart draws_all "results.csv" "chart" w in
  r.1 = Ok tt /\ files r.2 !! "chart" = None /\ is_Some (files r.2 !! "chart.png").
Proof.
  split; [vm_compute; reflexivity|]. split; [vm_compute; reflexivity|].
  vm_compute. eexists. reflexivity.
Qed.

(** ** The statistics of [create_price_analysis_plots] *)



(** *** The deviation of the returns *)


















(** * Further properties of the scripts *)

(** ** Moving averages over missing values *)






(** ** Too few prices *)

Lemma pct_NaN (x : float) : pct x NaN = NaN.
Proof. by destruct x. Qed.

Lemma price_returns_length (xs : Series) :
  (length (price_returns xs) <= length xs - 1)%nat.
Proof.
  unfold price_returns. rewrite pct_change_lagged.
  pose proof (ffill_from_length NaN xs) as Hlen. fold (ffill xs) in Hlen.
  destruct (ffill xs) as [|x d]; [simpl; lia|].
  rewrite lagged_cons, pct_NaN. simpl dropna.
  etrans; [apply List.filter_length_le|].
  rewrite length_zip_with. simpl in *. lia.
Qed.

(** X4. Too few prices.  The returns are at most one fewer than the
    prices; with at most two prices there is at most one return, its
    sample deviation is undefined and the annualized volatility that
    is printed is NaN; with at most one price the mean return is NaN
    as well. *)
Theorem volatility_needs_three_prices (Qsqrt : Q -> Q) (xs : Series) :
  (length (price_returns xs) <= length xs - 1)%nat /\
  ((length xs <= 2)%nat -> annualized_volatility Qsqrt (price_returns xs) = NaN) /\
  ((length xs <= 1)%nat -> mean (price_returns xs) = NaN).
Proof.
  pose proof (price_returns_length xs) as Hlen.
  split; [done|]. split; intros Hn.
  - unfold annualized_volatility, std, var.
    assert (Hd : (length (dropna (price_returns xs)) <= 1)%nat).
    { etrans; [apply List.filter_length_le|]. lia. }
    destruct (Nat.leb_spec (length (dropna (price_returns xs))) 1); [done | lia].
  - destruct (price_returns xs); [done | simpl in Hlen; lia].
Qed.

(** ** The extremes of the price summary *)

Lemma float_le_refl (x : float) : x <> NaN -> float_le x x.
Proof. destruct x; simpl; try done. intros _. apply Qle_refl. Qed.

Lemma sorted_head_least (s : Series) (x : float) :
  StronglySorted float_le s -> Forall (fun y => y <> NaN) s -> x ∈ s ->
  float_le (hd NaN s) x.
Proof.
  intros Hs Hna Hx. destruct s as [|y s]; [by apply elem_of_nil in Hx|].
  apply StronglySorted_inv in Hs as [_ Hall]. simpl.
  apply elem_of_cons in Hx as [->|Hx].
  - apply float_le_refl. by apply Forall_cons in Hna as [? _].
  - eapply Forall_forall in Hall; [exact Hall | exact Hx].
Qed.

Lemma sorted_last_greatest (s : Series) (x : float) :
  StronglySorted float_le s -> Forall (fun y => y <> NaN) s -> x ∈ s ->
  float_le x (List.last s NaN).
Proof.
  intros Hs. revert x. induction Hs as [|y s Hs IH Hall]; intros x Hna Hx.
  - by apply elem_of_nil in Hx.
  - apply Forall_cons in Hna as [Hy Hna].
    destruct s as [|z s].
    + apply list_elem_of_singleton in Hx as ->. by apply float_le_refl.
    + change (List.last (y :: z :: s) NaN) with (List.last (z :: s) NaN).
      apply elem_of_cons in Hx as [->|Hx]; [|by apply IH].
      eapply Forall_forall in Hall; [exact Hall|].
      destruct (exists_last (l:=z :: s)) as (l & u & E); [done|].
      rewrite E, last_last. apply elem_of_app. right. by left.
Qed.

(** X6. The summary of a series with at least one price that is not
    missing: it counts the prices that are not missing, and its
    minimum and its maximum are two of them, the one at most and the
    other at least every one of them. *)
Theorem price_summary_extremes (Qsqrt : Q -> Q) (xs : Series) :
  filter (fun x => x <> NaN) xs <> [] ->
  let s := describe Qsqrt xs in
  s_count s = length (filter (fun x => x <> NaN) xs) /\
  s_min s ∈ filter (fun x => x <> NaN) xs /\
  s_max s ∈ filter (fun x => x <> NaN) xs /\
  (forall x, x ∈ filter (fun x => x <> NaN) xs ->
     float_le (s_min s) x /\ float_le x (s_max s)).
Proof.
  intros Hne s. rewrite <- dropna_filter in *.
  set (sorted := isort fleb (dropna xs)).
  assert (Hin : forall x, x ∈ sorted <-> x ∈ dropna xs) by (intros x; apply isort_elem_of).
  assert (Hne' : sorted <> []).
  { intros E. destruct (dropna xs) as [|x l]; [done|].
    assert (x ∈ sorted) as Hx by (apply Hin; by left). rewrite E in Hx.
    by apply elem_of_nil in Hx. }
  pose proof (sorted_observations xs) as Hs. fold sorted in Hs.
  assert (Hna : Forall (fun y => y <> NaN) sorted).
  { apply Forall_forall. intros y Hy%Hin. rewrite dropna_filter in Hy.
    by apply list_elem_of_filter in Hy as [? _]. }
  assert (Hmin : s_min s = hd NaN sorted).
  { unfold s, describe, series_min. simpl. fold sorted. by destruct sorted. }
  assert (Hmax : s_max s = List.last sorted NaN) by done.
  rewrite Hmin, Hmax. split; [done|]. split; [|split].
  - apply Hin. destruct sorted; [done | by left].
  - apply Hin. destruct (exists_last Hne') as (l & x & ->).
    rewrite last_last. apply elem_of_app. right. by left.
  - intros x Hx%Hin. split; [by apply sorted_head_least | by apply sorted_last_greatest].
Qed.

Lemma price_summary_extremes_witness :
  let xs := [Finite 100; NaN; Finite 110; Finite 99] in
  let s := describe sample_sqrt xs in
  s_count s = length (filter (fun x => x <> NaN) xs) /\
  s_min s ∈ filter (fun x => x <> NaN) xs /\
  s_max s ∈ filter (fun x => x <> NaN) xs /\
  (forall x, x ∈ filter (fun x => x <> NaN) xs ->
     float_le (s_min s) x /\ float_le x (s_max s)).
Proof.
  apply (price_summary_extremes sample_sqrt [Finite 100; NaN; Finite 110; Finite 99]).
  vm_compute. discriminate.
Defined.

Example price_summary_of_four_prices :
  let s := describe sample_sqrt [Finite 100; NaN; Finite 110; Finite 99] in
  s_count s = 3%nat /\ s_min s = Finite 99 /\ s_max s = Finite 110.
Proof. vm_compute. done. Qed.

(** ** The median does not depend on the order of the rows *)


Lemma canon_feq (x y : float) : canon x = canon y <-> feq x y.
Proof.
  destruct x as [p| | |], y as [q| | |]; simpl; try (split; (done || discriminate)).
  split.
  - intros H. injection H as H. by apply Qred_eq_iff.
  - intros H. f_equal. by apply Qred_complete.
Qed.

Lemma canon_idemp (x : float) : canon (canon x) = canon x.
Proof. destruct x; simpl; [|done..]. by rewrite Qcanon.Qred_involutive. Qed.

Lemma fleb_canon (x y : float) : fleb (canon x) (canon y) = fleb x y.
Proof.
  destruct x as [p| | |], y as [q| | |]; simpl; try done.
  by rewrite !Qred_correct.
Qed.

Lemma dropna_canon (xs : Series) : dropna (map canon xs) = map canon (dropna xs).
Proof.
  induction xs as [|x xs IH]; simpl; [done|].
  replace (notna (canon x)) with (notna x) by (by destruct x).
  destruct (notna x); simpl; by rewrite IH.
Qed.

Lemma fleb_antisym (x y : float) :
  fleb x y = true -> fleb y x = true -> feq x y.
Proof.
  destruct x as [p| | |], y as [q| | |]; simpl; try done.
  rewrite !Qle_bool_iff. apply Qle_antisym.
Qed.

Lemma filter_perm {A} (p : A -> bool) (l l' : list A) :
  l ≡ₚ l' -> List.filter p l ≡ₚ List.filter p l'.
Proof.
  induction 1 as [|x l l' _ IH|x y l|l l' l'' _ IH1 _ IH2]; simpl.
  - done.
  - destruct (p x); [by constructor | done].
  - destruct (p x), (p y); try done. apply Permutation_swap.
  - by etrans.
Qed.

(** The sorted observations of two series that are permutations of
    each other agree up to representation, position by position. *)
Lemma sorted_observations_perm (xs ys : Series) :
  xs ≡ₚ ys ->
  map canon (isort fleb (dropna xs)) = map canon (isort fleb (dropna ys)).
Proof.
  intros Hperm.
  rewrite <- !(isort_map canon fleb fleb) by apply fleb_canon.
  rewrite <- !dropna_canon.
  apply (StronglySorted_unique_strong (fun a b => fleb a b = true)).
  - intros x1 x2 H1 H2 H12 H21.
    apply isort_elem_of, list_elem_of_In, filter_In in H1 as [H1 _].
    apply isort_elem_of, list_elem_of_In, filter_In in H2 as [H2 _].
    apply in_map_iff in H1 as (a & <- & _). apply in_map_iff in H2 as (b & <- & _).
    rewrite <- (canon_idemp a), <- (canon_idemp b).
    apply canon_feq. by apply fleb_antisym.
  - apply (isort_sorted fleb (fun x => notna x = true) fleb_total fleb_trans),
      dropna_observed.
  - apply (isort_sorted fleb (fun x => notna x = true) fleb_total fleb_trans),
      dropna_observed.
  - rewrite !isort_perm. apply filter_perm. by apply Permutation_map.
Qed.

Lemma canon_nth (l1 l2 : Series) (k : nat) :
  map canon l1 = map canon l2 -> feq (nth k l1 NaN) (nth k l2 NaN).
Proof.
  revert l2 k. induction l1 as [|x l1 IH]; intros [|y l2] k H; try done.
  - by destruct k.
  - injection H as Hxy H. destruct k as [|k]; simpl; [by apply canon_feq | by apply IH].
Qed.

Lemma fadd_feq (x x' y y' : float) : feq x x' -> feq y y' -> feq (fadd x y) (fadd x' y').
Proof.
  destruct x, x', y, y'; simpl; try done. intros -> ->. reflexivity.
Qed.

Lemma halve_feq (x x' : float) : feq x x' -> feq (fdiv x (Finite 2)) (fdiv x' (Finite 2)).
Proof.
  destruct x, x'; simpl; try done. intros ->. reflexivity.
Qed.

Lemma median_perm (xs ys : Series) : xs ≡ₚ ys -> feq (median xs) (median ys).
Proof.
  intros Hperm. pose proof (sorted_observations_perm xs ys Hperm) as Hs.
  assert (Hlen : length (isort fleb (dropna xs)) = length (isort fleb (dropna ys))).
  { apply (f_equal length) in Hs. by rewrite !length_map in Hs. }
  unfold median. rewrite Hlen.
  destruct (length (isort fleb (dropna ys)) =? 0)%nat; [done|].
  destruct (Nat.odd _).
  - by apply canon_nth.
  - apply halve_feq, fadd_feq; by apply canon_nth.
Qed.

(** X7. The grouped median does not depend on the order of the rows
    of the results file: reordering the records leaves the median of
    every (pattern, impl) group the same, up to the representation of
    the rational. *)
Theorem grouped_median_ignores_row_order (p i : string) (recs recs' : list BenchmarkRecord) :
  recs ≡ₚ recs' ->
  feq (median (group_ops p i recs)) (median (group_ops p i recs')).
Proof.
  intros Hperm. apply median_perm. unfold group_ops.
  by apply Permutation_map, filter_perm.
Qed.

Lemma grouped_median_ignores_row_order_witness :
  feq (median (group_ops "bursty" "virtual" sample_records))
      (median (group_ops "bursty" "virtual" (rev sample_records))).
Proof.
  apply (grouped_median_ignores_row_order "bursty" "virtual" sample_records (rev sample_records)).
  apply Permutation_rev.
Defined.

(** ** Counting rows by label *)

Lemma count_label_cons (x k : label) (l : list label) :
  count_label k (x :: l)
  = ((if bool_decide (x = k) then 1 else 0) + count_label k l)%nat.
Proof. unfold count_label. simpl. by destruct (bool_decide (x = k)). Qed.

Lemma count_label_elem_of (k : label) (ls : list label) :
  k ∈ ls -> (1 <= count_label k ls)%nat.
Proof.
  induction ls as [|x ls IH]; intros Hk; [by apply elem_of_nil in Hk|].
  rewrite count_label_cons. apply elem_of_cons in Hk as [->|Hk].
  - rewrite bool_decide_eq_true_2 by done. lia.
  - specialize (IH Hk). lia.
Qed.

Lemma sum_list_perm (l l' : list nat) : l ≡ₚ l' -> sum_list l = sum_list l'.
Proof. induction 1; simpl in *; lia. Qed.

Lemma sum_list_add {A} (f g : A -> nat) (l : list A) :
  sum_list (map (fun k => f k + g k)%nat l) = (sum_list (map f l) + sum_list (map g l))%nat.
Proof. induction l as [|x l IH]; simpl in *; lia. Qed.

Lemma indicator_sum (x : label) (D : list label) :
  NoDup D ->
  sum_list (map (fun k => if bool_decide (x = k) then 1 else 0)%nat D)
  = if decide (x ∈ D) then 1%nat else 0%nat.
Proof.
  induction 1 as [|y D Hy HD IH]; [done|]. cbn [map sum_list sum_list_with]. rewrite IH.
  destruct (decide (x = y)) as [->|Hne].
  - rewrite bool_decide_eq_true_2 by done.
    destruct (decide (y ∈ D)); [done|].
    destruct (decide (y ∈ y :: D)) as [_|Hn]; [done|]. exfalso. apply Hn. by left.
  - rewrite bool_decide_eq_false_2 by done.
    destruct (decide (x ∈ D)) as [Hin|Hnin].
    + destruct (decide (x ∈ y :: D)) as [_|Hn]; [done|]. exfalso. apply Hn. by right.
    + destruct (decide (x ∈ y :: D)) as [[->|?]%elem_of_cons|_]; done.
Qed.

Lemma count_sum (D ls : list label) :
  NoDup D -> (forall x, x ∈ ls -> x ∈ D) ->
  sum_list (map (fun k => count_label k ls) D) = length ls.
Proof.
  intros HD. induction ls as [|x ls IH]; intros Hsub.
  - clear. induction D as [|k D IHD]; [done | exact IHD].
  - erewrite map_ext by (intros k; apply count_label_cons).
    rewrite sum_list_add, indicator_sum by done.
    rewrite decide_True by (apply Hsub; by left).
    rewrite IH by (intros y Hy; apply Hsub; by right). done.
Qed.

Lemma map_fst_graph {A B} (g : A -> B) (l : list A) :
  map fst (map (fun k => (k, g k)) l) = l.
Proof. induction l as [|x l IH]; simpl; [done | by rewrite IH]. Qed.

Lemma map_snd_graph {A B} (g : A -> B) (l : list A) :
  map snd (map (fun k => (k, g k)) l) = map g l.
Proof. induction l as [|x l IH]; simpl; [done | by rewrite IH]. Qed.

Lemma elem_of_unique (ls : list label) (x : label) : x ∈ unique ls <-> x ∈ ls.
Proof.
  induction ls as [|l ls IH]; [done|]. cbn [unique].
  rewrite !elem_of_cons, list_elem_of_In, filter_In, <- list_elem_of_In, IH.
  destruct (decide (x = l)) as [->|Hne]; [tauto|].
  rewrite bool_decide_eq_false_2 by done. simpl. tauto.
Qed.

Lemma NoDup_list_filter {A} (f : A -> bool) (l : list A) :
  NoDup l -> NoDup (List.filter f l).
Proof.
  induction 1 as [|x l Hx _ IH]; [constructor|]. cbn [List.filter].
  destruct (f x); [|done]. apply NoDup_cons. split; [|done].
  intros [H _]%list_elem_of_In%filter_In. by apply Hx, list_elem_of_In.
Qed.

Lemma NoDup_unique (ls : list label) : NoDup (unique ls).
Proof.
  induction ls as [|l ls IH]; [constructor|]. cbn [unique].
  apply NoDup_cons. split.
  - intros [_ H]%list_elem_of_In%filter_In.
    by rewrite bool_decide_eq_true_2 in H.
  - by apply NoDup_list_filter.
Qed.

Lemma unique_perm (ls : list label) : unique ls ≡ₚ remove_dups ls.
Proof.
  apply NoDup_Permutation; [apply NoDup_unique | apply NoDup_remove_dups|].
  intros x. by rewrite elem_of_unique, elem_of_remove_dups.
Qed.

Lemma value_counts_perm (c : column) :
  value_counts c
  ≡ₚ map (fun k => (k, count_label k (omap id (labels_of c))))
         (remove_dups (omap id (labels_of c))).
Proof. unfold value_counts. rewrite isort_perm. apply Permutation_map, unique_perm. Qed.

(** Labels that occur equally often stay in the order of their first
    appearance. *)
Example value_counts_of_sides :
  value_counts (StrCol ["BUY"; "SELL"; "SELL"; "BUY"; "HOLD"])
  = [(LStr "BUY", 2%nat); (LStr "SELL", 2%nat); (LStr "HOLD", 1%nat)].
Proof. reflexivity. Qed.

Lemma groupby_size_perm (c : column) :
  groupby_size c
  ≡ₚ map (fun k => (k, count_label k (omap id (labels_of c))))
         (remove_dups (omap id (labels_of c))).
Proof.
  unfold groupby_size, sort_labels. apply Permutation_map, isort_perm.
Qed.


Lemma counted_total (ls : list label) (vc : list (label * nat)) :
  vc ≡ₚ map (fun k => (k, count_label k ls)) (remove_dups ls) ->
  counts_rows ls vc.
Proof.
  intros Hperm.
  assert (Hfst : map fst vc ≡ₚ remove_dups ls).
  { rewrite Hperm. by rewrite map_fst_graph. }
  split; [|split; [|split]].
  - rewrite Hfst. apply NoDup_remove_dups.
  - intros k. by rewrite Hfst, elem_of_remove_dups.
  - intros k n Hkn. rewrite Hperm in Hkn.
    apply list_elem_of_In, in_map_iff in Hkn as (k' & E & Hk').
    injection E as -> <-. split; [done|].
    apply count_label_elem_of. apply list_elem_of_In in Hk'.
    by rewrite elem_of_remove_dups in Hk'.
  - rewrite (sum_list_perm _ (map snd (map (fun k => (k, count_label k ls)) (remove_dups ls))))
      by (by apply Permutation_map).
    rewrite map_snd_graph. apply count_sum; [apply NoDup_remove_dups|].
    intros x. by rewrite elem_of_remove_dups.
Qed.

Lemma observed_labels_length (xs : Series) :
  length (omap id (map float_label xs)) = count_defined xs.
Proof.
  unfold count_defined, dropna. induction xs as [|x xs IH]; [done|].
  destruct x; simpl; [f_equal; exact IH.. | exact IH].
Qed.

(** X8. Every row is counted exactly once.  [value_counts], the same
    after [sort_index], and [groupby(...).size()] hold one row per
    distinct label of the column, with the number of its occurrences
    (at least one), and the counts add up to the number of cells that
    are not missing: all cells for an integer, string or datetime
    column, the observations for a float column. *)
Theorem value_counts_total (c : column) :
  let ls := omap id (labels_of c) in
  counts_rows ls (value_counts c) /\
  counts_rows ls (sort_index (value_counts c)) /\
  counts_rows ls (groupby_size c) /\
  match c with
  | NumCol xs => length ls = count_defined xs
  | _ => length ls = col_length c
  end.
Proof.
  intros ls. split; [|split; [|split]].
  - apply counted_total, value_counts_perm.
  - apply counted_total. unfold sort_index. rewrite isort_perm. apply value_counts_perm.
  - apply counted_total, groupby_size_perm.
  - unfold ls. destruct c as [xs|zs|ss|ns]; simpl.
    + apply observed_labels_length.
    + by rewrite omap_id_map_Some, length_map.
    + by rewrite omap_id_map_Some, length_map.
    + by rewrite omap_id_map_Some, length_map.
Qed.

(** ** The order of the bars and of the time axis *)

Lemma remove_dups_map_inj {A B} `{EqDecision A} `{EqDecision B} (f : A -> B) (l : list A) :
  (forall x y, f x = f y -> x = y) ->
  remove_dups (map f l) = map f (remove_dups l).
Proof.
  intros Hinj. induction l as [|x l IH]; [done|].
  cbn [map remove_dups]. rewrite IH.
  destruct (decide_rel elem_of x l) as [Hin|Hnin];
    destruct (decide_rel elem_of (f x) (map f l)) as [Hin'|Hnin']; try done.
  - exfalso. apply Hnin'. apply list_elem_of_In, in_map. by apply list_elem_of_In.
  - exfalso. apply Hnin.
    apply list_elem_of_In, in_map_iff in Hin' as (y & E & Hy). apply Hinj in E as ->.
    by apply list_elem_of_In.
Qed.

Lemma Zleb_sorted (zs : list Z) :
  StronglySorted (fun a b => (a <=? b)%Z = true) (isort Z.leb zs).
Proof.
  apply (isort_sorted Z.leb (fun _ => True)).
  - intros x y _ _. lia.
  - intros x y z _ _ _. lia.
  - by apply Forall_forall.
Qed.

Lemma sorted_strict (zs : list Z) :
  StronglySorted (fun a b => (a <=? b)%Z = true) zs -> NoDup zs -> StronglySorted Z.lt zs.
Proof.
  induction 1 as [|x zs Hs IH Hall]; intros Hnd; [constructor|].
  apply NoDup_cons in Hnd as [Hx Hnd]. constructor; [by apply IH|].
  apply Forall_forall. intros y Hy.
  eapply Forall_forall in Hall; [|exact Hy].
  assert (x <> y) by (by intros ->). lia.
Qed.

(** The distinct values of [zs] in ascending order. *)
Lemma ascending_distinct (zs us : list Z) :
  us ≡ₚ remove_dups zs ->
  StronglySorted Z.lt (isort Z.leb us) /\ (forall z, z ∈ isort Z.leb us <-> z ∈ zs).
Proof.
  intros Hperm. split.
  - apply sorted_strict; [apply Zleb_sorted|].
    rewrite isort_perm, Hperm. apply NoDup_remove_dups.
  - intros z. by rewrite isort_perm, Hperm, elem_of_remove_dups.
Qed.

Lemma count_label_map_inj {A} `{EqDecision A} (f : A -> label) (x : A) (l : list A) :
  (forall x y, f x = f y -> x = y) ->
  count_label (f x) (map f l) = length (List.filter (fun y => bool_decide (y = x)) l).
Proof.
  intros Hinj. unfold count_label. induction l as [|y l IH]; [done|]. simpl.
  destruct (decide (y = x)) as [->|Hne].
  - rewrite !bool_decide_eq_true_2 by done. simpl. by rewrite IH.
  - rewrite !bool_decide_eq_false_2; [done | done |]. intros E. by apply Hinj in E.
Qed.

Lemma counted_heights (ls : list label) (vc : list (label * nat)) :
  vc ≡ₚ map (fun k => (k, count_label k ls)) (remove_dups ls) ->
  map snd vc = map (fun k => count_label k ls) (map fst vc).
Proof.
  intros Hperm.
  assert (Hall : Forall (fun kv => snd kv = count_label (fst kv) ls) vc).
  { rewrite Hperm. apply Forall_forall. intros kv Hkv%list_elem_of_In.
    apply in_map_iff in Hkv as (k & <- & _). reflexivity. }
  clear Hperm. induction Hall as [|kv vc Hkv _ IH]; [done|]. simpl. by rewrite Hkv, IH.
Qed.

(** X9. The bars of "Orders per Instrument": one bar per distinct
    instrument id, in ascending numeric order of the ids (the labels
    are turned into strings only after sorting, so 10 comes after 9),
    each as high as the id occurs in the column. *)
Theorem instrument_bars_ascending (zs : list Z) :
  let bars := sort_index (value_counts (IntCol zs)) in
  exists ids,
    StronglySorted Z.lt ids /\
    (forall z, z ∈ ids <-> z ∈ zs) /\
    map (fun kv => label_str (fst kv)) bars = map (fun z => LStr (pretty z)) ids /\
    map snd bars
    = map (fun z => length (List.filter (fun y => bool_decide (y = z)) zs)) ids.
Proof.
  intros bars.
  assert (HLInt : forall x y, LInt x = LInt y -> x = y) by (intros x y E; by injection E).
  pose proof (value_counts_perm (IntCol zs)) as Hvc.
  cbn [labels_of] in Hvc. rewrite (omap_id_map_Some LInt) in Hvc.
  assert (Hbars : bars ≡ₚ map (fun k => (k, count_label k (map LInt zs)))
                              (remove_dups (map LInt zs))).
  { unfold bars, sort_index. by rewrite isort_perm. }
  assert (Hfst : map fst (value_counts (IntCol zs)) ≡ₚ map LInt (remove_dups zs)).
  { rewrite Hvc, map_fst_graph. by rewrite remove_dups_map_inj. }
  apply (Permutation_map_inv LInt) in Hfst as (us & Hus & Hperm).
  assert (Hkeys : map fst bars = map LInt (isort Z.leb us)).
  { unfold bars, sort_index.
    rewrite <- (isort_map fst (fun a b => label_leb (fst a) (fst b)) label_leb) by done.
    rewrite Hus. by apply isort_map. }
  destruct (ascending_distinct zs us) as [Hsorted Hmem]; [by symmetry|].
  exists (isort Z.leb us). split; [done|]. split; [done|]. split.
  - rewrite <- (map_map fst label_str), Hkeys, map_map. done.
  - rewrite (counted_heights _ _ Hbars), Hkeys, map_map.
    apply map_ext. intros z. by apply count_label_map_inj.
Qed.

Lemma floor_seconds_bounds (t k : Z) :
  (k mod 1000000000 = 0)%Z ->
  (t / 1000000000 * 1000000000 = k <-> k <= t < k + 1000000000)%Z.
Proof.
  intros Hk. apply Z.mod_divide in Hk; [|lia]. destruct Hk as [j ->].
  pose proof (Z.div_mod t 1000000000 ltac:(lia)) as Hdm.
  pose proof (Z.mod_pos_bound t 1000000000 ltac:(lia)) as Hb.
  split.
  - intros E. lia.
  - intros H. assert (t / 1000000000 = j)%Z; [|lia].
    symmetry. apply (Z.div_unique_pos t 1000000000 j (t - j * 1000000000)); lia.
Qed.

(** X10. The curve of "Orders Over Time": one point per second in
    which an order falls, in ascending order; the point of the second
    starting at [k] nanoseconds counts the orders with
    [k <= timestamp < k + 10^9], and the counts add up to the number
    of orders. *)
Theorem orders_per_second (ns : list Z) :
  let curve := groupby_size (DatetimeCol (floor_seconds ns)) in
  exists secs,
    StronglySorted Z.lt secs /\
    (forall k, k ∈ secs <-> exists t, t ∈ ns /\ k = (t / 1000000000 * 1000000000)%Z) /\
    curve = map (fun k => (LTime k,
                           length (List.filter
                                     (fun t => bool_decide (k <= t < k + 1000000000)%Z) ns)))
                secs /\
    sum_list (map snd curve) = length ns.
Proof.
  intros curve.
  assert (HLTime : forall x y, LTime x = LTime y -> x = y) by (intros x y E; by injection E).
  set (fl := floor_seconds ns).
  assert (Hcurve : curve = map (fun k => (k, count_label k (map LTime fl)))
                               (map LTime (isort Z.leb (remove_dups fl)))).
  { unfold curve, groupby_size, sort_labels. cbn [labels_of].
    rewrite (omap_id_map_Some LTime). fold fl.
    rewrite remove_dups_map_inj by done.
    by rewrite (isort_map LTime Z.leb label_leb). }
  destruct (ascending_distinct fl (remove_dups fl)) as [Hsorted Hmem]; [done|].
  assert (Hfl : forall k, k ∈ fl <-> exists t, t ∈ ns /\ k = (t / 1000000000 * 1000000000)%Z).
  { intros k. unfold fl, floor_seconds. rewrite list_elem_of_In, in_map_iff.
    split; intros (t & H1 & H2); exists t; rewrite ?list_elem_of_In in *; done. }
  exists (isort Z.leb (remove_dups fl)). split; [done|]. split; [|split].
  - intros k. by rewrite Hmem.
  - rewrite Hcurve, map_map. apply map_ext_in. intros k Hk%list_elem_of_In.
    f_equal. rewrite (count_label_map_inj LTime) by done.
    apply Hmem, Hfl in Hk as (t0 & _ & ->).
    unfold fl, floor_seconds. clear. induction ns as [|t ns IH]; [done|].
    cbn [map List.filter].
    assert (Hmod : (t0 / 1000000000 * 1000000000 mod 1000000000 = 0)%Z)
      by (apply Z.mod_mul; lia).
    pose proof (floor_seconds_bounds t _ Hmod) as Hiff.
    destruct (decide (t / 1000000000 * 1000000000 = t0 / 1000000000 * 1000000000)%Z) as [E|N].
    + rewrite !bool_decide_eq_true_2; [simpl; by rewrite IH | by apply Hiff | done].
    + rewrite !bool_decide_eq_false_2; [done | by rewrite <- Hiff | done].
  - pose proof (counted_total (map LTime fl) curve) as (_ & _ & _ & Hsum).
    { pose proof (groupby_size_perm (DatetimeCol fl)) as H.
      cbn [labels_of] in H. by rewrite (omap_id_map_Some LTime) in H. }
    rewrite Hsum, length_map. unfold fl, floor_seconds. by rewrite length_map.
Qed.

(** ** Buy and sell orders *)

(** X11. The order statistics.  The buy and sell counts never exceed
    the number of orders, and add up to it exactly when every side is
    spelled [BUY] or [SELL] (the comparison is exact: [buy] counts as
    neither); for a side column that is not text both counts are
    zero. *)
Theorem buy_sell_counts (ss : list string) :
  let buy := count_equal_str (StrCol ss) "BUY" in
  let sell := count_equal_str (StrCol ss) "SELL" in
  (buy + sell <= length ss)%nat /\
  ((buy + sell)%nat = length ss <-> Forall (fun s => s = "BUY" \/ s = "SELL") ss) /\
  (forall xs zs ns, count_equal_str (NumCol xs) "BUY" = 0%nat /\
                    count_equal_str (IntCol zs) "BUY" = 0%nat /\
                    count_equal_str (DatetimeCol ns) "BUY" = 0%nat).
Proof.
  intros buy sell. subst buy sell. cbn [count_equal_str].
  assert (H : forall l : list string,
    let b := length (List.filter (fun x => bool_decide (x = "BUY")) l) in
    let s := length (List.filter (fun x => bool_decide (x = "SELL")) l) in
    (b + s <= length l)%nat /\
    ((b + s)%nat = length l <-> Forall (fun s => s = "BUY" \/ s = "SELL") l)).
  { induction l as [|x l [IH1 IH2]]; [by split|].
    cbn [List.filter length]. cbv zeta in *.
    destruct (decide (x = "BUY")) as [->|Hb].
    - rewrite bool_decide_eq_true_2, bool_decide_eq_false_2 by done.
      cbn [length]. split; [lia|]. rewrite Forall_cons. split.
      + intros E. split; [by left|]. apply IH2. lia.
      + intros [_ Hall]. apply IH2 in Hall. lia.
    - rewrite (bool_decide_eq_false_2 (x = "BUY")) by done.
      destruct (decide (x = "SELL")) as [->|Hs].
      + rewrite bool_decide_eq_true_2 by done.
        cbn [length]. split; [lia|]. rewrite Forall_cons. split.
        * intros E. split; [by right|]. apply IH2. lia.
        * intros [_ Hall]. apply IH2 in Hall. lia.
      + rewrite bool_decide_eq_false_2 by done. split; [lia|]. rewrite Forall_cons. split.
        * intros E. lia.
        * intros [[?|?] _]; done. }
  destruct (H ss) as [H1 H2]. split; [exact H1|]. split; [exact H2 | done].
Qed.

(** ** Frames *)

Section Frames.
Context (R : relation world) `{!PreOrder R}.

Lemma preserves_ret {A} (a : A) : preserves R (mret a : M A).
Proof. intros w. reflexivity. Qed.

Lemma preserves_raise {A} (e : exn) : preserves R (raise e : M A).
Proof. intros w. reflexivity. Qed.

Lemma preserves_bind {A B} (m : M A) (k : A -> M B) :
  preserves R m -> (forall a, preserves R (k a)) -> preserves R (m ≫= k).
Proof.
  intros Hm Hk w. unfold mbind, M_bind. specialize (Hm w).
  destruct (m w) as [[a|e] w1]; simpl in *; [|done].
  etrans; [exact Hm | apply Hk].
Qed.

Lemma preserves_try {A} (body : M A) (h : exn -> M A) :
  preserves R body -> (forall e, preserves R (h e)) -> preserves R (try_except body h).
Proof.
  intros Hm Hk w. unfold try_except. specialize (Hm w).
  destruct (body w) as [[a|e] w1]; simpl in *; [done|].
  etrans; [exact Hm | apply Hk].
Qed.

Lemma preserves_if {A} (b : bool) (m1 m2 : M A) :
  preserves R m1 -> preserves R m2 -> preserves R (if b then m1 else m2).
Proof. by destruct b. Qed.

Lemma preserves_for_each {A} (l : list A) (body : A -> M unit) :
  (forall x, preserves R (body x)) -> preserves R (for_each l body).
Proof.
  intros Hb. induction l as [|x l IH]; simpl; [apply preserves_ret|].
  apply preserves_bind; auto.
Qed.

Lemma preserves_pure {A} (m : M A) : pure_step m -> preserves R m.
Proof. intros Hm w. rewrite Hm. reflexivity. Qed.

Lemma preserves_print (l : line) :
  (forall w, R w (set_stdout (fun out => out ++ [l]) w)) -> preserves R (print l).
Proof. intros H w. apply H. Qed.

Lemma preserves_input : ignores_stdin R -> preserves R input.
Proof. intros H w. unfold input. destruct (stdin w); [reflexivity | apply H]. Qed.

Lemma preserves_new_figure (n : nat) : ignores_figures R -> preserves R (new_figure n).
Proof. intros H w. apply H. Qed.

Lemma preserves_update_figure (fig : nat) (f : figure -> figure) :
  (forall w, R w (set_figures (alter f fig) w)) -> preserves R (update_figure fig f).
Proof. intros H w. apply H. Qed.

Lemma preserves_add_axes (fig : nat) :
  (forall f w, R w (set_figures (alter f fig) w)) -> preserves R (add_axes fig).
Proof. intros H w. apply H. Qed.

Lemma preserves_draw (accepts : artist -> bool) (fig ax : nat) (a : artist) :
  (forall f w, R w (set_figures (alter f fig) w)) -> preserves R (draw accepts fig ax a).
Proof.
  intros H. unfold draw. destruct (accepts a); [|apply preserves_raise].
  apply preserves_update_figure. intros w. apply H.
Qed.

Lemma preserves_makedirs (d : string) :
  (forall w, R w (set_dirs (fun ds => {[d]} ∪ ds) w)) -> preserves R (makedirs_exist_ok d).
Proof.
  intros H w. unfold makedirs_exist_ok.
  repeat case_decide; simpl; [reflexivity | reflexivity | apply H].
Qed.

Lemma preserves_write_file (path : string) (c : content) :
  (forall w, R w (set_files (fun fs => <[path := c]> fs) w)) ->
  preserves R (write_file path c).
Proof.
  intros H w. unfold write_file.
  repeat case_decide; simpl; [reflexivity | reflexivity | apply H].
Qed.

Lemma preserves_savefig (fig : nat) (fname : string) (dpi : option nat) (tight : bool)
    (format : option string) :
  (forall c w, R w (set_files (fun fs => <[(savefig_target fname format).1 := c]> fs) w)) ->
  preserves R (savefig fig fname dpi tight format).
Proof.
  intros H w. unfold savefig. destruct (savefig_target fname format) as [path fmt] eqn:E.
  destruct (figures w !! fig) as [g|]; [|reflexivity].
  case_decide; [|reflexivity].
  apply preserves_write_file. intros w1. apply (H _ w1).
Qed.

Lemma preserves_run {A} (m : M A) (w w' : world) (r : outcome A) :
  preserves R m -> m w = (r, w') -> R w w'.
Proof. intros Hm Hrun. specialize (Hm w). by rewrite Hrun in Hm. Qed.

End Frames.

Lemma pure_read_csv (path : string) : pure_step (read_csv path).
Proof.
  intros w. unfold read_csv. destruct (decide _); [done|].
  destruct (files w !! path) as [[]|]; done.
Qed.

Lemma pure_getitem (df : DataFrame) (name : string) : pure_step (getitem df name).
Proof. intros w. unfold getitem. by destruct (df_get df name). Qed.

Lemma pure_numeric (c : column) : pure_step (numeric c).
Proof. intros w. by destruct c. Qed.

Lemma pure_to_datetime_ns (c : column) : pure_step (to_datetime_ns c).
Proof. intros w. destruct c; simpl; try done. by destruct (forallb _ _). Qed.

Lemma pure_dt_floor_seconds (c : column) : pure_step (dt_floor_seconds c).
Proof. intros w. by destruct c. Qed.

Lemma pure_abspath (p : string) : pure_step (abspath p).
Proof. by intros w. Qed.

Lemma pure_getcwd : pure_step getcwd.
Proof. by intros w. Qed.

Lemma pure_path_exists (p : string) : pure_step (path_exists p).
Proof. by intros w. Qed.

Lemma pure_listdir (d : string) : pure_step (listdir d).
Proof. intros w. unfold listdir. by repeat case_decide. Qed.

Lemma pure_getsize (byte_size : option content -> N) (p : string) :
  pure_step (getsize byte_size p).
Proof.
  intros w. unfold getsize. destruct (decide _); [done|].
  by destruct (files w !! p).
Qed.

Lemma pure_now : pure_step now.
Proof. by intros w. Qed.

Lemma pure_pending_input : pure_step pending_input.
Proof. by intros w. Qed.

Lemma pure_median_throughput (df : DataFrame) : pure_step (median_throughput df).
Proof.
  intros w. unfold median_throughput, getitem, mbind, M_bind.
  destruct (keys_are_row_labels _ _).
  { destruct (df_get df "ops_per_sec") as [c3|]; [|done]. simpl. by destruct c3. }
  destruct (df_get df "pattern") as [c1|]; [|done]. simpl.
  destruct (df_get df "impl") as [c2|]; [|done]. simpl.
  destruct (df_get df "ops_per_sec") as [c3|]; [|done]. simpl.
  by destruct c3.
Qed.

#[global] Instance same_preorder {X} (proj : world -> X) : PreOrder (same proj).
Proof. split; [by intros w | intros w1 w2 w3 H1 H2; unfold same in *; congruence]. Qed.

Lemma same_ignores_figures_at {X} (proj : world -> X) :
  (forall f w, proj (set_figures f w) = proj w) -> ignores_figures (same proj).
Proof. intros H f w. apply H. Qed.

Create HintDb frame.

#[export] Hint Extern 0 (PreOrder _) => typeclasses eauto : frame.
#[export] Hint Resolve preserves_ret preserves_raise : frame.
#[export] Hint Extern 1 (preserves _ (_ ≫= _)) =>
  apply preserves_bind; [typeclasses eauto | | intros ?] : frame.
#[export] Hint Extern 1 (preserves _ (try_except _ _)) =>
  apply preserves_try; [typeclasses eauto | | intros ?] : frame.
#[export] Hint Extern 1 (preserves _ (if _ then _ else _)) =>
  apply preserves_if : frame.
#[export] Hint Extern 1 (preserves _ (for_each _ _)) =>
  apply preserves_for_each; [typeclasses eauto | intros ?] : frame.
#[export] Hint Extern 1 (preserves _ (match ?x with Some _ => _ | None => _ end)) =>
  destruct x : frame.
#[export] Hint Extern 1 (preserves _ (match ?x with [] => _ | _ :: _ => _ end)) =>
  destruct x : frame.
#[export] Hint Extern 1 (preserves _ (print _)) => apply preserves_print; intros ? : frame.
#[export] Hint Extern 1 (preserves _ input) => apply preserves_input : frame.
#[export] Hint Extern 1 (preserves _ (new_figure _)) => apply preserves_new_figure : frame.
#[export] Hint Extern 1 (preserves _ (update_figure _ _)) =>
  apply preserves_update_figure; intros ? : frame.
#[export] Hint Extern 1 (preserves _ (add_axes _)) =>
  apply preserves_add_axes; intros ? ? : frame.
#[export] Hint Extern 1 (preserves _ (draw _ _ _ _)) =>
  apply preserves_draw; [typeclasses eauto | intros ? ?] : frame.
#[export] Hint Extern 1 (preserves _ (read_csv _)) =>
  apply preserves_pure, pure_read_csv : frame.
#[export] Hint Extern 1 (preserves _ (getsize _ _)) =>
  apply preserves_pure, pure_getsize : frame.
#[export] Hint Extern 1 (preserves _ (getitem _ _)) =>
  apply preserves_pure, pure_getitem : frame.
#[export] Hint Extern 1 (preserves _ (numeric _)) =>
  apply preserves_pure, pure_numeric : frame.
#[export] Hint Extern 1 (preserves _ (to_datetime_ns _)) =>
  apply preserves_pure, pure_to_datetime_ns : frame.
#[export] Hint Extern 1 (preserves _ (dt_floor_seconds _)) =>
  apply preserves_pure, pure_dt_floor_seconds : frame.
#[export] Hint Extern 1 (preserves _ (abspath _)) =>
  apply preserves_pure, pure_abspath : frame.
#[export] Hint Extern 1 (preserves _ getcwd) =>
  apply preserves_pure, pure_getcwd : frame.
#[export] Hint Extern 1 (preserves _ (path_exists _)) =>
  apply preserves_pure, pure_path_exists : frame.
#[export] Hint Extern 1 (preserves _ (listdir _)) =>
  apply preserves_pure, pure_listdir : frame.
#[export] Hint Extern 1 (preserves _ now) =>
  apply preserves_pure, pure_now : frame.
#[export] Hint Extern 1 (preserves _ pending_input) =>
  apply preserves_pure, pure_pending_input : frame.
#[export] Hint Extern 1 (preserves _ (median_throughput _)) =>
  apply preserves_pure, pure_median_throughput : frame.
#[export] Hint Extern 1 (preserves _ (makedirs_exist_ok _)) =>
  apply preserves_makedirs; [typeclasses eauto | intros ?] : frame.
#[export] Hint Extern 1 (preserves _ (write_file _ _)) =>
  apply preserves_write_file; [typeclasses eauto | intros ?] : frame.
#[export] Hint Extern 1 (preserves _ (savefig _ _ _ _ _)) =>
  apply preserves_savefig; [typeclasses eauto | intros ? ?] : frame.
#[export] Hint Extern 0 (same _ _ (set_dirs _ _)) => reflexivity : frame.
#[export] Hint Extern 0 (same _ _ (set_files _ _)) => reflexivity : frame.
#[export] Hint Extern 0 (same _ _ (set_stdout _ _)) => reflexivity : frame.
#[export] Hint Extern 0 (ignores_stdin (same _)) => (intros ? ?; reflexivity) : frame.
#[export] Hint Extern 0 (ignores_figures (same _)) => (intros ? ?; reflexivity) : frame.
#[export] Hint Extern 0 (same _ _ (set_figures _ _)) => reflexivity : frame.

Ltac frame := cbv zeta; auto 300 with frame.


(** ** Standard input is read by the menu only *)

Lemma same_stdin_order_history (accepts : artist -> bool) (csv_file : string) :
  preserves (same stdin) (create_order_history_plots accepts csv_file).
Proof.
  unfold create_order_history_plots, order_history_body, assign_timestamp,
    set_title, suptitle, update_axes.
  frame.
Qed.

Lemma same_stdin_price_analysis (Qsqrt : Q -> Q) (accepts : artist -> bool)
    (csv_file : string) (instrument_id : Z) :
  preserves (same stdin) (create_price_analysis_plots Qsqrt accepts csv_file instrument_id).
Proof.
  unfold create_price_analysis_plots, price_analysis_body, assign_moving_averages,
    set_title, suptitle, update_axes.
  frame.
Qed.

Lemma same_stdin_dashboard (accepts : artist -> bool) :
  preserves (same stdin) (create_comprehensive_dashboard accepts).
Proof.
  unfold create_comprehensive_dashboard, dashboard_body, set_title, suptitle, update_axes.
  frame.
Qed.

Lemma same_stdin_save_plot (fig : nat) (plot_name : string) (formats : list string) :
  preserves (same stdin) (save_plot fig plot_name formats).
Proof. unfold save_plot. frame. Qed.

Lemma same_stdin_debug (byte_size : option content -> N) :
  preserves (same stdin) (debug_file_locations byte_size).
Proof. unfold debug_file_locations. frame. Qed.

#[export] Hint Resolve same_stdin_order_history same_stdin_price_analysis
  same_stdin_dashboard same_stdin_save_plot same_stdin_debug : frame.

Lemma same_stdin_handle_choice (Qsqrt : Q -> Q) (accepts : artist -> bool)
    (byte_size : option content -> N) (choice : string) :
  preserves (same stdin) (handle_choice Qsqrt accepts byte_size choice).
Proof.
  unfold handle_choice, save_and_show, show, open_plots_folder.
  repeat case_decide; frame.
Qed.

(** ** The menu loop *)


Lemma ends_false {A} (m : M A) (w w' : world) :
  (m ;; mret false) w = (Ok true, w') -> False.
Proof.
  intros (a & w1 & _ & H)%bind_Ok_inv. unfold mret, M_ret in H. by simplify_eq.
Qed.

Lemma handle_choice_stop (Qsqrt : Q -> Q) (accepts : artist -> bool)
    (byte_size : option content -> N) (choice : string)
    (w w' : world) :
  handle_choice Qsqrt accepts byte_size choice w = (Ok true, w') ->
  choice = "6" /\ w' = set_stdout (fun out => out ++ [goodbye]) w.
Proof.
  unfold handle_choice. intros H.
  repeat case_decide;
    try (apply bind_Ok_inv in H as (? & ? & _ & H); by apply ends_false in H);
    try (by apply ends_false in H).
  split; [done|].
  apply bind_Ok_inv in H as ([] & w1 & Hp & H).
  unfold mret, M_ret in H. unfold print in Hp. by simplify_eq.
Qed.

(** What a turn of the menu that returns has read: the answer, and
    unless the answer was 6 the line that confirms the pause. *)
Lemma menu_turn_inv (Qsqrt : Q -> Q) (accepts : artist -> bool)
    (byte_size : option content -> N) (stop : bool) (w w' : world) :
  menu_turn Qsqrt accepts byte_size w = (Ok stop, w') ->
  exists answer rest,
    stdin w = answer :: rest /\
    if stop
    then strip answer = "6" /\ stdin w' = rest /\ last (stdout w') = Some goodbye
    else exists enter, rest = enter :: stdin w'.
Proof.
  unfold menu_turn. intros H.
  apply bind_Ok_inv in H as ([] & w1 & H1 & H).
  apply (preserves_run (same stdin)) in H1; [|frame].
  apply bind_Ok_inv in H as ([] & w2 & H2 & H).
  apply (preserves_run (same stdin)) in H2; [|frame].
  apply bind_Ok_inv in H as (answer & w3 & H3 & H).
  unfold input in H3. destruct (stdin w2) as [|a rest] eqn:Hin; [done|].
  injection H3 as -> <-.
  apply bind_Ok_inv in H as (s & w4 & H4 & H).
  pose proof (preserves_run (same stdin) _ _ _ _
                (same_stdin_handle_choice Qsqrt accepts byte_size _) H4) as Hs4.
  unfold same in *. simpl in Hs4.
  exists answer, rest. split; [congruence|].
  destruct s.
  - unfold mret, M_ret in H. injection H as <- <-.
    apply handle_choice_stop in H4 as [Hc ->].
    split; [done|]. split; [done|]. simpl. apply last_snoc.
  - apply bind_Ok_inv in H as ([] & w5 & H5 & H).
    apply bind_Ok_inv in H as (enter & w6 & H6 & H).
    unfold mret, M_ret in H. injection H as <- <-.
    unfold print in H5. injection H5 as <-.
    unfold input in H6. simpl in H6. rewrite Hs4 in H6.
    destruct rest as [|e rest']; [done|]. injection H6 as -> <-.
    by exists enter.
Qed.

Lemma menu_loop_exit (Qsqrt : Q -> Q) (accepts : artist -> bool)
    (byte_size : option content -> N) (fuel : nat)
    (w w' : world) :
  (length (stdin w) < fuel)%nat ->
  menu_loop Qsqrt accepts byte_size fuel w = (Ok tt, w') ->
  last (stdout w') = Some goodbye /\
  exists answer, answer ∈ stdin w /\ strip answer = "6".
Proof.
  revert w. induction fuel as [|fuel IH]; intros w Hfuel Hrun; [lia|].
  simpl in Hrun. apply bind_Ok_inv in Hrun as (stop & w1 & Hturn & Hrun).
  apply menu_turn_inv in Hturn as (answer & rest & Hin & Hturn).
  destruct stop.
  - destruct Hturn as (Hsix & _ & Hlast).
    unfold mret, M_ret in Hrun. injection Hrun as <-.
    split; [done|]. exists answer. split; [|done]. rewrite Hin. by left.
  - destruct Hturn as (enter & ->).
    destruct (IH w1) as (Hlast & a & Ha & Hsix); [|done|].
    + rewrite Hin in Hfuel. simpl in Hfuel. lia.
    + split; [done|]. exists a. split; [|done]. rewrite Hin. by do 2 right.
Qed.

(** X12. The menu is left only through choice 6.  Whenever [main]
    returns, the last line it printed is the goodbye and one of the
    lines of input, stripped of blanks, was [6]; with any other input
    it ends by raising (at the latest when the input is exhausted). *)
Theorem main_returns_only_after_exit (Qsqrt : Q -> Q) (accepts : artist -> bool)
    (byte_size : option content -> N)
    (w w' : world) :
  main Qsqrt accepts byte_size w = (Ok tt, w') ->
  last (stdout w') = Some goodbye /\
  exists answer, answer ∈ stdin w /\ strip answer = "6".
Proof.
  unfold main. intros H.
  repeat match type of H with
  | (pending_input ≫= _) _ = _ => fail 1
  | (_ ≫= _) ?w0 = _ =>
      let Hstep := fresh "Hstep" in
      apply bind_Ok_inv in H as (? & ? & Hstep & H);
      apply (preserves_run (same stdin)) in Hstep; [|frame];
      unfold same in Hstep
  end.
  apply bind_Ok_inv in H as (n & w1 & Hn & H).
  unfold pending_input in Hn. injection Hn as <- <-.
  apply menu_loop_exit in H as (Hlast & a & Ha & Hsix); [|lia].
  split; [done|]. exists a. split; [|done]. congruence.
Qed.

Lemma main_returns_only_after_exit_witness :
  let w := set_stdin (fun _ => ["9"; ""; " 6 "]) (world_of [] []) in
  last (stdout (main sample_sqrt draws_all sample_size w).2) = Some goodbye /\
  exists answer, answer ∈ stdin w /\ strip answer = "6".
Proof.
  intros w.
  apply (main_returns_only_after_exit sample_sqrt draws_all sample_size w
           (main sample_sqrt draws_all sample_size w).2).
  vm_compute. reflexivity.
Defined.

(** ** What is written, and where *)


#[global] Instance writes_within_preorder (P : string -> Prop) (D : gset string) :
  PreOrder (writes_within P D).
Proof.
  split.
  - intros w. repeat split; [done | done | apply union_subseteq_r].
  - intros w1 w2 w3 (Hf1 & Hm1 & Hd1 & He1) (Hf2 & Hm2 & Hd2 & He2).
    split; [|split; [|split]].
    + intros p Hp. by rewrite Hf2, Hf1.
    + intros p Hp. by apply Hm2, Hm1.
    + by etrans.
    + intros x [Hx|Hx]%He2%elem_of_union; [by apply elem_of_union_l | by apply He1].
Qed.

Lemma writes_within_disk (P : string -> Prop) (D : gset string) (w w' : world) :
  files w' = files w -> dirs w' = dirs w -> writes_within P D w w'.
Proof.
  intros Hf Hd. unfold writes_within. rewrite Hf, Hd.
  repeat split; [done | done | apply union_subseteq_r].
Qed.

Lemma writes_within_keeps {A} (P : string -> Prop) (D : gset string) (m : M A) :
  keeps_files m -> preserves (writes_within P D) m.
Proof. intros Hk w. destruct (Hk w). by apply writes_within_disk. Qed.

Lemma writes_within_mkdir (P : string -> Prop) (D : gset string) (d : string) (w : world) :
  d ∈ D -> writes_within P D w (set_dirs (fun ds => {[d]} ∪ ds) w).
Proof.
  intros Hd. repeat split; simpl; [done | apply union_subseteq_r |].
  apply union_mono_r. by apply singleton_subseteq_l.
Qed.

Lemma writes_within_write (P : string -> Prop) (D : gset string) (path : string)
    (c : content) (w : world) :
  P path -> writes_within P D w (set_files (fun fs => <[path := c]> fs) w).
Proof.
  intros Hp. split; [|split; [|split]]; simpl.
  - intros p Hn. apply lookup_insert_ne. by intros ->.
  - intros p Hs. destruct (decide (path = p)) as [->|Hne].
    + rewrite lookup_insert_eq. by eexists.
    + by rewrite lookup_insert_ne.
  - done.
  - apply union_subseteq_r.
Qed.

#[export] Hint Extern 0 (writes_within _ _ _ (set_stdout _ _)) =>
  (by apply writes_within_disk) : frame.
#[export] Hint Extern 0 (ignores_stdin (writes_within _ _)) =>
  (intros ? ?; by apply writes_within_disk) : frame.
#[export] Hint Extern 0 (ignores_figures (writes_within _ _)) =>
  (intros ? ?; by apply writes_within_disk) : frame.
#[export] Hint Extern 0 (writes_within _ _ _ (set_figures _ _)) =>
  (by apply writes_within_disk) : frame.

Lemma stamp_no_slash (t : datetime) : slash ∉ chars (strftime_stamp t).
Proof.
  unfold strftime_stamp. rewrite !chars_append.
  destruct (date_token_shape t) as [_ Hd]. destruct (time_token_shape t) as [_ Ht].
  intros [H|[H|H]%elem_of_app]%elem_of_app.
  - eapply Forall_forall in Hd; [|exact H]. discriminate Hd.
  - apply list_elem_of_In in H. simpl in H. destruct H as [H|[]]. discriminate H.
  - eapply Forall_forall in Ht; [|exact H]. discriminate Ht.
Qed.

Lemma base_name_no_slash (plot_name : string) (t : datetime) :
  slash ∉ chars plot_name -> slash ∉ chars (plot_name +:+ "_" +:+ strftime_stamp t).
Proof.
  intros Hn. rewrite !chars_append.
  intros [H|[H|H]%elem_of_app]%elem_of_app; [done | | by apply stamp_no_slash in H].
  apply list_elem_of_In in H. simpl in H. destruct H as [H|[]]. discriminate H.
Qed.

(** The loop of [save_plot] writes the files named for the call and
    nothing else, whether it completes or not. *)
Lemma save_loop_within (fig : nat) (base : string) (formats : list string) :
  preserves (writes_within (fun p => exists fmt, fmt ∈ formats /\ p = plot_filename base fmt)
                           {[plots_dir]})
            (makedirs_exist_ok plots_dir ;; for_each formats (save_one fig base) ;; mret base).
Proof.
  apply preserves_bind; [typeclasses eauto | |intros _].
  { apply preserves_makedirs; [typeclasses eauto|]. intros w.
    apply writes_within_mkdir. by apply elem_of_singleton. }
  apply preserves_bind; [typeclasses eauto | |intros _; apply preserves_ret; typeclasses eauto].
  assert (Hsub : forall fmts, (forall fmt, fmt ∈ fmts -> fmt ∈ formats) ->
    preserves (writes_within (fun p => exists fmt, fmt ∈ formats /\ p = plot_filename base fmt)
                             {[plots_dir]})
              (for_each fmts (save_one fig base))).
  { induction fmts as [|fmt fmts IH]; intros Hin; [apply preserves_ret; typeclasses eauto|].
    simpl. apply preserves_bind; [typeclasses eauto | |intros _].
    - unfold save_one. apply preserves_bind; [typeclasses eauto | |intros _; frame].
      apply preserves_savefig; [typeclasses eauto|]. intros c w.
      apply writes_within_write. exists fmt. split; [apply Hin; by left | done].
    - apply IH. intros f Hf. apply Hin. by right. }
  by apply Hsub.
Qed.

(** X13. What [save_plot] touches, whether it returns or raises: no
    file other than the ones named for this call,
    [<plot_name>_<timestamp>.<fmt>] for the requested formats, is
    created or changed, no file is removed, no directory other than
    [saved_plots] is created, and the figures and the input are left
    alone. *)
Theorem save_plot_writes_only_its_files (fig : nat) (plot_name : string)
    (formats : list string) (w : world) :
  let base_name := plot_name +:+ "_" +:+ strftime_stamp (clock w) in
  let w' := (save_plot fig plot_name formats w).2 in
  (forall p, (forall fmt, fmt ∈ formats -> p <> plot_filename base_name fmt) ->
     files w' !! p = files w !! p) /\
  (forall p, is_Some (files w !! p) -> is_Some (files w' !! p)) /\
  (dirs w ⊆ dirs w') /\ (dirs w' ⊆ {[plots_dir]} ∪ dirs w) /\
  figures w' = figures w /\ stdin w' = stdin w.
Proof.
  intros base_name w'.
  assert (Hfig : figures w' = figures w).
  { assert (H : preserves (same figures) (save_plot fig plot_name formats))
      by (unfold save_plot; frame).
    apply H. }
  assert (Hin : stdin w' = stdin w) by apply same_stdin_save_plot.
  subst w'. rewrite save_plot_unfold in *. fold base_name in Hfig, Hin |- *.
  destruct (save_loop_within fig base_name formats w) as (Hf & Hm & Hd & He).
  split; [|split; [|split; [|split; [|split]]]]; try done.
  intros p Hp. apply Hf. intros (fmt & Hfmt & ->). by apply (Hp fmt).
Qed.

Lemma save_plot_in_plots (fig : nat) (plot_name : string) :
  slash ∉ chars plot_name ->
  preserves (writes_within in_plots {[plots_dir]}) (save_plot fig plot_name default_formats).
Proof.
  intros Hn w. rewrite save_plot_unfold.
  destruct (save_loop_within fig (plot_name +:+ "_" +:+ strftime_stamp (clock w))
              default_formats w) as (Hf & Hm & Hd & He).
  split; [|done]. intros p Hp. apply Hf. intros (fmt & Hin & ->). apply Hp.
  apply list_elem_of_In in Hin. simpl in Hin. destruct Hin as [<-|[]].
  apply plot_filename_plain; [by apply base_name_no_slash|].
  intros H. apply list_elem_of_In in H. simpl in H.
  repeat (destruct H as [H|H]; [discriminate H|]). done.
Qed.

Lemma report_names_no_slash :
  (slash ∉ chars "order_history_analysis") /\
  (slash ∉ chars "price_analysis_instrument_0") /\
  (slash ∉ chars "trading_dashboard").
Proof.
  repeat split; intros H; apply list_elem_of_In in H; simpl in H;
    repeat (destruct H as [H|H]; [discriminate H|]); done.
Qed.

Lemma handle_choice_in_plots (Qsqrt : Q -> Q) (accepts : artist -> bool)
    (byte_size : option content -> N) (choice : string) :
  preserves (writes_within in_plots {[plots_dir]}) (handle_choice Qsqrt accepts byte_size choice).
Proof.
  destruct report_names_no_slash as (H1 & H2 & H3).
  pose proof (writes_within_keeps in_plots {[plots_dir]} _
                (keeps_files_order_history accepts "order_history.csv")).
  pose proof (writes_within_keeps in_plots {[plots_dir]} _
                (keeps_files_price_analysis Qsqrt accepts "price_data_instrument_0.csv" 0)).
  pose proof (writes_within_keeps in_plots {[plots_dir]} _
                (keeps_files_dashboard accepts)).
  pose proof (fun fig => save_plot_in_plots fig _ H1).
  pose proof (fun fig => save_plot_in_plots fig _ H2).
  pose proof (fun fig => save_plot_in_plots fig _ H3).
  unfold handle_choice, save_and_show, show, open_plots_folder, debug_file_locations.
  repeat case_decide; frame.
Qed.

Lemma main_in_plots (Qsqrt : Q -> Q) (accepts : artist -> bool)
    (byte_size : option content -> N) :
  preserves (writes_within in_plots {[plots_dir]}) (main Qsqrt accepts byte_size).
Proof.
  assert (Hturn : preserves (writes_within in_plots {[plots_dir]}) (menu_turn Qsqrt accepts byte_size)).
  { pose proof (handle_choice_in_plots Qsqrt accepts byte_size). unfold menu_turn. frame. }
  assert (Hloop : forall fuel,
            preserves (writes_within in_plots {[plots_dir]}) (menu_loop Qsqrt accepts byte_size fuel)).
  { induction fuel as [|fuel IH]; simpl; frame. }
  assert (Hmk : preserves (writes_within in_plots {[plots_dir]}) (makedirs_exist_ok plots_dir)).
  { apply preserves_makedirs; [typeclasses eauto|]. intros w.
    apply writes_within_mkdir. by apply elem_of_singleton. }
  unfold main. frame.
Qed.

(** X14. Whatever is chosen in the menu and however [main] ends, it
    writes only directly inside [saved_plots]: every other file, the
    input CSV files among them, is as before, no file is removed, and
    the only directory it may create is [saved_plots]. *)
Theorem main_writes_only_plots (Qsqrt : Q -> Q) (accepts : artist -> bool)
    (byte_size : option content -> N) (w : world) :
  let w' := (main Qsqrt accepts byte_size w).2 in
  (forall p, parent_dir p <> plots_dir -> files w' !! p = files w !! p) /\
  (forall p, is_Some (files w !! p) -> is_Some (files w' !! p)) /\
  (dirs w ⊆ dirs w') /\ (dirs w' ⊆ {[plots_dir]} ∪ dirs w).
Proof. apply main_in_plots. Qed.

(** ** [create_chart] writes one file at most *)

Lemma preserves_plot_bar (R : relation world) `{!PreOrder R} (accepts : artist -> bool)
    (t : Table) :
  ignores_figures R -> preserves R (plot_bar accepts t).
Proof.
  intros HR. unfold plot_bar. destruct (t_columns t) as [|c cs]; [frame|].
  apply preserves_bind; [done | frame | intros fig].
  apply preserves_bind; [done | | frame].
  apply preserves_for_each; [done|]. intros [j [name| | | | |]]; simpl; try frame.
  case_decide; [|frame]. apply preserves_draw; [done|]. intros f w. apply HR.
Qed.

Lemma create_chart_within (accepts : artist -> bool) (csv_file output_image : string) :
  preserves (writes_within (fun p => p = (savefig_target output_image None).1) ∅)
            (create_chart accepts csv_file output_image).
Proof.
  assert (Hsave : forall fig,
    preserves (writes_within (fun p => p = (savefig_target output_image None).1) ∅)
              (savefig fig output_image None false None)).
  { intros fig. apply preserves_savefig; [typeclasses eauto|]. intros c w.
    by apply writes_within_write. }
  assert (Hbar : forall t,
    preserves (writes_within (fun p => p = (savefig_target output_image None).1) ∅)
              (plot_bar accepts t)).
  { intros t. apply preserves_plot_bar; [typeclasses eauto|]. frame. }
  unfold create_chart, set_title, figtext, update_axes. frame.
Qed.

(** X15. [create_chart], whether it returns or raises, changes at
    most one path, the one [savefig] derives from the output name; no
    file is removed, no directory is created and the input is not
    read. *)
Theorem create_chart_writes_one_path (accepts : artist -> bool)
    (csv_file output_image : string) (w : world) :
  let target := (savefig_target output_image None).1 in
  let w' := (create_chart accepts csv_file output_image w).2 in
  (forall p, p <> target -> files w' !! p = files w !! p) /\
  (forall p, is_Some (files w !! p) -> is_Some (files w' !! p)) /\
  dirs w' = dirs w /\ stdin w' = stdin w.
Proof.
  intros target w'.
  destruct (create_chart_within accepts csv_file output_image w) as (Hf & Hm & _ & _).
  split; [exact Hf|]. split; [exact Hm|].
  assert (Hbar : forall X (proj : world -> X) t,
            (forall f w, proj (set_figures f w) = proj w) ->
            preserves (same proj) (plot_bar accepts t)).
  { intros X proj t Hp. apply preserves_plot_bar; [typeclasses eauto|].
    intros f w0. apply Hp. }
  split.
  - assert (H : preserves (same dirs) (create_chart accepts csv_file output_image)).
    { pose proof (Hbar _ dirs) as Hb.
      unfold create_chart, set_title, figtext, update_axes. frame. }
    apply H.
  - assert (H : preserves (same stdin) (create_chart accepts csv_file output_image)).
    { pose proof (Hbar _ stdin) as Hb.
      unfold create_chart, set_title, figtext, update_axes. frame. }
    apply H.
Qed.

(** ** Listing the plots directory *)

Lemma text_chars (s : string) : text (chars s) = s.
Proof. apply string_of_list_ascii_of_string. Qed.

Lemma basename_in_plots (x : string) :
  slash ∉ chars x -> text (rev (rev_basename (plots_dir +:+ "/" +:+ x))) = x.
Proof.
  intros Hx. unfold rev_basename. rewrite chars_append.
  change (chars ("/" +:+ x)) with (slash :: chars x).
  rewrite rev_app_distr. simpl rev at 1. rewrite <- app_assoc. simpl app at 2.
  rewrite split_at_app.
  - by rewrite rev_involutive, text_chars.
  - intros H. apply Hx. by apply list_elem_of_In, in_rev, list_elem_of_In.
Qed.

Lemma ends_with_pdf_appended (base : string) : ends_with_pdf (base +:+ ".pdf") = true.
Proof.
  unfold ends_with_pdf. apply bool_decide_eq_true_2.
  rewrite chars_append, rev_app_distr. reflexivity.
Qed.

Lemma listdir_lists (w : world) (d p : string) :
  files w !! d = None -> d ∈ dirs w ->
  is_Some (files w !! p) -> parent_dir p = d ->
  exists names, listdir d w = (Ok names, w) /\ text (rev (rev_basename p)) ∈ names.
Proof.
  intros Hd Hdir [c Hp] Hparent. unfold listdir.
  rewrite decide_False by (rewrite Hd; by intros [? ?]).
  rewrite decide_True by (by right).
  eexists. split; [reflexivity|].
  apply list_elem_of_omap. exists p. split.
  - apply elem_of_app. left. apply list_elem_of_In, in_map_iff.
    exists (p, c). split; [done|]. by apply list_elem_of_In, elem_of_map_to_list.
  - by rewrite decide_True.
Qed.

Lemma listdir_same_disk (d : string) (w w' : world) (names : list string) :
  listdir d w = (Ok names, w) -> files w' = files w -> dirs w' = dirs w ->
  listdir d w' = (Ok names, w').
Proof.
  unfold listdir. intros H -> ->. repeat case_decide; by simplify_eq.
Qed.

Lemma plot_filename_not_plots_dir (base fmt : string) :
  plot_filename base fmt <> plots_dir.
Proof.
  unfold plot_filename. rewrite path_join_plots_dir.
  destruct (base +:+ "." +:+ fmt) as [|c x] eqn:E.
  - discriminate.
  - destruct (decide (c = slash)) as [->|_]; [discriminate|].
    intros H. apply (f_equal String.length) in H.
    rewrite !append_length in H. simpl in H. lia.
Qed.

Lemma split_at_inv (c : ascii) (l b a : list ascii) :
  split_at c l = Some (b, a) -> l = b ++ c :: a /\ c ∉ b.
Proof.
  revert b a. induction l as [|x l IH]; intros b a H; [done|]. simpl in H.
  destruct (decide (x = c)) as [->|Hne].
  - injection H as <- <-. split; [done | apply not_elem_of_nil].
  - destruct (split_at c l) as [[b' a']|] eqn:E; [|done]. injection H as <- <-.
    destruct (IH b' a' eq_refl) as [-> Hb]. split; [done|].
    intros [->|?]%elem_of_cons; done.
Qed.

Lemma chars_text (l : list ascii) : chars (text l) = l.
Proof. apply list_ascii_of_string_of_list_ascii. Qed.

Lemma chars_inj (a b : string) : chars a = chars b -> a = b.
Proof. intros H. rewrite <- (text_chars a), <- (text_chars b). by rewrite H. Qed.

(** A name that [listdir] gives for the plots directory leads back to
    the path it stands for. *)
Lemma join_parent_basename (p : string) :
  parent_dir p = plots_dir -> path_join plots_dir (text (rev (rev_basename p))) = p.
Proof.
  unfold parent_dir, rev_basename.
  destruct (split_at slash (rev (chars p))) as [[name before]|] eqn:E; [|done].
  apply split_at_inv in E as [E Hname]. intros Hparent.
  assert (Hp : chars p = chars plots_dir ++ slash :: rev name).
  { rewrite <- Hparent, chars_text. rewrite <- (rev_involutive (chars p)), E.
    rewrite rev_app_distr. simpl. by rewrite <- app_assoc. }
  rewrite path_join_plots_dir.
  assert (Hjoin : plots_dir +:+ "/" +:+ text (rev name) = p).
  { apply chars_inj. rewrite !chars_append, chars_text, Hp. done. }
  destruct (text (rev name)) as [|c x] eqn:Et; [done|].
  rewrite decide_False; [done|]. intros ->.
  apply Hname. apply (f_equal chars) in Et. rewrite chars_text in Et.
  apply list_elem_of_In, in_rev, list_elem_of_In. rewrite Et. by left.
Qed.

Lemma listdir_plots_names (w : world) (names : list string) (x : string) :
  listdir plots_dir w = (Ok names, w) -> x ∈ names ->
  path_join plots_dir x ∈ dirs w \/ is_Some (files w !! path_join plots_dir x).
Proof.
  unfold listdir. destruct (decide (is_Some _)); [done|].
  destruct (decide _); [|done]. intros H Hx. injection H as <-.
  apply list_elem_of_omap in Hx as (p & Hp & Hsome).
  destruct (decide (parent_dir p = plots_dir)) as [Hpar|]; [|done].
  injection Hsome as <-. rewrite join_parent_basename by done.
  apply elem_of_app in Hp as [Hp|Hp].
  - right. apply list_elem_of_In, in_map_iff in Hp as ([p' c] & <- & Hpc).
    apply list_elem_of_In, elem_of_map_to_list in Hpc. by exists c.
  - left. by apply elem_of_elements in Hp.
Qed.

Lemma getsize_stored (byte_size : option content -> N) (p : string) (w : world) :
  p ∈ dirs w \/ is_Some (files w !! p) ->
  getsize byte_size p w = (Ok (stored_size byte_size w p), w).
Proof.
  intros H. unfold getsize, stored_size. destruct (decide _); [done|].
  destruct H as [?|[c Hc]]; [done|]. by rewrite Hc.
Qed.

(** The listing of names that are there: one line for each, with its
    size. *)
Lemma for_each_listing (byte_size : option content -> N) (names : list string) (w : world) :
  (forall x, x ∈ names ->
     path_join plots_dir x ∈ dirs w \/ is_Some (files w !! path_join plots_dir x)) ->
  for_each names (fun pdf =>
    let full_path := path_join plots_dir pdf in
    size ← getsize byte_size full_path;
    print (Text ("   - " +:+ pdf +:+ " (" +:+ pretty size +:+ " bytes)"))) w
  = (Ok tt, set_stdout (fun out => out ++ map (listing_line byte_size w) names) w).
Proof.
  revert w. induction names as [|x names IH]; intros w Hnames.
  - simpl. unfold mret, M_ret, set_stdout. destruct w; simpl. by rewrite app_nil_r.
  - cbn [for_each]. cbv zeta.
    erewrite bind_Ok; cycle 1.
    { erewrite bind_Ok by (apply getsize_stored, Hnames; by left). reflexivity. }
    rewrite IH by (intros y Hy; apply (Hnames y); by right).
    unfold set_stdout. simpl. by rewrite <- app_assoc.
Qed.

Lemma savefig_not_dir (fig : nat) (fname fmt : string) (dpi : option nat) (tight : bool)
    (w w' : world) :
  savefig fig fname dpi tight (Some fmt) w = (Ok tt, w') -> fname ∉ dirs w'.
Proof.
  unfold savefig, savefig_target. destruct (figures w !! fig) as [g|]; [|done].
  destruct (decide _); [|done]. unfold write_file.
  repeat case_decide; intros Hw; by simplify_eq.
Qed.

Lemma save_loop_not_dir (fig : nat) (base : string) (fmts : list string) (w w' : world) :
  for_each fmts (save_one fig base) w = (Ok tt, w') ->
  forall fmt, fmt ∈ fmts -> plot_filename base fmt ∉ dirs w'.
Proof.
  revert w. induction fmts as [|fmt fmts IH]; intros w Hrun f Hf;
    [by apply elem_of_nil in Hf|].
  simpl in Hrun. apply bind_Ok_inv in Hrun as ([] & w1 & Hone & Hrest).
  apply elem_of_cons in Hf as [->|Hf]; [|by apply (IH w1)].
  unfold save_one in Hone. cbv zeta in Hone.
  apply bind_Ok_inv in Hone as ([] & wa & Hsave%savefig_not_dir & Hone).
  assert (Hd1 : dirs w1 = dirs wa).
  { apply (preserves_run (same dirs)) in Hone; [done | frame]. }
  assert (Hd2 : dirs w' = dirs w1).
  { apply (preserves_run (same dirs)) in Hrest; [done|]. unfold save_one. frame. }
  by rewrite Hd2, Hd1.
Qed.

(** X16. A saved plot shows up in the debug listing.  After
    [save_plot] has returned for a plot name without [/] and formats
    that include pdf, [debug_file_locations] returns and prints the
    line [   - <base>.pdf (<size> bytes)] for the base name
    [save_plot] returned and the size of the file it wrote, changing
    nothing on disk. *)
Theorem saved_plot_is_listed (byte_size : option content -> N) (fig : nat)
    (plot_name : string) (formats : list string) (w w1 : world) (base : string) :
  slash ∉ chars plot_name ->
  files w !! plots_dir = None ->
  "pdf" ∈ formats ->
  save_plot fig plot_name formats w = (Ok base, w1) ->
  exists w2 c,
    files w1 !! (plots_dir +:+ "/" +:+ base +:+ ".pdf") = Some c /\
    debug_file_locations byte_size w1 = (Ok tt, w2) /\
    Text ("   - " +:+ base +:+ ".pdf" +:+ " (" +:+ pretty (byte_size (Some c)) +:+ " bytes)")
      ∈ stdout w2 /\
    files w2 = files w1 /\ dirs w2 = dirs w1.
Proof.
  intros Hname Hfree Hpdf Hrun.
  pose proof (save_loop_within fig (plot_name +:+ "_" +:+ strftime_stamp (clock w))
                formats w) as (Hf & _ & Hd & _).
  rewrite <- save_plot_unfold, Hrun in Hf, Hd. simpl in Hf, Hd.
  rewrite save_plot_unfold in Hrun.
  apply bind_Ok_inv in Hrun as ([] & wa & Hmk & Hrun).
  apply bind_Ok_inv in Hrun as ([] & wb & Hloop & Hret).
  unfold mret, M_ret in Hret. injection Hret as <- <-.
  set (base := plot_name +:+ "_" +:+ strftime_stamp (clock w)) in *.
  assert (Hbase : slash ∉ chars base) by (by apply base_name_no_slash).
  assert (Hslash : slash ∉ chars "pdf").
  { intros H. apply list_elem_of_In in H. simpl in H.
    repeat (destruct H as [H|H]; [discriminate H|]). done. }
  destruct (plot_filename_plain base "pdf" Hbase Hslash) as [Hpath Hparent].
  assert (Hdir : plots_dir ∈ dirs wb).
  { assert (Hsame : dirs wb = dirs wa).
    { apply (preserves_run (same dirs)) in Hloop; [done|].
      unfold save_one. frame. }
    rewrite Hsame. unfold makedirs_exist_ok in Hmk.
    destruct (decide (plots_dir ∈ dirs w)); [by simplify_eq|].
    rewrite Hfree in Hmk. rewrite decide_False in Hmk by (by intros [? ?]).
    injection Hmk as <-. simpl. apply elem_of_union_l. by apply elem_of_singleton. }
  assert (Hnofile : files wb !! plots_dir = None).
  { rewrite Hf; [done|]. intros (fmt & _ & E). symmetry in E.
    by apply plot_filename_not_plots_dir in E. }
  destruct (proj2 (save_loop_inv fig base formats wa wb Hloop) "pdf" Hpdf) as [c Hc].
  pose proof (save_loop_not_dir fig base formats wa wb Hloop "pdf" Hpdf) as Hnotdir.
  assert (Hbasename : text (rev (rev_basename (plot_filename base "pdf"))) = base +:+ ".pdf").
  { rewrite Hpath. change (base +:+ "." +:+ "pdf") with (base +:+ ".pdf").
    apply basename_in_plots. rewrite chars_append. intros [H|H]%elem_of_app; [done|].
    apply list_elem_of_In in H. simpl in H.
    repeat (destruct H as [H|H]; [discriminate H|]). done. }
  assert (Hjoin : path_join plots_dir (base +:+ ".pdf") = plot_filename base "pdf").
  { rewrite <- Hbasename. by apply join_parent_basename. }
  destruct (listdir_lists wb plots_dir (plot_filename base "pdf"))
    as (names & Hls & Hin); [done | done | by exists c | done |].
  rewrite Hbasename in Hin.
  assert (Hentry : base +:+ ".pdf" ∈ List.filter ends_with_pdf names).
  { apply list_elem_of_In, filter_In. split; [by apply list_elem_of_In|].
    apply ends_with_pdf_appended. }
  assert (Hthere : forall x, x ∈ List.filter ends_with_pdf names ->
            path_join plots_dir x ∈ dirs wb \/ is_Some (files wb !! path_join plots_dir x)).
  { intros x [Hx _]%list_elem_of_In%filter_In. apply list_elem_of_In in Hx.
    by apply (listdir_plots_names wb names). }
  destruct (debug_file_locations byte_size wb) as [r w2] eqn:Hdbg.
  unfold debug_file_locations in Hdbg.
  erewrite bind_Ok in Hdbg by reflexivity.
  erewrite bind_Ok in Hdbg by reflexivity.
  erewrite bind_Ok in Hdbg by reflexivity.
  erewrite bind_Ok in Hdbg by reflexivity.
  erewrite bind_Ok in Hdbg; cycle 1.
  { unfold path_exists. rewrite bool_decide_eq_true_2; [reflexivity | by left]. }
  cbv iota in Hdbg.
  erewrite bind_Ok in Hdbg by reflexivity.
  erewrite bind_Ok in Hdbg by reflexivity.
  erewrite bind_Ok in Hdbg
    by (eapply listdir_same_disk; [exact Hls | reflexivity | reflexivity]).
  cbv zeta in Hdbg.
  destruct (List.filter ends_with_pdf names) as [|n ns] eqn:Epdf;
    [by apply elem_of_nil in Hentry|].
  erewrite bind_Ok in Hdbg by reflexivity.
  rewrite for_each_listing in Hdbg by exact Hthere.
  rewrite <- Epdf in Hdbg, Hentry. clear Epdf Hthere.
  injection Hdbg as <- <-.
  eexists _, c. split; [rewrite Hpath in Hc; exact Hc|].
  split; [reflexivity|]. split; [|done].
  cbn [stdout set_stdout]. apply elem_of_app. right.
  apply list_elem_of_In, in_map_iff. exists (base +:+ ".pdf").
  split; [|by apply list_elem_of_In].
  unfold listing_line, stored_size. cbn [dirs files set_stdout].
  rewrite Hjoin, decide_False, Hc by done.
  by rewrite !append_assoc.
Qed.

Lemma saved_plot_is_listed_witness :
  let w1 := (save_plot 0 "plot" ["png"; "pdf"] (world_of [] [empty_figure 1])).2 in
  exists w2 c,
    files w1 !! (plots_dir +:+ "/" +:+ "plot_20240307_090500" +:+ ".pdf") = Some c /\
    debug_file_locations sample_size w1 = (Ok tt, w2) /\
    Text ("   - " +:+ "plot_20240307_090500" +:+ ".pdf" +:+ " ("
          +:+ pretty (sample_size (Some c)) +:+ " bytes)") ∈ stdout w2 /\
    files w2 = files w1 /\ dirs w2 = dirs w1.
Proof.
  apply (saved_plot_is_listed sample_size 0 "plot" ["png"; "pdf"]
           (world_of [] [empty_figure 1])).
  - intros H. apply list_elem_of_In in H. simpl in H.
    repeat (destruct H as [H|H]; [discriminate H|]). exact H.
  - reflexivity.
  - right. left.
  - vm_compute. reflexivity.
Defined.

Example debug_listing_of_a_saved_plot :
  let w1 := (save_plot 0 "plot" ["pdf"] (world_of [] [empty_figure 1])).2 in
  last (stdout (debug_file_locations sample_size w1).2)
  = Some (Text "   - plot_20240307_090500.pdf (5027 bytes)").
Proof. vm_compute. reflexivity. Qed.

Lemma listdir_plots_cases (w : world) :
  plots_dir ∈ dirs w \/ is_Some (files w !! plots_dir) ->
  (is_Some (files w !! plots_dir) /\ listdir plots_dir w = (Raise NotADirectoryError, w)) \/
  (exists names, listdir plots_dir w = (Ok names, w)).
Proof.
  intros Hex. unfold listdir.
  destruct (decide (is_Some (files w !! plots_dir))) as [Hfile|Hnofile]; [by left|].
  right. destruct Hex as [Hdir|?]; [|done].
  rewrite decide_True by (by right). by eexists.
Qed.

(** X17. [debug_file_locations] only reads and prints: files,
    directories, figures and input are as before.  It returns unless
    [saved_plots] is a regular file, in which case listing it raises
    [NotADirectoryError]; when nothing is called [saved_plots] its
    last line says that the directory does not exist yet. *)
Theorem debug_file_locations_reads_only (byte_size : option content -> N) (w : world) :
  let r := debug_file_locations byte_size w in
  files r.2 = files w /\ dirs r.2 = dirs w /\ figures r.2 = figures w /\
  stdin r.2 = stdin w /\
  (r.1 = Ok tt \/ (r.1 = Raise NotADirectoryError /\ is_Some (files w !! plots_dir))) /\
  (plots_dir ∉ dirs w -> files w !! plots_dir = None ->
     r.1 = Ok tt /\ last (stdout r.2) = Some (Text "❌ Plots directory does not exist yet")).
Proof.
  intros r.
  assert (Hframe : forall X (proj : world -> X),
            (forall f w, proj (set_stdout f w) = proj w) ->
            proj r.2 = proj w).
  { intros X proj Hp.
    assert (H : preserves (same proj) (debug_file_locations byte_size)).
    { assert (Hout : forall l w0, same proj w0 (set_stdout (fun out => out ++ [l]) w0))
        by (intros l w0; apply Hp).
      unfold debug_file_locations. frame. }
    apply H. }
  split; [by apply (Hframe _ files)|]. split; [by apply (Hframe _ dirs)|].
  split; [by apply (Hframe _ figures)|]. split; [by apply (Hframe _ stdin)|].
  subst r. unfold debug_file_locations.
  erewrite bind_Ok by reflexivity.
  erewrite bind_Ok by reflexivity.
  erewrite bind_Ok by reflexivity.
  erewrite bind_Ok by reflexivity.
  erewrite bind_Ok by reflexivity.
  cbn [dirs files set_stdout].
  destruct (bool_decide (plots_dir ∈ dirs w \/ is_Some (files w !! plots_dir))) eqn:Hex.
  - apply bool_decide_eq_true in Hex. split.
    + erewrite bind_Ok by reflexivity.
      erewrite bind_Ok by reflexivity.
      match goal with |- context [(listdir plots_dir ≫= _) ?w0] =>
        destruct (listdir_plots_cases w0 Hex) as [[Hfile Hls]|[names Hls]]
      end.
      * right. split; [|done]. by erewrite bind_Raise by exact Hls.
      * left. erewrite bind_Ok by exact Hls. cbv zeta.
        assert (Hthere : forall x, x ∈ List.filter ends_with_pdf names ->
                  path_join plots_dir x ∈ dirs w
                  \/ is_Some (files w !! path_join plots_dir x)).
        { intros x [Hx _]%list_elem_of_In%filter_In. apply list_elem_of_In in Hx.
          by apply (listdir_plots_names _ names x Hls). }
        destruct (List.filter ends_with_pdf names) as [|n ns]; [reflexivity|].
        erewrite bind_Ok by reflexivity. by rewrite for_each_listing.
    + intros Hnd Hnf. exfalso. destruct Hex as [?|[c Hc]]; [done | congruence].
  - split; [by left|]. intros _ _. split; [done|]. simpl. apply last_snoc.
Qed.

(** ** What a report returns *)


Lemma yields_ret {A} (P : A -> Prop) (a : A) : P a -> yields P (mret a : M A).
Proof. intros Ha w b w' H. unfold mret, M_ret in H. by simplify_eq. Qed.

Lemma yields_bind {A B} (P : B -> Prop) (m : M A) (k : A -> M B) :
  (forall a, yields P (k a)) -> yields P (m ≫= k).
Proof. intros Hk w b w' (a & w1 & _ & H)%bind_Ok_inv. by apply (Hk a w1 b w'). Qed.

Ltac yields := cbv zeta; repeat (apply yields_bind; intros ?); by apply yields_ret.

Lemma opens_figure_peel {A} (fs0 : list figure) (m : M A) (k : A -> M (option nat))
    (w : world) :
  figures w = fs0 ->
  preserves (same figures) m ->
  (forall a w1, figures w1 = fs0 -> opens_figure fs0 (k a w1)) ->
  opens_figure fs0 ((m ≫= k) w).
Proof.
  intros Hw Hm Hk. unfold mbind, M_bind. specialize (Hm w). unfold same in Hm.
  destruct (m w) as [[a|e] w1]; simpl in Hm.
  - apply Hk. congruence.
  - repeat split; simpl.
    + rewrite Hm, Hw. apply firstn_all.
    + rewrite Hm, Hw. lia.
    + done.
    + done.
Qed.

Lemma opens_figure_new (fs0 : list figure) (c : nat) (k : nat -> M (option nat)) (w : world) :
  figures w = fs0 ->
  preserves (same (registry_below (length fs0))) (k (length fs0)) ->
  yields (fun x => x = Some (length fs0)) (k (length fs0)) ->
  opens_figure fs0 ((new_figure c ≫= k) w).
Proof.
  intros Hw Hk Hy. erewrite bind_Ok by reflexivity. rewrite Hw.
  remember (set_figures (fun fs => fs ++ [empty_figure c]) w) as w1 eqn:Ew1.
  assert (Hfig : figures w1 = fs0 ++ [empty_figure c]) by (subst w1; simpl; by rewrite Hw).
  specialize (Hk w1). unfold same, registry_below in Hk.
  rewrite Hfig in Hk. injection Hk as Htake Hlen.
  rewrite take_app_length in Htake. rewrite length_app in Hlen. simpl in Hlen.
  split; [done|]. split; [lia|]. intros x Hx. split; [|lia].
  destruct (k (length fs0) w1) as [r w2] eqn:E. simpl in Hx. subst r.
  by apply (Hy w1 x w2).
Qed.

#[export] Hint Extern 0 (same (registry_below ?n) _ (set_figures (alter _ ?n) _)) =>
  (unfold same, registry_below; simpl;
   by rewrite take_alter_ge, length_alter by lia) : frame.

Lemma order_history_opens_figure (accepts : artist -> bool) (csv_file : string) (w : world) :
  opens_figure (figures w) (order_history_body accepts csv_file w).
Proof.
  unfold order_history_body.
  apply opens_figure_peel; [done | frame | intros df w1 H1].
  apply opens_figure_peel; [done | frame | intros [] w2 H2].
  apply opens_figure_peel; [done | unfold assign_timestamp; frame | intros df' w3 H3].
  apply opens_figure_new; [done | |].
  - unfold set_title, suptitle, update_axes. frame.
  - yields.
Qed.

Lemma price_analysis_opens_figure (Qsqrt : Q -> Q) (accepts : artist -> bool)
    (csv_file : string) (instrument_id : Z) (w : world) :
  opens_figure (figures w) (price_analysis_body Qsqrt accepts csv_file instrument_id w).
Proof.
  unfold price_analysis_body.
  apply opens_figure_peel; [done | frame | intros df w1 H1].
  apply opens_figure_peel; [done | frame | intros [] w2 H2].
  apply opens_figure_new; [done | |].
  - unfold assign_moving_averages, set_title, suptitle, update_axes. frame.
  - yields.
Qed.

Lemma dashboard_opens_figure (accepts : artist -> bool) (w : world) :
  opens_figure (figures w) (dashboard_body accepts w).
Proof.
  unfold dashboard_body.
  apply opens_figure_peel; [done | frame | intros df w1 H1].
  apply opens_figure_peel; [done | frame | intros df' w2 H2].
  apply opens_figure_new; [done | |].
  - unfold set_title, suptitle, update_axes. frame.
  - yields.
Qed.

(** From the body to the report: the handler turns every exception
    into its message and [None]. *)
Lemma report_outcome_of_body (body : M (option nat)) (message : exn -> line) (w : world) :
  opens_figure (figures w) (body w) ->
  report_outcome message w
    (try_except body (fun e => print (message e) ;; mret None) w).
Proof.
  intros (Htake & Hlen & Hok). unfold try_except.
  destruct (body w) as [[x|e] w1]; simpl in *.
  - destruct (Hok x eq_refl) as [-> Hn]. by split.
  - split; [done|]. split; [|done]. exists e. apply last_snoc.
Qed.

Lemma order_history_outcome (accepts : artist -> bool) (csv_file : string) (w : world) :
  report_outcome (order_history_message csv_file) w
                 (create_order_history_plots accepts csv_file w).
Proof.
  unfold create_order_history_plots. erewrite bind_Ok by reflexivity.
  pose proof (report_outcome_of_body (order_history_body accepts csv_file)
                (order_history_message csv_file)
                (set_stdout (fun out => out ++ [Text "📊 Loading order history..."]) w)
                (order_history_opens_figure accepts csv_file _)) as H.
  unfold try_except, order_history_message in *.
  destruct (order_history_body _ _ _) as [[x|e] w1]; [exact H|].
  by destruct (is_FileNotFoundError e).
Qed.

Lemma price_analysis_outcome (Qsqrt : Q -> Q) (accepts : artist -> bool)
    (csv_file : string) (instrument_id : Z) (w : world) :
  report_outcome (price_analysis_message csv_file) w
                 (create_price_analysis_plots Qsqrt accepts csv_file instrument_id w).
Proof.
  unfold create_price_analysis_plots. erewrite bind_Ok by reflexivity.
  pose proof (report_outcome_of_body (price_analysis_body Qsqrt accepts csv_file instrument_id)
                (price_analysis_message csv_file)
                (set_stdout (fun out => out ++
                   [Text ("📈 Loading price data for instrument "
                          +:+ pretty instrument_id +:+ "...")]) w)
                (price_analysis_opens_figure Qsqrt accepts csv_file instrument_id _)) as H.
  unfold try_except, price_analysis_message in *.
  destruct (price_analysis_body _ _ _ _ _) as [[x|e] w1]; [exact H|].
  by destruct (is_FileNotFoundError e).
Qed.

Lemma dashboard_outcome (accepts : artist -> bool) (w : world) :
  report_outcome dashboard_message w (create_comprehensive_dashboard accepts w).
Proof.
  unfold create_comprehensive_dashboard.
  pose proof (report_outcome_of_body (dashboard_body accepts) dashboard_message w
                (dashboard_opens_figure accepts w)) as H.
  unfold try_except, dashboard_message in *.
  destruct (dashboard_body _ _) as [[x|e] w1]; [exact H|].
  by destruct (is_FileNotFoundError e).
Qed.

(** C6, as the code has it.  A report whose input cannot be loaded
    aborts: the figure registry is as before (no chart composed),
    [save_plot] is not reached and no file or directory is created;
    only the message is printed.  For the dashboard this holds when
    either of its two inputs is missing.  When a report gives up at a
    later stage, the menu still saves nothing and no file or directory
    is created, but the figure the report had opened stays in pyplot's
    registry, after the figures that were there. *)
Theorem failed_load_aborts_report (Qsqrt : Q -> Q) (accepts : artist -> bool)
    (byte_size : option content -> N) (w : world) :
  (~ loadable w "order_history.csv" \/ ~ loadable w "price_data_instrument_0.csv" ->
     exists w', create_comprehensive_dashboard accepts w = (Ok None, w') /\
                handle_choice Qsqrt accepts byte_size "3" w = (Ok false, w') /\
                reported w w') /\
  (~ loadable w "order_history.csv" ->
     exists w', create_order_history_plots accepts "order_history.csv" w = (Ok None, w') /\
                handle_choice Qsqrt accepts byte_size "1" w = (Ok false, w') /\
                reported w w') /\
  (~ loadable w "price_data_instrument_0.csv" ->
     exists w', create_price_analysis_plots Qsqrt accepts "price_data_instrument_0.csv" 0 w
                = (Ok None, w') /\
                handle_choice Qsqrt accepts byte_size "2" w = (Ok false, w') /\
                reported w w') /\
  (forall csv_file output_image, ~ loadable w csv_file ->
     exists r w', create_chart accepts csv_file output_image w = (r, w') /\
                  files w' = files w /\ dirs w' = dirs w /\ figures w' = figures w) /\
  (forall w',
     (create_order_history_plots accepts "order_history.csv" w = (Ok None, w') ->
      handle_choice Qsqrt accepts byte_size "1" w = (Ok false, w') /\
      files w' = files w /\ dirs w' = dirs w /\
      take (length (figures w)) (figures w') = figures w /\
      (length (figures w') <= S (length (figures w)))%nat) /\
     (create_price_analysis_plots Qsqrt accepts "price_data_instrument_0.csv" 0 w
      = (Ok None, w') ->
      handle_choice Qsqrt accepts byte_size "2" w = (Ok false, w') /\
      files w' = files w /\ dirs w' = dirs w /\
      take (length (figures w)) (figures w') = figures w /\
      (length (figures w') <= S (length (figures w)))%nat) /\
     (create_comprehensive_dashboard accepts w = (Ok None, w') ->
      handle_choice Qsqrt accepts byte_size "3" w = (Ok false, w') /\
      files w' = files w /\ dirs w' = dirs w /\
      take (length (figures w)) (figures w') = figures w /\
      (length (figures w') <= S (length (figures w)))%nat)).
Proof.
  split; [|split; [|split; [|split]]].
  - intros Hn. destruct (dashboard_load_fails accepts w Hn) as (w' & Hrun & Hrep).
    exists w'. split; [done|]. split; [by apply handle_choice_3 | done].
  - intros Hn. destruct (order_history_load_fails accepts _ w Hn) as (w' & Hrun & Hrep).
    exists w'. split; [done|]. split; [by apply handle_choice_1 | done].
  - intros Hn. destruct (price_analysis_load_fails Qsqrt accepts _ 0 w Hn) as (w' & Hrun & Hrep).
    exists w'. split; [done|]. split; [by apply handle_choice_2 | done].
  - intros csv_file output_image Hn. by apply create_chart_load_fails.
  - intros w'. split; [|split]; intros Hrun.
    + split; [by apply handle_choice_1|].
      pose proof (keeps_files_order_history accepts "order_history.csv" w) as Hk.
      pose proof (order_history_outcome accepts "order_history.csv" w) as Ho.
      rewrite Hrun in Hk, Ho. destruct Hk as [Hf Hd], Ho as (Htake & _ & Hlen). done.
    + split; [by apply handle_choice_2|].
      pose proof (keeps_files_price_analysis Qsqrt accepts "price_data_instrument_0.csv" 0 w) as Hk.
      pose proof (price_analysis_outcome Qsqrt accepts "price_data_instrument_0.csv" 0 w) as Ho.
      rewrite Hrun in Hk, Ho. destruct Hk as [Hf Hd], Ho as (Htake & _ & Hlen). done.
    + split; [by apply handle_choice_3|].
      pose proof (keeps_files_dashboard accepts w) as Hk.
      pose proof (dashboard_outcome accepts w) as Ho.
      rewrite Hrun in Hk, Ho. destruct Hk as [Hf Hd], Ho as (Htake & _ & Hlen). done.
Qed.

Lemma failed_load_aborts_report_witness :
  exists w',
    create_comprehensive_dashboard draws_all (world_of [] []) = (Ok None, w') /\
    handle_choice sample_sqrt draws_all sample_size "3" (world_of [] []) = (Ok false, w') /\
    reported (world_of [] []) w'.
Proof.
  destruct (failed_load_aborts_report sample_sqrt draws_all sample_size (world_of [] []))
    as [H _].
  apply H. left. apply absent_not_loadable. reflexivity.
Defined.

(** C6, as stated, fails: an order history file that loads but has no
    [side] column makes the report give up after it has opened its
    figure and drawn the first panel; the figure stays in the
    registry. *)
Lemma failed_stage_leaves_figure :
  ~ (forall (accepts : artist -> bool) (w w' : world),
       create_order_history_plots accepts "order_history.csv" w = (Ok None, w') ->
       figures w' = figures w).
Proof.
  intros H.
  set (w := world_of [("order_history.csv", Csv orders_without_side)] []).
  assert (Hrun : create_order_history_plots draws_all "order_history.csv" w
                 = (Ok None, (create_order_history_plots draws_all "order_history.csv" w).2))
    by (vm_compute; reflexivity).
  apply H in Hrun. apply (f_equal length) in Hrun.
  vm_compute in Hrun. discriminate Hrun.
Qed.

(** X18. What the three reports return.  A report never raises.  When
    it returns a figure, that figure is the one it has just opened,
    at the end of pyplot's registry; when it returns [None] the last
    line printed is its failure message; in both cases the figures
    that were open before are unchanged and at most one figure has
    been added. *)
Theorem reports_return_their_figure (Qsqrt : Q -> Q) (accepts : artist -> bool)
    (csv_file : string) (instrument_id : Z) (w : world) :
  report_outcome (order_history_message csv_file) w
                 (create_order_history_plots accepts csv_file w) /\
  report_outcome (price_analysis_message csv_file) w
                 (create_price_analysis_plots Qsqrt accepts csv_file instrument_id w) /\
  report_outcome dashboard_message w (create_comprehensive_dashboard accepts w).
Proof.
  split; [apply order_history_outcome|].
  split; [apply price_analysis_outcome | apply dashboard_outcome].
Qed.

(** X19. The three reports never raise, never create, change or
    remove a file or a directory, and never read from standard
    input. *)
Theorem reports_leave_disk_and_input (Qsqrt : Q -> Q) (accepts : artist -> bool)
    (csv_file : string) (instrument_id : Z) :
  (never_raises (create_order_history_plots accepts csv_file) /\
   keeps_files (create_order_history_plots accepts csv_file) /\
   preserves (same stdin) (create_order_history_plots accepts csv_file)) /\
  (never_raises (create_price_analysis_plots Qsqrt accepts csv_file instrument_id) /\
   keeps_files (create_price_analysis_plots Qsqrt accepts csv_file instrument_id) /\
   preserves (same stdin) (create_price_analysis_plots Qsqrt accepts csv_file instrument_id)) /\
  (never_raises (create_comprehensive_dashboard accepts) /\
   keeps_files (create_comprehensive_dashboard accepts) /\
   preserves (same stdin) (create_comprehensive_dashboard accepts)).
Proof.
  repeat split;
    auto using order_history_never_raises, price_analysis_never_raises,
      dashboard_never_raises;
    try apply keeps_files_order_history; try apply keeps_files_price_analysis;
    try apply keeps_files_dashboard; try apply same_stdin_order_history;
    try apply same_stdin_price_analysis; try apply same_stdin_dashboard.
Qed.

(** ** A menu choice saves the figure its report has built *)

Lemma pdf_supported : lower "pdf" ∈ supported_formats.
Proof. apply (bool_decide_unpack _). vm_compute. exact I. Qed.

Lemma pdf_no_slash : slash ∉ chars "pdf".
Proof.
  intros H. apply list_elem_of_In in H. simpl in H.
  repeat (destruct H as [H|H]; [discriminate H|]). done.
Qed.

Lemma report_then_save (report : M (option nat)) (plot_name : string) (w w1 : world)
    (fig : nat) (g : figure) :
  report w = (Ok (Some fig), w1) ->
  files w1 = files w -> dirs w1 = dirs w -> clock w1 = clock w ->
  figures w1 !! fig = Some g ->
  slash ∉ chars plot_name ->
  plots_dir ∈ dirs w ->
  plot_filename (plot_name +:+ "_" +:+ strftime_stamp (clock w)) "pdf" ∉ dirs w ->
  exists w2,
    (fig ← report; save_and_show fig plot_name ;; mret false) w = (Ok false, w2) /\
    files w2 = <[plots_dir +:+ "/" +:+ plot_name +:+ "_" +:+ strftime_stamp (clock w)
                 +:+ ".pdf" := Image g "pdf" (Some 300%nat) true]> (files w) /\
    dirs w2 = dirs w /\ figures w2 = figures w1.
Proof.
  intros Hrun Hf Hd Hc Hg Hname Hdir Hfree.
  set (base := plot_name +:+ "_" +:+ strftime_stamp (clock w)) in *.
  destruct (plot_filename_plain base "pdf") as [Hpath Hparent];
    [by apply base_name_no_slash | apply pdf_no_slash|].
  destruct (makedirs_ok plots_dir w1) as (wa & Hmk & Hda & Hfa & Hfiga & Hca);
    [left; by rewrite Hd|].
  assert (Hda' : dirs wa = dirs w).
  { rewrite Hda, Hd. apply subseteq_union_1_L. by apply singleton_subseteq_l. }
  destruct (save_loop_ok fig g base default_formats wa) as (wb & Hloop & Hfb & Hdb & Hfigb).
  { by rewrite Hfiga. }
  { intros fmt Hin. apply list_elem_of_In in Hin. simpl in Hin. destruct Hin as [<-|[]].
    split; [apply pdf_supported|]. rewrite Hda'. split; [right; by rewrite Hparent | done]. }
  assert (Hsave : save_plot fig plot_name default_formats w1 = (Ok base, wb)).
  { rewrite save_plot_unfold, Hc. fold base.
    erewrite bind_Ok by exact Hmk.
    erewrite bind_Ok by exact Hloop. reflexivity. }
  exists wb. split; [|split; [|split]].
  - erewrite bind_Ok by exact Hrun. cbn [save_and_show].
    erewrite bind_Ok; [reflexivity|].
    erewrite bind_Ok by exact Hsave. reflexivity.
  - rewrite Hfb, Hfa, Hf. simpl. rewrite Hpath.
    change (base +:+ "." +:+ "pdf") with (base +:+ ".pdf").
    unfold base. by rewrite !append_assoc.
  - congruence.
  - congruence.
Qed.


Lemma report_figure_open (message : exn -> line) (w w1 : world) (fig : nat)
    (r : outcome (option nat) * world) :
  report_outcome message w r -> r = (Ok (Some fig), w1) ->
  exists g, figures w1 !! fig = Some g.
Proof.
  intros [_ H] ->. simpl in H. destruct H as [-> Hlen].
  apply lookup_lt_is_Some. lia.
Qed.

(** X20. A menu choice saves the figure its report has built.  For
    the choices 1, 2 and 3: when the report returns a figure, the
    plots directory exists and the target is not a directory, the
    choice writes exactly one file,
    [saved_plots/<name>_<timestamp>.pdf], holding that figure as pdf
    at 300 dpi with a tight bounding box; no other file or directory
    changes and the loop continues. *)
Theorem menu_choice_saves_its_figure (Qsqrt : Q -> Q) (accepts : artist -> bool)
    (byte_size : option content -> N)
    (choice : string) (report : M (option nat)) (plot_name : string)
    (w w1 : world) (fig : nat) :
  (choice, report, plot_name) ∈ menu_reports Qsqrt accepts ->
  report w = (Ok (Some fig), w1) ->
  plots_dir ∈ dirs w ->
  plot_filename (plot_name +:+ "_" +:+ strftime_stamp (clock w)) "pdf" ∉ dirs w ->
  exists g w2,
    figures w1 !! fig = Some g /\
    handle_choice Qsqrt accepts byte_size choice w = (Ok false, w2) /\
    files w2 = <[plots_dir +:+ "/" +:+ plot_name +:+ "_" +:+ strftime_stamp (clock w)
                 +:+ ".pdf" := Image g "pdf" (Some 300%nat) true]> (files w) /\
    dirs w2 = dirs w /\ figures w2 = figures w1.
Proof.
  intros Hin Hrun Hdir Hfree.
  destruct report_names_no_slash as (N1 & N2 & N3).
  apply list_elem_of_In in Hin. simpl in Hin.
  destruct Hin as [E|[E|[E|[]]]]; injection E as <- <- <-.
  - destruct (report_figure_open _ _ _ _ _ (order_history_outcome accepts _ w) Hrun) as [g Hg].
    destruct (keeps_files_order_history accepts "order_history.csv" w) as [Hf Hd].
    rewrite Hrun in Hf, Hd. simpl in Hf, Hd.
    assert (Hc : clock w1 = clock w).
    { apply (preserves_run (same clock)) in Hrun; [done|].
      unfold create_order_history_plots, order_history_body, assign_timestamp,
        set_title, suptitle, update_axes. frame. }
    destruct (report_then_save _ "order_history_analysis" w w1 fig g Hrun)
      as (w2 & H2 & Hrest); try done.
    by exists g, w2.
  - destruct (report_figure_open _ _ _ _ _
                (price_analysis_outcome Qsqrt accepts _ 0 w) Hrun) as [g Hg].
    destruct (keeps_files_price_analysis Qsqrt accepts "price_data_instrument_0.csv" 0 w)
      as [Hf Hd].
    rewrite Hrun in Hf, Hd. simpl in Hf, Hd.
    assert (Hc : clock w1 = clock w).
    { apply (preserves_run (same clock)) in Hrun; [done|].
      unfold create_price_analysis_plots, price_analysis_body, assign_moving_averages,
        set_title, suptitle, update_axes. frame. }
    destruct (report_then_save _ "price_analysis_instrument_0" w w1 fig g Hrun)
      as (w2 & H2 & Hrest); try done.
    by exists g, w2.
  - destruct (report_figure_open _ _ _ _ _ (dashboard_outcome accepts w) Hrun) as [g Hg].
    destruct (keeps_files_dashboard accepts w) as [Hf Hd].
    rewrite Hrun in Hf, Hd. simpl in Hf, Hd.
    assert (Hc : clock w1 = clock w).
    { apply (preserves_run (same clock)) in Hrun; [done|].
      unfold create_comprehensive_dashboard, dashboard_body,
        set_title, suptitle, update_axes. frame. }
    destruct (report_then_save _ "trading_dashboard" w w1 fig g Hrun)
      as (w2 & H2 & Hrest); try done.
    by exists g, w2.
Qed.

Lemma menu_choice_saves_its_figure_witness :
  let w := set_dirs (fun _ => {[plots_dir]})
             (world_of [("price_data_instrument_0.csv", Csv sample_prices)] []) in
  let w1 := (create_price_analysis_plots sample_sqrt draws_all
               "price_data_instrument_0.csv" 0 w).2 in
  exists g w2,
    figures w1 !! 0%nat = Some g /\
    handle_choice sample_sqrt draws_all sample_size "2" w = (Ok false, w2) /\
    files w2 = <[plots_dir +:+ "/" +:+ "price_analysis_instrument_0" +:+ "_"
                 +:+ strftime_stamp (clock w) +:+ ".pdf"
                 := Image g "pdf" (Some 300%nat) true]> (files w) /\
    dirs w2 = dirs w /\ figures w2 = figures w1.
Proof.
  intros w w1.
  apply (menu_choice_saves_its_figure sample_sqrt draws_all sample_size "2"
           (create_price_analysis_plots sample_sqrt draws_all "price_data_instrument_0.csv" 0)
           "price_analysis_instrument_0" w w1 0).
  - right. left.
  - vm_compute. reflexivity.
  - vm_compute. reflexivity.
  - apply (bool_decide_unpack _). vm_compute. exact I.
Defined.

(** ** File names and clock readings *)

Lemma chars_length (s : string) : length (chars s) = String.length s.
Proof. induction s as [|c s IH]; [done|]. unfold chars in *. simpl. by rewrite IH. Qed.

Lemma append_inv_tail (a b c : string) : a +:+ c = b +:+ c -> a = b.
Proof.
  intros H. apply chars_inj. apply (f_equal chars) in H.
  rewrite !chars_append in H. by apply app_inv_tail in H.
Qed.

Lemma plot_filename_base_inj (b1 b2 fmt : string) :
  plot_filename b1 fmt = plot_filename b2 fmt -> b1 = b2.
Proof.
  unfold plot_filename. rewrite !path_join_plots_dir. intros H.
  apply (append_inv_tail _ _ ("." +:+ fmt)).
  destruct (b1 +:+ "." +:+ fmt) as [|c1 x1], (b2 +:+ "." +:+ fmt) as [|c2 x2];
    repeat case_decide; subst; try discriminate H; try done.
  by do 2 apply String.app_inj in H.
Qed.

Lemma stamp_digits (t : datetime) :
  strftime_stamp t
  = pad4 (year t) +:+ pad2 (month t) +:+ pad2 (day t) +:+ "_"
    +:+ pad2 (hour t) +:+ pad2 (minute t) +:+ pad2 (second t).
Proof. reflexivity. Qed.

Lemma pad2_inj (a b : Z) (s1 s2 : string) :
  (0 <= a <= 99)%Z -> (0 <= b <= 99)%Z ->
  pad2 a +:+ s1 = pad2 b +:+ s2 -> a = b /\ s1 = s2.
Proof.
  intros Ha Hb H. unfold pad2 in H. rewrite !append_cons in H.
  injection H as H1 H2 H3. split; [|done].
  rewrite <- (pad2_value a), <- (pad2_value b) by done.
  unfold pad2. by rewrite H1, H2.
Qed.

Lemma pad4_inj (a b : Z) (s1 s2 : string) :
  (0 <= a <= 9999)%Z -> (0 <= b <= 9999)%Z ->
  pad4 a +:+ s1 = pad4 b +:+ s2 -> a = b /\ s1 = s2.
Proof.
  intros Ha Hb H. unfold pad4, pad2 in H. rewrite !append_cons in H.
  injection H as H1 H2 H3 H4 H5. split; [|done].
  rewrite <- (pad4_value a), <- (pad4_value b) by done.
  unfold pad4, pad2. by rewrite H1, H2, H3, H4.
Qed.

Lemma strftime_stamp_inj (t1 t2 : datetime) :
  valid_datetime t1 -> valid_datetime t2 ->
  strftime_stamp t1 = strftime_stamp t2 -> t1 = t2.
Proof.
  intros (Hy1 & Hm1 & Hd1 & Hh1 & Hi1 & Hs1) (Hy2 & Hm2 & Hd2 & Hh2 & Hi2 & Hs2) H.
  rewrite !stamp_digits in H.
  apply pad4_inj in H as [Ey H]; [|lia..].
  apply pad2_inj in H as [Em H]; [|lia..].
  apply pad2_inj in H as [Ed H]; [|lia..].
  apply String.app_inj in H.
  apply pad2_inj in H as [Eh H]; [|lia..].
  apply pad2_inj in H as [Ei H]; [|lia..].
  change (pad2 (second t1) +:+ "" = pad2 (second t2) +:+ "") in H.
  apply pad2_inj in H as [Es _]; [|lia..].
  destruct t1, t2. simpl in *. by subst.
Qed.

(** X21. File names tell saves apart: for one format, two file names
    of [save_plot] coincide only when the plot names and the clock
    readings (to the second) coincide.  A save in a later second never
    overwrites an earlier one. *)
Theorem saved_names_differ_by_second (n1 n2 fmt : string) (t1 t2 : datetime) :
  valid_datetime t1 -> valid_datetime t2 ->
  plot_filename (n1 +:+ "_" +:+ strftime_stamp t1) fmt
  = plot_filename (n2 +:+ "_" +:+ strftime_stamp t2) fmt ->
  n1 = n2 /\ t1 = t2.
Proof.
  intros Hv1 Hv2 H. apply plot_filename_base_inj in H.
  apply (f_equal chars) in H. rewrite !chars_append in H.
  apply app_inj_2 in H as [Hn H].
  - split; [by apply chars_inj|].
    apply app_inv_head in H. apply chars_inj in H.
    by apply strftime_stamp_inj.
  - rewrite !length_app, !chars_length. reflexivity.
Qed.

Lemma saved_names_differ_by_second_witness :
  "plot" = "plot" /\ sample_clock = sample_clock.
Proof.
  apply (saved_names_differ_by_second "plot" "plot" "pdf" sample_clock sample_clock).
  - unfold valid_datetime. simpl. lia.
  - unfold valid_datetime. simpl. lia.
  - reflexivity.
Defined.

(** ** The colours of [create_chart] fix the implementations it can draw *)

Lemma median_throughput_columns (df : DataFrame) (recs : list BenchmarkRecord) (w : world) :
  holds_records df recs ->
  exists t, median_throughput df w = (Ok t, w) /\
            (forall c, c ∈ t_columns t <-> exists r, r ∈ recs /\ c = LStr (impl r)).
Proof.
  intros Hrecs.
  destruct (median_throughput_table df recs w Hrecs) as (t & Hrun & _ & _ & _ & _ & Hcols & _).
  by exists t.
Qed.

Lemma for_each_Ok_inv {A} (l : list A) (body : A -> M unit) (w w' : world) (x : A) :
  for_each l body w = (Ok tt, w') -> x ∈ l ->
  exists w0 w1, body x w0 = (Ok tt, w1).
Proof.
  revert w. induction l as [|y l IH]; intros w Hrun Hx; [by apply elem_of_nil in Hx|].
  simpl in Hrun. apply bind_Ok_inv in Hrun as ([] & w1 & Hy & Hrest).
  apply elem_of_cons in Hx as [->|Hx]; [by eauto | by eapply IH].
Qed.

Lemma plot_bar_inv (accepts : artist -> bool) (t : Table) (w w' : world) (fig : nat) :
  plot_bar accepts t w = (Ok fig, w') ->
  t_columns t <> [] /\
  forall c, c ∈ t_columns t -> c = LStr "virtual" \/ c = LStr "non-virtual".
Proof.
  unfold plot_bar. intros Hrun.
  destruct (t_columns t) as [|c0 cs] eqn:Hcols; [done|]. split; [done|].
  rewrite <- Hcols in *. clear Hcols.
  apply bind_Ok_inv in Hrun as (f & w1 & _ & Hrun).
  apply bind_Ok_inv in Hrun as ([] & w2 & Hloop & _).
  intros c [j Hj]%list_elem_of_lookup.
  destruct (for_each_Ok_inv _ _ _ _ (j, c) Hloop) as (wa & wb & Hbody).
  { by apply (elem_of_lookup_imap_2 (fun j c => (j, c))). }
  simpl in Hbody. destruct c as [name| | | | |]; try done.
  case_decide as Hname; [|done]. destruct Hname as [->| ->]; [by left | by right].
Qed.

(** X22. The colour dictionary of [create_chart] names two
    implementations.  When [create_chart] returns for a results file
    that was loaded, the file has at least one row and every
    implementation in it is [virtual] or [non-virtual]; any other
    label, or no row at all, ends the call with an exception. *)
Theorem create_chart_needs_known_impl (accepts : artist -> bool)
    (csv_file output_image : string) (w w' : world) (df : DataFrame)
    (recs : list BenchmarkRecord) :
  csv_file ∉ dirs w -> files w !! csv_file = Some (Csv df) ->
  holds_records df recs ->
  create_chart accepts csv_file output_image w = (Ok tt, w') ->
  recs <> [] /\
  forall r, r ∈ recs -> impl r = "virtual" \/ impl r = "non-virtual".
Proof.
  intros Hd Hf Hrecs Hrun. unfold create_chart in Hrun.
  erewrite bind_Ok in Hrun; cycle 1.
  { apply try_except_Ok. erewrite bind_Ok by (by apply read_csv_loadable). reflexivity. }
  cbv iota beta in Hrun.
  destruct (median_throughput_columns df recs w Hrecs) as (t & Ht & Hcols).
  erewrite bind_Ok in Hrun by exact Ht.
  apply bind_Ok_inv in Hrun as (fig & w1 & Hbar & _).
  apply plot_bar_inv in Hbar as [Hne Hknown]. split.
  - intros ->. destruct (t_columns t) as [|c cs] eqn:E; [done|].
    destruct (proj1 (Hcols c)) as (r & Hr & _); [by left|].
    by apply elem_of_nil in Hr.
  - intros r Hr.
    destruct (Hknown (LStr (impl r))) as [E|E]; [apply Hcols; by exists r | |];
      injection E as ->; [by left | by right].
Qed.

Lemma create_chart_needs_known_impl_witness :
  sample_records <> [] /\
  forall r, r ∈ sample_records -> impl r = "virtual" \/ impl r = "non-virtual".
Proof.
  apply (create_chart_needs_known_impl draws_all "results.csv" "throughput_chart.png"
           (world_of [("results.csv", Csv (throughput_frame sample_records))] [])
           (create_chart draws_all "results.csv" "throughput_chart.png"
              (world_of [("results.csv", Csv (throughput_frame sample_records))] [])).2
           (throughput_frame sample_records) sample_records).
  - apply (bool_decide_unpack _). vm_compute. exact I.
  - reflexivity.
  - apply throughput_frame_holds.
  - vm_compute. reflexivity.
Defined.

(** ** The benchmark script from its first line *)



#[global] Instance appends_output_preorder : PreOrder appends_output.
Proof.
  split; [intros w; unfold appends_output; reflexivity|].
  intros w1 w2 w3 H1 H2. unfold appends_output in *. by etrans.
Qed.

#[export] Hint Extern 0 (appends_output _ (set_stdout (fun out => out ++ _) _)) =>
  (unfold appends_output; simpl; by apply prefix_app_r) : frame.
#[export] Hint Extern 0 (ignores_stdin appends_output) =>
  (intros ? ?; by unfold appends_output) : frame.
#[export] Hint Extern 0 (ignores_figures appends_output) =>
  (intros ? ?; by unfold appends_output) : frame.
#[export] Hint Extern 0 (appends_output _ (set_figures _ _)) =>
  (by unfold appends_output) : frame.
#[export] Hint Extern 0 (appends_output _ (set_files _ _)) =>
  (by unfold appends_output) : frame.
#[export] Hint Extern 0 (appends_output _ (set_dirs _ _)) =>
  (by unfold appends_output) : frame.

Lemma diagnostics_disk : preserves (same disk) diagnostics.
Proof. unfold diagnostics. frame. Qed.

Lemma diagnostics_output (w : world) :
  exists rest,
    stdout (diagnostics w).2
    = stdout w ++ [Text rule;
                   Text ("🐍 Python's Current Working Directory is: " +:+ cwd w);
                   Text (nl +:+ "Files I can see in this directory:")] ++ rest.
Proof.
  unfold diagnostics.
  erewrite bind_Ok by reflexivity.
  erewrite bind_Ok by reflexivity.
  erewrite bind_Ok by reflexivity.
  erewrite bind_Ok by reflexivity.
  match goal with |- exists rest, stdout (?m ?w3).2 = _ =>
    assert (H : preserves appends_output m) by frame;
    destruct (H w3) as [rest Hrest]; exists rest; rewrite Hrest
  end.
  simpl. by rewrite <- !app_assoc.
Qed.

(** X23. The benchmark script as a whole, however it ends: it first
    prints the rule, the working directory and the heading of the file
    list; it creates no directory and changes no file other than
    [throughput_chart.png]. *)
Theorem benchmark_script_effects (accepts : artist -> bool) (w : world) :
  let w' := (benchmark_script accepts w).2 in
  (forall p, p <> "throughput_chart.png" -> files w' !! p = files w !! p) /\
  dirs w' = dirs w /\
  exists rest,
    stdout w' = stdout w ++ [Text rule;
                             Text ("🐍 Python's Current Working Directory is: " +:+ cwd w);
                             Text (nl +:+ "Files I can see in this directory:")] ++ rest.
Proof.
  intros w'. subst w'. unfold benchmark_script. split; [|split].
  - intros p Hp.
    assert (H : preserves (writes_within (fun q => q = "throughput_chart.png") ∅)
                          (diagnostics ;; create_chart_default accepts)).
    { apply preserves_bind; [typeclasses eauto | |intros _].
      - apply writes_within_keeps. intros w0.
        pose proof (diagnostics_disk w0) as E. unfold same, disk in E. by injection E.
      - exact (create_chart_within accepts "results.csv" "throughput_chart.png"). }
    destruct (H w) as [Hf _]. by apply Hf.
  - assert (H : preserves (same dirs) (diagnostics ;; create_chart_default accepts)).
    { apply preserves_bind; [typeclasses eauto | unfold diagnostics; frame | intros _].
      assert (Hbar : forall t, preserves (same dirs) (plot_bar accepts t)).
      { intros t. apply preserves_plot_bar; [typeclasses eauto|]. frame. }
      unfold create_chart_default, create_chart, set_title, figtext, update_axes. frame. }
    apply H.
  - destruct (diagnostics_output w) as [rest Hrest].
    unfold mbind, M_bind. destruct (diagnostics w) as [[[]|e] w1]; simpl in *.
    + assert (H : preserves appends_output (create_chart_default accepts)).
      { assert (Hbar : forall t, preserves appends_output (plot_bar accepts t)).
        { intros t. apply preserves_plot_bar; [typeclasses eauto|]. frame. }
        unfold create_chart_default, create_chart, set_title, figtext, update_axes. frame. }
      destruct (H w1) as [rest' Hrest']. exists (rest ++ rest').
      rewrite Hrest', Hrest. by rewrite <- !app_assoc.
    + by exists rest.
Qed.

(** ** What the throughput chart shows *)

Lemma assoc_zip_lookup {K V} `{EqDecision K} (ks : list K) (vs : list V) (j : nat)
    (k : K) (v : V) :
  NoDup ks -> ks !! j = Some k -> assoc k (zip ks vs) = Some v -> vs !! j = Some v.
Proof.
  intros Hnd. revert vs j. induction Hnd as [|k0 ks Hk0 Hnd IH]; intros vs j Hj Ha; [done|].
  destruct vs as [|v0 vs]; [done|]. simpl in Ha.
  destruct j as [|j]; simpl in Hj.
  - injection Hj as ->. destruct (decide (k = k)); [by injection Ha as ->|done].
  - destruct (decide (k0 = k)) as [->|_].
    + exfalso. apply Hk0. by eapply list_elem_of_lookup_2.
    + simpl. by apply IH.
Qed.

(** Column [j] of that table: the medians of the implementation, one
    per pattern. *)
Lemma table_column_medians (t : Table) (recs : list BenchmarkRecord) (j : nat) (i : string) :
  t_index t = pattern_order ->
  length (t_data t) = 3%nat ->
  NoDup (t_columns t) ->
  (forall p, LStr p ∈ pattern_order ->
     cell t (LStr p) (LStr i) = Some (median (group_ops p i recs))) ->
  t_columns t !! j = Some (LStr i) ->
  table_column t j = map (fun p => median (group_ops p i recs)) chart_patterns.
Proof.
  intros Hidx Hlen Hnd Hcell Hj. unfold table_column.
  destruct (t_data t) as [|r1 [|r2 [|r3 [|]]]] eqn:Hdata; try done.
  assert (Hrow : forall p row,
            assoc (LStr p) (zip pattern_order [r1; r2; r3]) = Some row ->
            LStr p ∈ pattern_order -> nth j row NaN = median (group_ops p i recs)).
  { intros p row Hrow Hp. specialize (Hcell p Hp). unfold cell in Hcell.
    rewrite Hidx, Hdata, Hrow in Hcell. simpl in Hcell.
    apply nth_lookup_Some. by eapply assoc_zip_lookup. }
  simpl. f_equal; [|f_equal; [|f_equal]].
  - apply Hrow; [reflexivity | by left].
  - apply Hrow; [reflexivity | right; by left].
  - apply Hrow; [reflexivity | right; right; by left].
Qed.


Lemma draw_last (accepts : artist -> bool) (fs : list figure) (arts : list artist)
    (a : artist) (w w' : world) :
  figures w = fs ++ [single_axes "" arts []] ->
  draw accepts (length fs) 0 a w = (Ok tt, w') ->
  figures w' = fs ++ [single_axes "" (arts ++ [a]) []].
Proof.
  intros Hw. unfold draw. destruct (accepts a); [|done].
  unfold update_axes, update_figure. intros H. injection H as <-. simpl. rewrite Hw.
  replace (length fs) with (length fs + 0)%nat by lia. by rewrite alter_app_r.
Qed.

Lemma bars_loop (accepts : artist -> bool) (t : Table) (fs : list figure)
    (impls : list string) :
  forall (h : nat -> nat) (arts : list artist) (w w' : world),
  figures w = fs ++ [single_axes "" arts []] ->
  for_each (imap (fun j c => (h j, c)) (map LStr impls))
    (fun jc =>
       match snd jc with
       | LStr name =>
           if decide (name = "virtual" \/ name = "non-virtual")
           then draw accepts (length fs) 0
                     (Bar (t_index t) (fillna0 (table_column t (fst jc))) name)
           else raise (KeyError (LStr name))
       | other => raise (KeyError other)
       end) w = (Ok tt, w') ->
  figures w'
  = fs ++ [single_axes ""
             (arts ++ imap (fun j i => Bar (t_index t) (fillna0 (table_column t (h j))) i)
                           impls) []].
Proof.
  induction impls as [|i impls IH]; intros h arts w w' Hw Hrun.
  - simpl in *. unfold mret, M_ret in Hrun. injection Hrun as <-.
    by rewrite app_nil_r.
  - cbn [map] in Hrun. rewrite imap_cons in Hrun. cbn [for_each] in Hrun.
    apply bind_Ok_inv in Hrun as ([] & w1 & Hdraw & Hrun).
    cbn [fst snd] in Hdraw. case_decide; [|done].
    apply (draw_last _ _ _ _ _ _ Hw) in Hdraw.
    apply (IH (h ∘ S) _ _ _ Hdraw) in Hrun.
    rewrite Hrun, imap_cons, <- app_assoc. reflexivity.
Qed.

Lemma string_columns (cols : list label) (recs : list BenchmarkRecord) :
  (forall c, c ∈ cols <-> exists r, r ∈ recs /\ c = LStr (impl r)) ->
  exists impls, cols = map LStr impls.
Proof.
  intros H. assert (Hall : Forall (fun c => exists i, c = LStr i) cols).
  { apply Forall_forall. intros c (r & _ & ->)%H. by eexists. }
  clear H. induction Hall as [|c cols [i ->] _ [impls ->]]; [by exists []|].
  by exists (i :: impls).
Qed.

Lemma imap_map_ext {A B} (f : nat -> A -> B) (g : A -> B) (l : list A) :
  (forall j x, l !! j = Some x -> f j x = g x) -> imap f l = map g l.
Proof.
  revert f. induction l as [|x l IH]; intros f H; [done|].
  rewrite imap_cons. simpl. f_equal; [by apply (H 0%nat)|].
  apply IH. intros j y Hy. by apply (H (S j)).
Qed.

Lemma fillna0_heights (xs : Series) : fillna0 xs = map bar_height xs.
Proof. reflexivity. Qed.

(** X24. The image a successful [create_chart] leaves at its target
    is the throughput chart of the records of the file: one axes with
    the title, for each implementation among the records (each once)
    one series of three bars over the patterns homogeneous, bursty and
    mixed_random, the height of a bar being the median of the
    throughputs of its (pattern, implementation) group, zero when the
    group has no throughput, and the caption as the only figure text. *)
Theorem chart_shows_group_medians (accepts : artist -> bool)
    (csv_file output_image : string) (w w' : world) (df : DataFrame)
    (recs : list BenchmarkRecord) :
  csv_file ∉ dirs w -> files w !! csv_file = Some (Csv df) ->
  holds_records df recs ->
  create_chart accepts csv_file output_image w = (Ok tt, w') ->
  exists impls med,
    NoDup impls /\
    (forall i, i ∈ impls <-> exists r, r ∈ recs /\ impl r = i) /\
    (forall p i,
       is_median (med p i)
                 (map ops_per_sec (filter (fun r => pattern r = p /\ impl r = i) recs))) /\
    files w' !! (savefig_target output_image None).1
    = Some (Image (throughput_chart med impls) (savefig_target output_image None).2
                  None false).
Proof.
  intros Hd Hf Hrecs Hrun. unfold create_chart in Hrun.
  erewrite bind_Ok in Hrun; cycle 1.
  { apply try_except_Ok. erewrite bind_Ok by (by apply read_csv_loadable). reflexivity. }
  cbv iota beta in Hrun.
  destruct (median_throughput_table df recs w Hrecs)
    as (t & Ht & Hidx & Hlen & _ & Hnd & Hcols & Hcell).
  erewrite bind_Ok in Hrun by exact Ht.
  destruct (string_columns _ _ Hcols) as [impls Himpls].
  apply bind_Ok_inv in Hrun as (fig & w1 & Hbar & Hrun).
  assert (Hfig : fig = length (figures w) /\
                 figures w1 = figures w ++
                   [single_axes ""
                      (map (fun i => Bar pattern_order
                                         (map (fun p => bar_height (median (group_ops p i recs)))
                                              chart_patterns) i) impls) []]).
  { unfold plot_bar in Hbar. rewrite Himpls in Hbar.
    assert (Hne : map LStr impls <> []) by (intros E; by rewrite E in Hbar).
    destruct (map LStr impls) as [|c0 cs] eqn:Emap in Hbar at 1; [by rewrite Emap in Hne|].
    apply bind_Ok_inv in Hbar as (f & w0 & Hnew & Hbar).
    unfold new_figure in Hnew. injection Hnew as <- <-.
    apply bind_Ok_inv in Hbar as ([] & w2 & Hloop & Hret).
    unfold mret, M_ret in Hret. injection Hret as <- <-. split; [done|].
    apply (bars_loop accepts t (figures w) impls (fun j => j) []) in Hloop; [|done].
    rewrite Hloop. simpl app. do 3 f_equal.
    apply imap_map_ext. intros j i Hj. f_equal; [done|].
    rewrite fillna0_heights.
    enough (Hcol : table_column t j
                   = map (fun p => median (group_ops p i recs)) chart_patterns)
      by (by rewrite Hcol, map_map).
    apply (table_column_medians t recs j i); try done.
    - intros p Hp. apply Hcell; [by rewrite Hidx|]. rewrite Himpls.
      apply list_elem_of_In, in_map. apply list_elem_of_In. by eapply list_elem_of_lookup_2.
    - rewrite Himpls. rewrite lookup_map. by rewrite Hj. }
  destruct Hfig as [-> Hfigs].
  apply bind_Ok_inv in Hrun as ([] & w2 & Htitle & Hrun).
  apply bind_Ok_inv in Hrun as ([] & w3 & Htext & Hrun).
  apply bind_Ok_inv in Hrun as ([] & w4 & Hsave & Hrun).
  unfold print in Hrun. injection Hrun as <-.
  apply savefig_inv in Hsave as (g & Hg & ->).
  unfold set_title, update_axes, update_figure in Htitle. injection Htitle as <-.
  unfold figtext, update_figure in Htext. injection Htext as <-.
  exists impls, (fun p i => median (group_ops p i recs)). split; [|split; [|split]].
  - rewrite Himpls in Hnd. clear -Hnd.
    induction impls as [|i impls IH]; [constructor|].
    cbn [map] in Hnd. apply NoDup_cons in Hnd as [Hi Hnd].
    apply NoDup_cons. split; [|by apply IH].
    intros Hin. apply Hi, list_elem_of_In, in_map. by apply list_elem_of_In.
  - intros i. split.
    + intros Hi. destruct (proj1 (Hcols (LStr i))) as (r & Hr & E).
      * rewrite Himpls. apply list_elem_of_In, in_map. by apply list_elem_of_In.
      * exists r. split; [done|]. by injection E.
    + intros (r & Hr & <-).
      assert (Hc : LStr (impl r) ∈ t_columns t) by (apply Hcols; by exists r).
      rewrite Himpls in Hc. apply list_elem_of_In, in_map_iff in Hc as (i & E & Hi).
      injection E as ->. by apply list_elem_of_In.
  - intros p i. rewrite <- group_ops_filter. apply median_is_median.
  - simpl. rewrite lookup_insert_eq. f_equal. f_equal.
    simpl in Hg. rewrite Hfigs in Hg.
    replace (length (figures w)) with (length (figures w) + 0)%nat in Hg by lia.
    rewrite !alter_app_r in Hg. rewrite lookup_app_r in Hg by lia.
    replace (length (figures w) + 0 - length (figures w))%nat with 0%nat in Hg by lia.
    simpl in Hg. by injection Hg as <-.
Qed.

Lemma chart_shows_group_medians_witness :
  exists impls med,
    NoDup impls /\
    (forall i, i ∈ impls <-> exists r, r ∈ sample_records /\ impl r = i) /\
    (forall p i,
       is_median (med p i)
                 (map ops_per_sec
                    (filter (fun r => pattern r = p /\ impl r = i) sample_records))) /\
    files (create_chart draws_all "results.csv" "throughput_chart.png"
             (world_of [("results.csv", Csv (throughput_frame sample_records))] [])).2
      !! (savefig_target "throughput_chart.png" None).1
    = Some (Image (throughput_chart med impls)
                  (savefig_target "throughput_chart.png" None).2 None false).
Proof.
  apply (chart_shows_group_medians draws_all "results.csv" "throughput_chart.png"
           (world_of [("results.csv", Csv (throughput_frame sample_records))] [])
           (create_chart draws_all "results.csv" "throughput_chart.png"
              (world_of [("results.csv", Csv (throughput_frame sample_records))] [])).2
           (throughput_frame sample_records) sample_records).
  - apply (bool_decide_unpack _). vm_compute. exact I.
  - reflexivity.
  - apply throughput_frame_holds.
  - vm_compute. reflexivity.
Defined.
